(** * Attendance system: the local record store and the attendance domain

    A shallow embedding of [src/lib/storage.ts] (class
    [AttendanceStorageManager]) and [src/lib/attendance.ts], and the
    properties of the specification checked against it.

    Layout:
    - [JS]: the pieces of the host language the program relies on
      (JSON values, truthiness, [JSON.stringify], [Array.prototype.sort],
      32-bit integer arithmetic, [Date]);
    - [Host]: what the browser decides (storage capacity, the order of
      the keys of the store, clock zone, locale, collation, random
      identifiers);
    - [Storage]: [storage.ts];
    - [Attendance]: [attendance.ts];
    - the theorems. *)

From stdpp Require Import gmap strings list fin_maps.
From Stdlib Require Import ZArith Ascii String DecimalString DecimalPos Permutation Lia.

Set Warnings "-register-all,-abstract-large-number".
Local Open Scope string_scope.

(* ===================================================================== *)
(** ** The host language *)
(* ===================================================================== *)

Module JS.

(** JSON documents. Numbers are integers: the program only ever writes
    counters and millisecond instants. An object keeps its properties in
    insertion order, which is the order [JSON.stringify] prints them in. *)
Inductive JSON : Type :=
| JNull
| JBool (b : bool)
| JNum (n : Z)
| JStr (s : string)
| JArr (items : list JSON)
| JObj (props : list (string * JSON)).

(** A JavaScript string, as the program holds it. [Doc v] is the text
    [JSON.stringify(v)] (or any text [JSON.parse] reads back as [v]);
    [Plain s] is a text that [JSON.parse] rejects and [Number] reads as
    [NaN], kept verbatim. *)
Inductive text : Type :=
| Plain (s : string)
| Doc (v : JSON).

(** [ToBoolean]. *)
Definition truthy (v : JSON) : bool :=
  match v with
  | JNull => false
  | JBool b => b
  | JNum n => negb (n =? 0)%Z
  | JStr s => negb (String.eqb s EmptyString)
  | JArr _ => true
  | JObj _ => true
  end.

(** [undefined] is [None]. *)
Definition truthy_opt (v : option JSON) : bool :=
  match v with Some x => truthy x | None => false end.

Fixpoint assoc {A : Type} (k : string) (o : list (string * A)) : option A :=
  match o with
  | [] => None
  | (k', v) :: rest => if String.eqb k k' then Some v else assoc k rest
  end.

(** [v.k] for a value that is neither [null] nor [undefined]: only
    objects carry the properties looked up here. *)
Definition prop (k : string) (v : JSON) : option JSON :=
  match v with
  | JObj o => assoc k o
  | _ => None
  end.

(** [typeof v === 'object'] ([null] and arrays included). *)
Definition typeof_object (v : JSON) : bool :=
  match v with
  | JNull | JArr _ | JObj _ => true
  | _ => false
  end.

(** [a === b] between a JSON value and a value of the same parse: equal
    primitives are identical; two distinct objects never are. *)
Definition strict_eq (a b : JSON) : bool :=
  match a, b with
  | JNull, JNull => true
  | JBool x, JBool y => Bool.eqb x y
  | JNum x, JNum y => (x =? y)%Z
  | JStr x, JStr y => String.eqb x y
  | _, _ => false
  end.

(** [a === b] when either side may be [undefined]. *)
Definition strict_eq_opt (a b : option JSON) : bool :=
  match a, b with
  | None, None => true
  | Some x, Some y => strict_eq x y
  | _, _ => false
  end.

(** [a || b] on possibly undefined values. *)
Definition or_else (a b : option JSON) : option JSON :=
  if truthy_opt a then a else b.

(** Object spread [{...o, ...u}]: the properties of [o] keep their place
    and take the value [u] gives them; the properties only [u] has come
    after, in [u]'s order. *)
Definition has_key {A : Type} (k : string) (o : list (string * A)) : bool :=
  match assoc k o with Some _ => true | None => false end.

Fixpoint fresh_props (seen : list string) (u : list (string * JSON))
  : list (string * JSON) :=
  match u with
  | [] => []
  | (k, v) :: rest =>
      if existsb (String.eqb k) seen then fresh_props seen rest
      else (k, v) :: fresh_props (k :: seen) rest
  end.

Definition spread (o u : list (string * JSON)) : list (string * JSON) :=
  List.map (fun kv => match assoc (fst kv) u with
                      | Some v' => (fst kv, v')
                      | None => kv
                      end) o
  ++ fresh_props (List.map fst o) u.

(* --------------------------------------------------------------------- *)
(** *** Numbers and strings *)

Definition string_of_Z (z : Z) : string := NilZero.string_of_int (Z.to_int z).

Definition quote : ascii := ascii_of_nat 34.
Definition backslash : ascii := ascii_of_nat 92.

Definition hex_digit (n : N) : ascii :=
  if (n <? 10)%N then ascii_of_N (48 + n) else ascii_of_N (87 + n).

(** One character inside a JSON string literal. *)
Definition escape_char (c : ascii) : string :=
  let n := N_of_ascii c in
  if (n =? 34)%N then String backslash (String quote EmptyString)
  else if (n =? 92)%N then String backslash (String backslash EmptyString)
  else if (n =? 8)%N then String backslash "b"
  else if (n =? 12)%N then String backslash "f"
  else if (n =? 10)%N then String backslash "n"
  else if (n =? 13)%N then String backslash "r"
  else if (n =? 9)%N then String backslash "t"
  else if (n <? 32)%N then
    String backslash
      ("u00" +:+ String (hex_digit (n / 16)) (String (hex_digit (n mod 16)) EmptyString))
  else String c EmptyString.

Fixpoint escape (s : string) : string :=
  match s with
  | EmptyString => EmptyString
  | String c rest => escape_char c +:+ escape rest
  end.

Definition quoted (s : string) : string :=
  String quote (escape s +:+ String quote EmptyString).

(** [JSON.stringify(v)], without indentation. *)
Fixpoint stringify (v : JSON) : string :=
  match v with
  | JNull => "null"
  | JBool true => "true"
  | JBool false => "false"
  | JNum n => string_of_Z n
  | JStr s => quoted s
  | JArr items =>
      "[" +:+
      (fix elems (l : list JSON) : string :=
         match l with
         | [] => EmptyString
         | [x] => stringify x
         | x :: rest => stringify x +:+ "," +:+ elems rest
         end) items
      +:+ "]"
  | JObj props =>
      "{" +:+
      (fix members (l : list (string * JSON)) : string :=
         match l with
         | [] => EmptyString
         | [(k, x)] => quoted k +:+ ":" +:+ stringify x
         | (k, x) :: rest => quoted k +:+ ":" +:+ stringify x +:+ "," +:+ members rest
         end) props
      +:+ "}"
  end.

Definition text_string (t : text) : string :=
  match t with
  | Plain s => s
  | Doc v => stringify v
  end.

(** [t.length]. *)
Definition text_length (t : text) : nat := String.length (text_string t).

(** [!t] for a string [t]: only the empty string is falsy. *)
Definition text_empty (t : text) : bool :=
  match t with
  | Plain s => String.eqb s EmptyString
  | Doc _ => false
  end.

(** [JSON.parse(t)]; [None] is the [SyntaxError]. *)
Definition JSON_parse (t : text) : option JSON :=
  match t with
  | Plain _ => None
  | Doc v => Some v
  end.

(** [Number(t)]; [None] is [NaN]. *)
Definition Number (t : text) : option Z :=
  match t with
  | Doc (JNum n) => Some n
  | _ => None
  end.

(** [n.toString()] for a number that may be [NaN]. *)
Definition Number_toString (n : option Z) : text :=
  match n with
  | Some z => Doc (JNum z)
  | None => Plain "NaN"
  end.

(** [s.startsWith(p)]. *)
Definition startsWith (p s : string) : bool := String.prefix p s.

(** [s.includes(q)]. *)
Fixpoint includes (q s : string) : bool :=
  String.prefix q s ||
  match s with
  | EmptyString => false
  | String _ rest => includes q rest
  end.

(** [s.toLowerCase()] on code units below 256. *)
Definition lower_char (c : ascii) : ascii :=
  let n := N_of_ascii c in
  if ((65 <=? n) && (n <=? 90))%N then ascii_of_N (n + 32)
  else if ((192 <=? n) && (n <=? 222) && negb (n =? 215))%N then ascii_of_N (n + 32)
  else c.

Fixpoint toLowerCase (s : string) : string :=
  match s with
  | EmptyString => EmptyString
  | String c rest => String (lower_char c) (toLowerCase rest)
  end.

(** [s.split('_').pop()]: what follows the last underscore. *)
Fixpoint after_last (sep : ascii) (s : string) : string :=
  match s with
  | EmptyString => EmptyString
  | String c rest =>
      if existsb (Ascii.eqb sep) (list_ascii_of_string rest)
      then after_last sep rest
      else if Ascii.eqb c sep then rest else s
  end.

Definition is_digit (c : ascii) : bool :=
  let n := N_of_ascii c in ((48 <=? n) && (n <=? 57))%N.

Definition digit_val (c : ascii) : Z := Z.of_N (N_of_ascii c) - 48.

(** [parseInt(s)] on the texts the program meets: a leading run of
    decimal digits, [None] ([NaN]) when there is none. *)
Fixpoint leading_digits (s : string) (acc : option Z) : option Z :=
  match s with
  | String c rest =>
      if is_digit c
      then leading_digits rest
             (Some (10 * match acc with Some a => a | None => 0 end + digit_val c)%Z)
      else acc
  | EmptyString => acc
  end.

Definition parseInt (s : string) : option Z := leading_digits s None.

(* --------------------------------------------------------------------- *)
(** *** 32-bit integers *)

(** [ToInt32]: the low 32 bits, read as a two's complement number. *)
Definition toInt32 (z : Z) : Z :=
  let low := Z.land z 4294967295 in
  if (low <? 2147483648)%Z then low else (low - 4294967296)%Z.

(** [x << n] on a number. *)
Definition shl32 (x : Z) (n : Z) : Z := toInt32 (Z.shiftl (toInt32 x) n).

(** [x & y] on numbers. *)
Definition and32 (x y : Z) : Z := toInt32 (Z.land (toInt32 x) (toInt32 y)).

Definition digit36 (n : Z) : ascii :=
  if (n <? 10)%Z then ascii_of_N (Z.to_N (48 + n)) else ascii_of_N (Z.to_N (87 + n)).

Fixpoint digits36 (fuel : nat) (n : Z) (acc : string) : string :=
  match fuel with
  | O => acc
  | S fuel' =>
      let acc' := String (digit36 (n mod 36)) acc in
      if (n / 36 =? 0)%Z then acc' else digits36 fuel' (n / 36) acc'
  end.

(** [n.toString(36)] for an integer of at most 32 bits. *)
Definition toString36 (n : Z) : string :=
  if (n <? 0)%Z then "-" +:+ digits36 8 (- n) EmptyString
  else digits36 8 n EmptyString.

(* --------------------------------------------------------------------- *)
(** *** Arrays *)

(** [Array.prototype.sort(cmp)], as a stable insertion sort: the elements
    are taken from left to right, and each one moves down past the
    elements sorted so far for as long as the comparator tells it to.
    The comparator is called as engines call it, with the later element
    of the array as its first argument. A comparator result is a number:
    negative, and the first argument goes first; a [NaN] counts as [0],
    as the standard says. For a consistent comparator the standard
    fixes the result (the stable sorted arrangement), which is what
    this computes; for another one the result is the engine's choice.

    [sorted] is the part sorted so far, its last element first. *)
Fixpoint sort_insert {A : Type} (cmp : A -> A -> Z) (x : A) (sorted : list A) : list A :=
  match sorted with
  | [] => [x]
  | y :: rest =>
      if (cmp x y <? 0)%Z then y :: sort_insert cmp x rest
      else x :: y :: rest
  end.

Definition Array_sort {A : Type} (cmp : A -> A -> Z) (l : list A) : list A :=
  rev (fold_left (fun sorted x => sort_insert cmp x sorted) l []).

(** The same with a comparator that may throw ([None]). *)
Fixpoint sort_insert_try {A : Type} (cmp : A -> A -> option Z) (x : A) (sorted : list A)
  : option (list A) :=
  match sorted with
  | [] => Some [x]
  | y :: rest =>
      match cmp x y with
      | None => None
      | Some c =>
          if (c <? 0)%Z then
            match sort_insert_try cmp x rest with
            | Some r => Some (y :: r)
            | None => None
            end
          else Some (x :: y :: rest)
      end
  end.

Definition Array_sort_try {A : Type} (cmp : A -> A -> option Z) (l : list A)
  : option (list A) :=
  option_map (@rev A)
    (fold_left (fun sorted x =>
                  match sorted with
                  | Some s => sort_insert_try cmp x s
                  | None => None
                  end) l (Some [])).

(** [l.slice(0, n)]. *)
Definition slice0 {A : Type} (n : nat) (l : list A) : list A := firstn n l.

(** [l.slice(n)]. *)
Definition slice_from {A : Type} (n : nat) (l : list A) : list A := skipn n l.

(** [l.findIndex(p)]; [None] is [-1]. *)
Fixpoint findIndex {A : Type} (p : A -> bool) (l : list A) : option nat :=
  match l with
  | [] => None
  | x :: rest => if p x then Some O else option_map S (findIndex p rest)
  end.

(** [l[i] = x] for an index inside the array. *)
Fixpoint set_nth {A : Type} (i : nat) (x : A) (l : list A) : list A :=
  match l, i with
  | [], _ => []
  | _ :: rest, O => x :: rest
  | y :: rest, S j => y :: set_nth j x rest
  end.

(* --------------------------------------------------------------------- *)
(** *** Dates *)

Definition msPerDay : Z := 86400000.
Definition msPerHour : Z := 3600000.
Definition msPerMinute : Z := 60000.
Definition msPerSecond : Z := 1000.

(** [TimeClip]: an instant further than 8.64e15 ms (100,000,000 days) from
    the epoch is not a date; [None] is the Invalid Date ([NaN]). *)
Definition maxTime : Z := 8640000000000000.

Definition TimeClip (t : Z) : option Z :=
  if (Z.abs t <=? maxTime)%Z then Some t else None.

(** Days since the epoch of a civil date, and back (proleptic Gregorian
    calendar, months 1 to 12). *)
Definition days_from_civil (y m d : Z) : Z :=
  (let y' := if m <=? 2 then y - 1 else y in
   let era := y' / 400 in
   let yoe := y' - era * 400 in
   let mp := (m + 9) mod 12 in
   let doy := (153 * mp + 2) / 5 + d - 1 in
   let doe := yoe * 365 + yoe / 4 - yoe / 100 + doy in
   era * 146097 + doe - 719468)%Z.

Definition civil_from_days (z : Z) : Z * Z * Z :=
  (let z := z + 719468 in
   let era := z / 146097 in
   let doe := z - era * 146097 in
   let yoe := (doe - doe / 1460 + doe / 36524 - doe / 146096) / 365 in
   let y := yoe + era * 400 in
   let doy := doe - (365 * yoe + yoe / 4 - yoe / 100) in
   let mp := (5 * doy + 2) / 153 in
   let d := doy - (153 * mp + 2) / 5 + 1 in
   let m := if mp <? 10 then mp + 3 else mp - 9 in
   (if m <=? 2 then y + 1 else y, m, d))%Z.

Fixpoint zeros (n : nat) : string :=
  match n with
  | O => EmptyString
  | S k => "0" +:+ zeros k
  end.

(** [s.padStart(width, '0')]. *)
Definition pad_left (width : nat) (s : string) : string :=
  zeros (width - String.length s) +:+ s.

Definition dec (width : nat) (z : Z) : string := pad_left width (string_of_Z z).

(** [new Date(t).toISOString()] for a year from 0 to 9999. *)
Definition toISOString (t : Z) : string :=
  let '(y, m, d) := civil_from_days (t / msPerDay) in
  let r := (t mod msPerDay)%Z in
  dec 4 y +:+ "-" +:+ dec 2 m +:+ "-" +:+ dec 2 d +:+ "T" +:+
  dec 2 (r / msPerHour) +:+ ":" +:+ dec 2 (r mod msPerHour / msPerMinute) +:+ ":" +:+
  dec 2 (r mod msPerMinute / msPerSecond) +:+ "." +:+ dec 3 (r mod msPerSecond) +:+ "Z".

Fixpoint all_digits (s : string) : bool :=
  match s with
  | EmptyString => true
  | String c rest => is_digit c && all_digits rest
  end.

Definition num_at (s : string) (start len : nat) : option Z :=
  let part := String.substring start len s in
  if all_digits part && (String.length part =? len)%nat
  then match parseInt part with Some z => Some z | None => None end
  else None.

Definition char_at (s : string) (i : nat) : string := String.substring i 1 s.

(** [Date.parse(s)] for the format [toISOString] writes,
    [YYYY-MM-DDTHH:mm:ss.sssZ]. *)
Definition parseISO (s : string) : option Z :=
  if (String.length s =? 24)%nat
     && String.eqb (char_at s 4) "-" && String.eqb (char_at s 7) "-"
     && String.eqb (char_at s 10) "T" && String.eqb (char_at s 13) ":"
     && String.eqb (char_at s 16) ":" && String.eqb (char_at s 19) "."
     && String.eqb (char_at s 23) "Z"
  then
    match num_at s 0 4, num_at s 5 2, num_at s 8 2,
          num_at s 11 2, num_at s 14 2, num_at s 17 2, num_at s 20 3 with
    | Some y, Some m, Some d, Some hh, Some mm, Some ss, Some ms =>
        let days := days_from_civil y m d in
        if ((1 <=? m) && (m <=? 12) && (1 <=? d) && (hh <=? 23) && (mm <=? 59) && (ss <=? 59))%Z
           && match civil_from_days days with
              | (y', m', d') => ((y' =? y) && (m' =? m) && (d' =? d))%Z
              end
        then TimeClip (days * msPerDay + hh * msPerHour + mm * msPerMinute
                       + ss * msPerSecond + ms)%Z
        else None
    | _, _, _, _, _, _, _ => None
    end
  else None.

End JS.

(* ===================================================================== *)
(** ** The browser *)
(* ===================================================================== *)

Module Host.

(** What the program leaves to the browser it runs in. *)
Record t : Type := {
  (** whether [localStorage] may hold this content; a [setItem] that would
      leave it otherwise throws [QuotaExceededError] *)
  fits : gmap string JS.text -> bool;
  (** [Object.keys(localStorage)]: the keys of the store, in the order
      this browser lists them *)
  keysOf : gmap string JS.text -> list string;
  (** every key of the store is listed, once *)
  keysOf_perm : forall ls, Permutation (keysOf ls) (List.map fst (map_to_list ls));
  (** [LocalTZA(t, isUTC)]: local time minus UTC, in ms, at the instant
      [t], which is read as a UTC instant or as a local one *)
  LocalTZA : Z -> bool -> Z;
  (** [new Date(t).toLocaleDateString()] *)
  toLocaleDateString : Z -> string;
  (** [new Date(t).toLocaleTimeString('en-US', {hour: '2-digit',
      minute: '2-digit', hour12: true})] *)
  toLocaleTimeString : Z -> string;
  (** [Date.parse] *)
  Date_parse : string -> option Z;
  (** [a.localeCompare(b)] *)
  localeCompare : string -> string -> Z;
  (** the identifiers [crypto.randomUUID()] hands out, in order *)
  randomUUID : nat -> string
}.

End Host.

(** The state the program runs on: the origin's [localStorage], the clock
    ([Date.now()]) and the number of identifiers drawn so far. *)
Record World : Type := {
  localStorage : gmap string JS.text;
  clock : Z;
  drawn : nat
}.

Definition with_storage (w : World) (ls : gmap string JS.text) : World :=
  {| localStorage := ls; clock := clock w; drawn := drawn w |}.

(** What a [throw] carries. [RangeError] is the one the engine throws
    when a call finds the call stack used up. *)
Inductive Error : Type :=
| QuotaExceededError
| SyntaxError
| TypeError
| RangeError
| Err (message : string).

(** The result of running a function: it returns or it throws. *)
Inductive outcome (A : Type) : Type :=
| Return (a : A) (w : World)
| Throw (e : Error) (w : World).

Arguments Return {A} a w.
Arguments Throw {A} e w.

Definition bind {A B : Type} (m : outcome A) (k : A -> World -> outcome B) : outcome B :=
  match m with
  | Return a w => k a w
  | Throw e w => Throw e w
  end.

(** [try { m } catch (e) { handler }]. *)
Definition try_catch {A : Type} (m : outcome A) (handler : Error -> World -> outcome A)
  : outcome A :=
  match m with
  | Throw e w => handler e w
  | Return a w => Return a w
  end.

Notation "'let!' ( x , w ) := m 'in' k" :=
  (bind m (fun x w => k))
  (at level 10, x name, w name, m at level 100, k at level 200).

(** The world an outcome ends in. *)
Definition final {A : Type} (o : outcome A) : option World :=
  match o with
  | Return _ w => Some w
  | Throw _ w => Some w
  end.

(* ===================================================================== *)
(** ** [storage.ts] *)
(* ===================================================================== *)

Module Storage.
Import JS.

Module STORAGE_KEYS.
Definition ATTENDANCE_RECORDS : string := "prefect_attendance_records".
Definition BACKUP_METADATA : string := "attendance_backup_metadata".
Definition STORAGE_VERSION : string := "attendance_storage_version".
Definition LAST_BACKUP : string := "last_automatic_backup".
Definition DATA_INTEGRITY_HASH : string := "data_integrity_hash".
Definition STORAGE_QUOTA_WARNING : string := "storage_quota_warning".
End STORAGE_KEYS.

Definition STORAGE_VERSION : string := "2.0.0".
(** [4.5 * 1024 * 1024] *)
Definition MAX_STORAGE_SIZE : Z := 4718592.

Section WithHost.
Variable h : Host.t.

(* --------------------------------------------------------------------- *)
(** *** [localStorage] *)

Definition getItem (k : string) (w : World) : option text := localStorage w !! k.

Definition setItem (k : string) (v : text) (w : World) : outcome unit :=
  let ls := <[k := v]> (localStorage w) in
  if Host.fits h ls then Return tt (with_storage w ls)
  else Throw QuotaExceededError w.

Definition removeItem (k : string) (w : World) : World :=
  with_storage w (delete k (localStorage w)).

(** [Object.keys(localStorage)]. *)
Definition keys (w : World) : list string := Host.keysOf h (localStorage w).

(* --------------------------------------------------------------------- *)
(** *** Records as the store holds them *)

(** [record.id && record.prefectNumber && record.role && record.timestamp] *)
Definition requiredFields (record : JSON) : bool :=
  truthy_opt (prop "id" record) && truthy_opt (prop "prefectNumber" record)
  && truthy_opt (prop "role" record) && truthy_opt (prop "timestamp" record).

(** The test [getRecords] filters with:
    [record && typeof record === 'object' && record.id &&
     record.prefectNumber && record.role && record.timestamp]. *)
Definition validRecord (record : JSON) : bool :=
  truthy record && typeof_object record && requiredFields record.

(** The test [restoreFromBackup] filters with:
    [record && record.id && record.prefectNumber && record.role &&
     record.timestamp]. *)
Definition hasRequiredFields (record : JSON) : bool :=
  truthy record && requiredFields record.

(** [String(v)] for a property value that may be [undefined]. *)
Fixpoint ToString (v : JSON) : string :=
  match v with
  | JNull => "null"
  | JBool true => "true"
  | JBool false => "false"
  | JNum n => string_of_Z n
  | JStr s => s
  | JArr items =>
      (fix join (l : list JSON) : string :=
         match l with
         | [] => EmptyString
         | [x] => match x with JNull => EmptyString | _ => ToString x end
         | x :: rest =>
             match x with JNull => EmptyString | _ => ToString x end +:+ "," +:+ join rest
         end) items
  | JObj _ => "[object Object]"
  end.

Definition ToString_opt (v : option JSON) : string :=
  match v with
  | Some x => ToString x
  | None => "undefined"
  end.

(** [new Date(v).getTime()]; [None] is [NaN]. *)
Definition Date_getTime (v : option JSON) : option Z :=
  match v with
  | None => None
  | Some JNull => Some 0%Z
  | Some (JBool b) => Some (if b then 1 else 0)%Z
  | Some (JNum n) => TimeClip n
  | Some x => Host.Date_parse h (ToString x)
  end.

(** Local time, and [time.getHours()], [time.getMinutes()],
    [time.getDate()] on a valid date. *)
Definition LocalTime (t : Z) : Z := (t + Host.LocalTZA h t true)%Z.
Definition UTC (t : Z) : Z := (t - Host.LocalTZA h t false)%Z.
Definition Day (t : Z) : Z := (t / msPerDay)%Z.
Definition TimeWithinDay (t : Z) : Z := (t mod msPerDay)%Z.
Definition getHours (t : Z) : Z := (LocalTime t / msPerHour mod 24)%Z.
Definition getMinutes (t : Z) : Z := (LocalTime t / msPerMinute mod 60)%Z.
Definition getSeconds (t : Z) : Z := (LocalTime t / msPerSecond mod 60)%Z.
Definition getDate (t : Z) : Z := snd (civil_from_days (Day (LocalTime t))).

(** [MakeDay(year, month, date)]: the day number of the first of the
    month, plus [date - 1]. *)
Definition MakeDay (year month date : Z) : Z :=
  (days_from_civil year month 1 + date - 1)%Z.

(** [time.setDate(date)] on a valid date: the new time value,
    [TimeClip(UTC(MakeDate(MakeDay(year, month, date), TimeWithinDay(t))))]
    with [t] the local time; [None] is the Invalid Date. *)
Definition setDate (time : Z) (date : Z) : option Z :=
  let t := LocalTime time in
  let '(year, month, _) := civil_from_days (Day t) in
  TimeClip (UTC (MakeDay year month date * msPerDay + TimeWithinDay t))%Z.

(** The comparator
    [(a, b) => new Date(b.timestamp).getTime() - new Date(a.timestamp).getTime()]. *)
Definition byTimestampDesc (a b : JSON) : Z :=
  match Date_getTime (prop "timestamp" b), Date_getTime (prop "timestamp" a) with
  | Some tb, Some ta => (tb - ta)%Z
  | _, _ => 0%Z
  end.

(** The comparator [(a, b) => a.id.localeCompare(b.id)]; [None] when it
    throws a [TypeError] ([a.id] is not a string, or [b] is [null]). *)
Definition byId (a b : JSON) : option Z :=
  match prop "id" a, b with
  | Some (JStr s), JNull => None
  | Some (JStr s), _ => Some (Host.localeCompare h s (ToString_opt (prop "id" b)))
  | _, _ => None
  end.

(* --------------------------------------------------------------------- *)
(** *** [generateDataHash] *)

(** One turn of the loop: [hash = ((hash << 5) - hash) + char;
    hash = hash & hash]. *)
Definition hash_step (hash : Z) (char : ascii) : Z :=
  let hash := (shl32 hash 5 - hash + Z.of_N (N_of_ascii char))%Z in
  and32 hash hash.

Fixpoint hash_loop (hash : Z) (dataString : string) : Z :=
  match dataString with
  | EmptyString => hash
  | String char rest => hash_loop (hash_step hash char) rest
  end.

Definition hash_string (dataString : string) : string :=
  toString36 (hash_loop 0 dataString).

Definition generateDataHash (data : list JSON) : option string :=
  match Array_sort_try byId data with
  | Some sorted => Some (hash_string (stringify (JArr sorted)))
  | None => None
  end.

(* --------------------------------------------------------------------- *)
(** *** [checkStorageQuota] *)

Record Quota : Type := { available : Z; used : Z }.

(** [quota.percentage > p] where [percentage = (used / total) * 100],
    [total = used + available]; with [total = 0] the percentage is [NaN]
    and the comparison false. The sizes are far below 2^53 and the
    comparison is between integers, so it is decided exactly. *)
Definition percentage_over (p : Z) (q : Quota) : bool :=
  ((0 <? used q + available q) && (p * (used q + available q) <? used q * 100))%Z.

Definition testKey : string := "storage_quota_test".

Fixpoint repeat_char (c : ascii) (n : nat) : string :=
  match n with
  | O => EmptyString
  | S k => String c (repeat_char c k)
  end.

(** ['x'.repeat(1024)] *)
Definition testData : text := Plain (repeat_char "x"%char 1024).

Definition string_of_nat (n : nat) : string := string_of_Z (Z.of_nat n).

Definition usedSpace (ls : gmap string text) : Z :=
  map_fold (fun key value acc => acc + Z.of_nat (text_length value) + Z.of_nat (String.length key))%Z
           0%Z ls.

(** The loop [for (i = 0; i < 1024; i++) { setItem(testKey + i, testData);
    available += testData.length }], left at the first refusal. *)
Fixpoint probe (n i : nat) (ls : gmap string text) (avail : Z) : gmap string text * Z :=
  match n with
  | O => (ls, avail)
  | S n' =>
      let ls' := <[testKey +:+ string_of_nat i := testData]> ls in
      if Host.fits h ls' then probe n' (S i) ls' (avail + 1024)%Z
      else (ls, avail)
  end.

(** The [finally] block: every probe key is removed. *)
Fixpoint unprobe (n i : nat) (ls : gmap string text) : gmap string text :=
  match n with
  | O => ls
  | S n' => unprobe n' (S i) (delete (testKey +:+ string_of_nat i) ls)
  end.

Definition checkStorageQuota (w : World) : Quota * World :=
  let used := usedSpace (localStorage w) in
  let '(ls, avail) := probe 1024 0 (localStorage w) 0%Z in
  ({| available := avail; used := used |}, with_storage w (unprobe 1024 0 ls)).

(* --------------------------------------------------------------------- *)
(** *** Backups in [localStorage] *)

Definition isBackupKey (key : string) : bool := startsWith "attendance_backup_" key.

(** [parseInt(key.split('_').pop() || '0')] *)
Definition backupTimestamp (key : string) : option Z :=
  let last := after_last "_"%char key in
  parseInt (if String.eqb last EmptyString then "0" else last).

(** The comparator [(a, b) => b.timestamp - a.timestamp] on
    [{key, timestamp}]. *)
Definition byBackupTimestampDesc (a b : string * option Z) : Z :=
  match snd b, snd a with
  | Some tb, Some ta => (tb - ta)%Z
  | _, _ => 0%Z
  end.

Definition sortedBackups (w : World) : list (string * option Z) :=
  Array_sort byBackupTimestampDesc
    (List.map (fun key => (key, backupTimestamp key)) (List.filter isBackupKey (keys w))).

Definition cleanOldBackups (w : World) : World :=
  fold_left (fun w backup => removeItem (fst backup) w) (slice_from 5 (sortedBackups w)) w.

(** [getLatestBackup()], reduced to the [records] of what it returns;
    [None] is [null]. *)
Definition getLatestBackup (w : World) : option JSON :=
  match sortedBackups w with
  | [] => None
  | latestBackupKey :: _ =>
      let stored :=
        match getItem (fst latestBackupKey) w with
        | Some t => if text_empty t then Doc (JObj []) else t
        | None => Doc (JObj [])
        end in
      match JSON_parse stored with
      | None => None
      | Some JNull => None
      | Some backupData =>
          Some (match prop "records" backupData with
                | Some r => if truthy r then r else JArr []
                | None => JArr []
                end)
      end
  end.

(* --------------------------------------------------------------------- *)
(** *** Reading and writing the record set

    [getRecords], [saveRecords] and the error handlers call one another;
    [fuel] is the room left on the call stack, counted in calls of these
    functions: a call that finds none throws a [RangeError], which the
    [catch] blocks on its way catch like any other error. The listeners of
    [notifyListeners] belong to the user interface and each runs inside
    its own [try]/[catch]: they are left out. [generateDataHash] sorts
    the array it is given in place, after [saveRecords] has serialised
    it; no caller reads the array again. *)

Import STORAGE_KEYS.

Fixpoint getRecords (fuel : nat) (w : World) : outcome (list JSON) :=
  match fuel with
  | O => Throw RangeError w
  | S fuel =>
      match getItem ATTENDANCE_RECORDS w with
      | None => Return [] w
      | Some data =>
          if text_empty data then Return [] w
          else
            match JSON_parse data with
            | None =>
                (* catch (error) *)
                let! (_, w) := handleStorageError fuel SyntaxError w in
                Return [] w
            | Some (JArr records) => Return (List.filter validRecord records) w
            | Some _ => Return [] w
            end
      end
  end

with handleStorageError (fuel : nat) (error : Error) (w : World) : outcome unit :=
  match fuel with
  | O => Throw RangeError w
  | S fuel =>
      match error with
      | QuotaExceededError => handleQuotaExceeded fuel w
      | _ => let! (_, w) := attemptDataRecovery fuel w in Return tt w
      end
  end

with attemptDataRecovery (fuel : nat) (w : World) : outcome bool :=
  match fuel with
  | O => Throw RangeError w
  | S fuel =>
      try_catch
        (match getLatestBackup w with
         | Some records =>
             let! (_, w) := saveRecords fuel records w in
             Return true w
         | None =>
             let! (records, w) := getRecords fuel w in
             let validRecords := List.filter requiredFields records in
             let! (_, w) :=
               (if (List.length validRecords =? List.length records)%nat then Return tt w
                else saveRecords fuel (JArr validRecords) w) in
             Return true w
         end)
        (fun _ w => Return false w)
  end

with handleQuotaExceeded (fuel : nat) (w : World) : outcome unit :=
  match fuel with
  | O => Throw RangeError w
  | S fuel =>
      try_catch
        (let w := cleanOldBackups w in
         let! (records, w) := getRecords fuel w in
         let! (_, w) :=
           (if (1000 <? List.length records)%nat then
              let sortedRecords := Array_sort byTimestampDesc records in
              let recentRecords := slice0 800 sortedRecords in
              saveRecords fuel (JArr recentRecords) w
            else Return tt w) in
         setItem STORAGE_QUOTA_WARNING (Doc (JNum (clock w))) w)
        (fun _ w => Return tt w)
  end

with saveRecords (fuel : nat) (records : JSON) (w : World) : outcome unit :=
  match fuel with
  | O => Throw RangeError w
  | S fuel =>
      try_catch
        (match records with
         | JArr items =>
             let '(quota, w) := checkStorageQuota w in
             let! (_, w) :=
               (if percentage_over 90 quota then handleQuotaExceeded fuel w
                else Return tt w) in
             let dataString := Doc records in
             if (MAX_STORAGE_SIZE <? Z.of_nat (text_length dataString))%Z
             then Throw (Err "Data size exceeds maximum storage limit") w
             else
               let! (_, w) := setItem ATTENDANCE_RECORDS dataString w in
               match generateDataHash items with
               | None => Throw TypeError w
               | Some hash =>
                   let! (_, w) := setItem DATA_INTEGRITY_HASH (Plain hash) w in
                   updateBackupMetadata fuel w
               end
         | _ => Throw (Err "Records must be an array") w
         end)
        (fun error w =>
           let! (_, w) := handleStorageError fuel error w in
           Throw error w)
  end

with updateBackupMetadata (fuel : nat) (w : World) : outcome unit :=
  match fuel with
  | O => Throw RangeError w
  | S fuel =>
      try_catch
        (let! (records, w) := getRecords fuel w in
         let metadata :=
           JObj [("lastUpdate", JNum (clock w));
                 ("recordCount", JNum (Z.of_nat (List.length records)));
                 ("version", JStr Storage.STORAGE_VERSION)] in
         setItem BACKUP_METADATA (Doc metadata) w)
        (fun _ w => Return tt w)
  end.

Definition addRecord (fuel : nat) (record : JSON) (w : World) : outcome unit :=
  let! (records, w) := getRecords fuel w in
  saveRecords fuel (JArr (records ++ [record])) w.

(** [{ ...record, ...updates }] *)
Definition merge (record : JSON) (updates : list (string * JSON)) : JSON :=
  match record with
  | JObj o => JObj (spread o updates)
  | _ => JObj (spread [] updates)
  end.

Definition hasId (id : string) (r : JSON) : bool :=
  strict_eq_opt (prop "id" r) (Some (JStr id)).

Definition updateRecord (fuel : nat) (id : string) (updates : list (string * JSON))
  (w : World) : outcome JSON :=
  let! (records, w) := getRecords fuel w in
  match findIndex (hasId id) records with
  | None => Throw (Err "Record not found") w
  | Some index =>
      let updatedRecord := merge (nth index records JNull) updates in
      let! (_, w) := saveRecords fuel (JArr (set_nth index updatedRecord records)) w in
      Return updatedRecord w
  end.

Definition deleteRecord (fuel : nat) (id : string) (w : World) : outcome unit :=
  let! (records, w) := getRecords fuel w in
  saveRecords fuel (JArr (List.filter (fun r => negb (hasId id r)) records)) w.

(** The backup document. The text handed back is printed with an
    indentation of two, the one stored without; both are the same
    document. *)
Definition backupData (timestamp : Z) (records : list JSON) (type : list (string * JSON))
  : JSON :=
  JObj [("timestamp", JNum timestamp);
        ("version", JStr Storage.STORAGE_VERSION);
        ("records", JArr records);
        ("metadata",
         JObj ([("recordCount", JNum (Z.of_nat (List.length records)));
                ("createdAt", JStr (toISOString timestamp))] ++ type))].

Definition createManualBackup (fuel : nat) (w : World) : outcome text :=
  let! (records, w) := getRecords fuel w in
  let timestamp := clock w in
  let data := backupData timestamp records [("type", JStr "manual")] in
  let backupKey := "attendance_backup_manual_" +:+ string_of_Z timestamp in
  let! (_, w) := setItem backupKey (Doc data) w in
  Return (Doc data) w.

Definition performAutomaticBackup (fuel : nat) (w : World) : outcome unit :=
  try_catch
    (let! (records, w) := getRecords fuel w in
     let timestamp := clock w in
     let backupKey := "attendance_backup_" +:+ string_of_Z timestamp in
     let! (_, w) := setItem backupKey (Doc (backupData timestamp records [])) w in
     let! (_, w) := setItem LAST_BACKUP (Doc (JNum timestamp)) w in
     Return tt (cleanOldBackups w))
    (fun _ w => Return tt w).

Definition restoreFromBackup (fuel : nat) (backupString : text) (w : World) : outcome unit :=
  match JSON_parse backupString with
  | None => Throw SyntaxError w
  | Some JNull => Throw TypeError w
  | Some data =>
      match prop "records" data with
      | Some (JArr records) =>
          let validRecords := List.filter hasRequiredFields records in
          saveRecords fuel (JArr validRecords) w
      | _ => Throw (Err "Invalid backup format") w
      end
  end.

(* --------------------------------------------------------------------- *)
(** *** Integrity, migration, start-up and the backup schedule *)

(** [24 * 60 * 60 * 1000] *)
Definition BACKUP_INTERVAL : Z := 86400000.

(** [storedHash && storedHash !== currentHash] *)
Definition hashMismatch (storedHash : option text) (currentHash : string) : bool :=
  match storedHash with
  | Some t => negb (text_empty t) && negb (String.eqb (text_string t) currentHash)
  | None => false
  end.

Definition verifyDataIntegrity (fuel : nat) (w : World) : outcome bool :=
  try_catch
    (let! (records, w) := getRecords fuel w in
     match generateDataHash records with
     | None => Throw TypeError w
     | Some currentHash =>
         let storedHash := getItem DATA_INTEGRITY_HASH w in
         if hashMismatch storedHash currentHash then attemptDataRecovery fuel w
         else
           let! (_, w) := setItem DATA_INTEGRITY_HASH (Plain currentHash) w in
           Return true w
     end)
    (fun _ w => Return false w).

(** [{ ...record, migrated: true, version: STORAGE_VERSION }] *)
Definition migratedRecord (record : JSON) : JSON :=
  merge record [("migrated", JBool true); ("version", JStr Storage.STORAGE_VERSION)].

(** [oldVersion] is only printed. *)
Definition migrateStorage (fuel : nat) (oldVersion : option text) (w : World)
  : outcome unit :=
  try_catch
    (let! (existingRecords, w) := getRecords fuel w in
     saveRecords fuel (JArr (List.map migratedRecord existingRecords)) w)
    (fun _ w => Throw (Err "Failed to migrate storage data") w).

(** [!currentVersion || currentVersion !== STORAGE_VERSION] *)
Definition outdated (currentVersion : option text) : bool :=
  match currentVersion with
  | Some t => text_empty t || negb (String.eqb (text_string t) Storage.STORAGE_VERSION)
  | None => true
  end.

(** [!localStorage.getItem(key)] *)
Definition absent (stored : option text) : bool :=
  match stored with
  | Some t => text_empty t
  | None => true
  end.

Definition initializeStorage (fuel : nat) (w : World) : outcome unit :=
  try_catch
    (let currentVersion := getItem STORAGE_KEYS.STORAGE_VERSION w in
     let! (_, w) :=
       (if outdated currentVersion then
          let! (_, w) := migrateStorage fuel currentVersion w in
          setItem STORAGE_KEYS.STORAGE_VERSION (Plain Storage.STORAGE_VERSION) w
        else Return tt w) in
     let! (_, w) :=
       (if absent (getItem ATTENDANCE_RECORDS w) then saveRecords fuel (JArr []) w
        else Return tt w) in
     let! (_, w) := verifyDataIntegrity fuel w in
     Return tt w)
    (fun error w => handleStorageError fuel error w).

(** [now - lastBackupTime > BACKUP_INTERVAL], false on [NaN]. *)
Definition backupDue (now : Z) (lastBackupTime : option Z) : bool :=
  match lastBackupTime with
  | Some t => (BACKUP_INTERVAL <? now - t)%Z
  | None => false
  end.

(** [lastBackup ? parseInt(lastBackup) : 0] *)
Definition lastBackupTime (w : World) : option Z :=
  match getItem LAST_BACKUP w with
  | Some t => if text_empty t then Some 0%Z else parseInt (text_string t)
  | None => Some 0%Z
  end.

Definition checkAndPerformBackup (fuel : nat) (w : World) : outcome unit :=
  try_catch
    (if backupDue (clock w) (lastBackupTime w) then performAutomaticBackup fuel w
     else Return tt w)
    (fun _ w => Return tt w).

End WithHost.
End Storage.

(* ===================================================================== *)
(** ** [attendance.ts] *)
(* ===================================================================== *)

Module Attendance.
Import JS.
Import Storage.

(** Maximum days to keep records, set to a very high number. *)
Definition MAX_DAYS : Z := 999999999.
Definition FAILED_ATTEMPTS_KEY : string := "admin_failed_attempts".
Definition LOCKOUT_TIME_KEY : string := "admin_lockout_time".
Definition MAX_FAILED_ATTEMPTS : Z := 10.
(** 15 minutes *)
Definition LOCKOUT_DURATION : Z := 15 * 60 * 1000.
Definition ADMIN_PIN : string := "apple".

(** The ten keys the role counters start from, in the order of the
    object literal. *)
Definition zeroRoles : list (string * option Z) :=
  [("Head", Some 0%Z); ("Deputy", Some 0%Z); ("Senior Executive", Some 0%Z);
   ("Executive", Some 0%Z); ("Super Senior", Some 0%Z); ("Senior", Some 0%Z);
   ("Junior", Some 0%Z); ("Sub", Some 0%Z); ("Apprentice", Some 0%Z);
   ("Games Captain", Some 0%Z)].

Record PrefectStats : Type := {
  totalDays : nat;
  onTimeDays : Z;
  lateDays : Z;
  (** [onTimeDays / totalDays * 100] as the pair (numerator, denominator);
      [(0, 1)] when there is no record *)
  attendanceRate : Z * Z;
  roles : list (string * option Z);
  recentRecords : list JSON
}.

Record DailyStats : Type := {
  total : nat;
  onTime : Z;
  late : Z;
  byRole : list (string * option Z)
}.

Record BulkResult : Type := {
  success : list JSON;
  errors : list (string * string * string)
}.

Section WithHost.
Variable h : Host.t.

(* --------------------------------------------------------------------- *)
(** *** Duplicates *)

(** [record.prefectNumber === prefectNumber && record.role === role &&
     record.date === date] *)
Definition sameTriple (prefectNumber role date : option JSON) (record : JSON) : bool :=
  strict_eq_opt (prop "prefectNumber" record) prefectNumber
  && strict_eq_opt (prop "role" record) role
  && strict_eq_opt (prop "date" record) date.

Definition checkDuplicateAttendance (fuel : nat) (prefectNumber role date : string)
  (w : World) : outcome bool :=
  let! (records, w) := getRecords h fuel w in
  Return (existsb (sameTriple (Some (JStr prefectNumber)) (Some (JStr role))
                              (Some (JStr date))) records) w.

(* --------------------------------------------------------------------- *)
(** *** The admin PIN *)

(** [Number(localStorage.getItem(key) || '0')]; [None] is [NaN]. *)
Definition storedNumber (key : string) (w : World) : option Z :=
  match getItem key w with
  | None => Some 0%Z
  | Some t => if text_empty t then Some 0%Z else Number t
  end.

Definition show_number (n : option Z) : string :=
  match n with
  | Some z => string_of_Z z
  | None => "NaN"
  end.

Definition lockedMessage (remainingMinutes : Z) : string :=
  "Account is locked. Please try again in " +:+ string_of_Z remainingMinutes +:+ " minutes.".

Definition tooManyMessage : string :=
  "Too many failed attempts. Account locked for "
  +:+ string_of_Z (LOCKOUT_DURATION / 60000) +:+ " minutes.".

Definition invalidPinMessage (remainingAttempts : option Z) : string :=
  "Invalid PIN. " +:+ show_number remainingAttempts +:+ " "
  +:+ (match remainingAttempts with
       | Some 1%Z => "attempt"
       | _ => "attempts"
       end) +:+ " remaining.".

(** [Math.ceil(x / 60000)] for an integer [x]. *)
Definition ceilMinutes (x : Z) : Z := (- ((- x) / 60000))%Z.

Definition checkAdminAccess (pin : string) (w : World) : outcome bool :=
  let now := clock w in
  let storedLockoutTime := storedNumber LOCKOUT_TIME_KEY w in
  if match storedLockoutTime with
     | Some t => (now <? t)%Z
     | None => false
     end
  then
    let remainingMinutes :=
      ceilMinutes (match storedLockoutTime with Some t => t | None => 0 end - now) in
    Throw (Err (lockedMessage remainingMinutes)) w
  else if String.eqb pin ADMIN_PIN then
    Return true (removeItem LOCKOUT_TIME_KEY (removeItem FAILED_ATTEMPTS_KEY w))
  else
    let failedAttempts := option_map (fun n => n + 1)%Z (storedNumber FAILED_ATTEMPTS_KEY w) in
    let! (_, w) := setItem h FAILED_ATTEMPTS_KEY (Number_toString failedAttempts) w in
    if match failedAttempts with
       | Some n => (MAX_FAILED_ATTEMPTS <=? n)%Z
       | None => false
       end
    then
      let newLockoutTime := (now + LOCKOUT_DURATION)%Z in
      let! (_, w) := setItem h LOCKOUT_TIME_KEY (Doc (JNum newLockoutTime)) w in
      Throw (Err tooManyMessage) w
    else
      let remainingAttempts := option_map (fun n => MAX_FAILED_ATTEMPTS - n)%Z failedAttempts in
      Throw (Err (invalidPinMessage remainingAttempts)) w.

(* --------------------------------------------------------------------- *)
(** *** Saving *)

(** [new Date(record.timestamp) > cutoff]: a comparison of two time
    values, false as soon as one of them is [NaN]. *)
Definition laterThan (time cutoff : option Z) : bool :=
  match time, cutoff with
  | Some t, Some c => (c <? t)%Z
  | _, _ => false
  end.

(** [cutoff = new Date(); cutoff.setDate(cutoff.getDate() - MAX_DAYS)] *)
Definition cutoffDate (now : Z) : option Z :=
  setDate h now (getDate h now - MAX_DAYS).

Definition cleanOldRecords (fuel : nat) (w : World) : outcome unit :=
  try_catch
    (let! (records, w) := getRecords h fuel w in
     let cutoff := cutoffDate (clock w) in
     let filteredRecords :=
       List.filter (fun record => laterThan (Date_getTime h (prop "timestamp" record)) cutoff)
                   records in
     if (List.length filteredRecords =? List.length records)%nat then Return tt w
     else saveRecords h fuel (JArr filteredRecords) w)
    (fun _ w => Return tt w).

Definition duplicateTodayMessage (prefectNumber role : string) : string :=
  "A prefect with number " +:+ prefectNumber
  +:+ " has already registered for role " +:+ role +:+ " today.".

Definition newRecord (id prefectNumber role : string) (timestamp : Z) (date : string) : JSON :=
  JObj [("id", JStr id); ("prefectNumber", JStr prefectNumber); ("role", JStr role);
        ("timestamp", JStr (toISOString timestamp)); ("date", JStr date)].

(** [crypto.randomUUID()] *)
Definition draw (w : World) : string * World :=
  (Host.randomUUID h (drawn w),
   {| localStorage := localStorage w; clock := clock w; drawn := S (drawn w) |}).

Definition saveManualAttendance (fuel : nat) (prefectNumber role : string) (timestamp : Z)
  (w : World) : outcome JSON :=
  let date := Host.toLocaleDateString h timestamp in
  let! (duplicate, w) := checkDuplicateAttendance fuel prefectNumber role date w in
  if duplicate then Throw (Err (duplicateTodayMessage prefectNumber role)) w
  else
    let '(id, w) := draw w in
    let record := newRecord id prefectNumber role timestamp date in
    try_catch
      (let! (_, w) := addRecord h fuel record w in
       let! (_, w) := cleanOldRecords fuel w in
       Return record w)
      (fun _ w => Throw (Err "Failed to save attendance record. Please try again.") w).

Definition saveAttendance (fuel : nat) (prefectNumber role : string) (w : World)
  : outcome JSON :=
  saveManualAttendance fuel prefectNumber role (clock w) w.

(** [error instanceof Error ? error.message : 'Unknown error'] *)
Definition error_message (e : Error) : string :=
  match e with
  | Err message => message
  | QuotaExceededError => "QuotaExceededError"
  | SyntaxError => "SyntaxError"
  | TypeError => "TypeError"
  | RangeError => "Maximum call stack size exceeded"
  end.

(** The body of the [forEach] of [saveBulkAttendance], run over the
    entries in order. *)
Fixpoint saveBulkLoop (fuel : nat) (attendanceData : list (string * string)) (now : Z)
  (date : string) (acc : BulkResult) (w : World) : outcome BulkResult :=
  match attendanceData with
  | [] => Return acc w
  | (prefectNumber, role) :: rest =>
      let! (acc, w) :=
        try_catch
          (let! (duplicate, w) := checkDuplicateAttendance fuel prefectNumber role date w in
           if duplicate then
             Return {| success := success acc;
                       errors := errors acc ++
                         [(prefectNumber, role, "Already registered for " +:+ role +:+ " today")] |}
                    w
           else
             let! (record, w) := saveManualAttendance fuel prefectNumber role now w in
             Return {| success := success acc ++ [record]; errors := errors acc |} w)
          (fun error w =>
             Return {| success := success acc;
                       errors := errors acc ++ [(prefectNumber, role, error_message error)] |}
                    w) in
      saveBulkLoop fuel rest now date acc w
  end.

Definition saveBulkAttendance (fuel : nat) (attendanceData : list (string * string))
  (timestamp : option Z) (w : World) : outcome BulkResult :=
  let now := match timestamp with Some t => t | None => clock w end in
  let date := Host.toLocaleDateString h now in
  saveBulkLoop fuel attendanceData now date {| success := []; errors := [] |} w.

(* --------------------------------------------------------------------- *)
(** *** Updating and deleting *)

Definition duplicateOnMessage (prefectNumber role date : option JSON) : string :=
  "A prefect with number " +:+ ToString_opt prefectNumber
  +:+ " has already registered for role " +:+ ToString_opt role
  +:+ " on " +:+ ToString_opt date +:+ ".".

Definition updateAttendance (fuel : nat) (id : string) (updates : list (string * JSON))
  (w : World) : outcome JSON :=
  let! (records, w) := getRecords h fuel w in
  match List.find (hasId id) records with
  | None => Throw (Err "Record not found") w
  | Some existingRecord =>
      let checked : outcome unit :=
        (* Check for duplicates when updating prefect number or role *)
        if truthy_opt (assoc "prefectNumber" updates) || truthy_opt (assoc "role" updates)
        then
          let date := or_else (assoc "date" updates) (prop "date" existingRecord) in
          let prefectNumber :=
            or_else (assoc "prefectNumber" updates) (prop "prefectNumber" existingRecord) in
          let role := or_else (assoc "role" updates) (prop "role" existingRecord) in
          let hasDuplicate :=
            existsb (fun record => negb (hasId id record)
                                   && sameTriple prefectNumber role date record) records in
          if hasDuplicate then Throw (Err (duplicateOnMessage prefectNumber role date)) w
          else Return tt w
        else Return tt w in
      let! (_, w) := checked in
      try_catch
        (updateRecord h fuel id updates w)
        (fun _ w => Throw (Err "Failed to update attendance record. Please try again.") w)
  end.

Definition deleteAttendance (fuel : nat) (id : string) (w : World) : outcome unit :=
  try_catch
    (deleteRecord h fuel id w)
    (fun _ w => Throw (Err "Failed to delete attendance record. Please try again.") w).

(* --------------------------------------------------------------------- *)
(** *** Search and statistics *)

(** [record.prefectNumber.toLowerCase().includes(prefectNumber.toLowerCase())];
    [None] is the [TypeError] of a [prefectNumber] that is not a string. *)
Definition matchesQuery (prefectNumber : string) (record : JSON) : option bool :=
  match prop "prefectNumber" record with
  | Some (JStr s) => Some (includes (toLowerCase prefectNumber) (toLowerCase s))
  | _ => None
  end.

Fixpoint filter_try {A : Type} (p : A -> option bool) (l : list A) : option (list A) :=
  match l with
  | [] => Some []
  | x :: rest =>
      match p x with
      | None => None
      | Some b =>
          match filter_try p rest with
          | None => None
          | Some r => Some (if b then x :: r else r)
          end
      end
  end.

Definition searchPrefectRecords (fuel : nat) (prefectNumber : string) (w : World)
  : outcome (list JSON) :=
  let! (records, w) := getRecords h fuel w in
  match filter_try (matchesQuery prefectNumber) records with
  | None => Throw TypeError w
  | Some found => Return (Array_sort (byTimestampDesc h) found) w
  end.

(** The test written out in [getPrefectStats], [getDailyStats],
    [exportPrefectReport] and [exportAttendance]:
    [time.getHours() < 7 || (time.getHours() === 7 && time.getMinutes() === 0)]
    with [time = new Date(record.timestamp)]. On an Invalid Date both
    getters give [NaN] and the test is false. *)
Definition isOnTime (record : JSON) : bool :=
  match Date_getTime h (prop "timestamp" record) with
  | Some time =>
      (getHours h time <? 7)%Z || ((getHours h time =? 7)%Z && (getMinutes h time =? 0)%Z)
  | None => false
  end.

(** [counters[key]++] *)
Fixpoint bump (key : string) (counters : list (string * option Z))
  : list (string * option Z) :=
  match counters with
  | [] => [(key, None)]
  | (k, n) :: rest =>
      if String.eqb key k then (k, option_map (fun x => x + 1)%Z n) :: rest
      else (k, n) :: bump key rest
  end.

(** The counters a statistics loop keeps. *)
Record Tally : Type := {
  tallyOnTime : Z;
  tallyLate : Z;
  tallyRoles : list (string * option Z)
}.

(** The body of the [records.forEach] of [getPrefectStats] and of
    [getDailyStats]. *)
Definition tallyRecord (stats : Tally) (record : JSON) : Tally :=
  let stats :=
    if isOnTime record
    then {| tallyOnTime := tallyOnTime stats + 1; tallyLate := tallyLate stats;
            tallyRoles := tallyRoles stats |}
    else {| tallyOnTime := tallyOnTime stats; tallyLate := tallyLate stats + 1;
            tallyRoles := tallyRoles stats |} in
  {| tallyOnTime := tallyOnTime stats; tallyLate := tallyLate stats;
     tallyRoles := bump (ToString_opt (prop "role" record)) (tallyRoles stats) |}.

Definition tallyAll (records : list JSON) : Tally :=
  fold_left tallyRecord records
            {| tallyOnTime := 0; tallyLate := 0; tallyRoles := zeroRoles |}.

Definition getPrefectStats (fuel : nat) (prefectNumber : string) (w : World)
  : outcome PrefectStats :=
  let! (records, w) := searchPrefectRecords fuel prefectNumber w in
  let stats := tallyAll records in
  Return {| totalDays := List.length records;
            onTimeDays := tallyOnTime stats;
            lateDays := tallyLate stats;
            attendanceRate :=
              if (0 <? List.length records)%nat
              then ((tallyOnTime stats * 100)%Z, Z.of_nat (List.length records))
              else (0%Z, 1%Z);
            roles := tallyRoles stats;
            recentRecords := slice0 10 records |} w.

Definition getDailyStats (fuel : nat) (date : string) (w : World) : outcome DailyStats :=
  let! (all, w) := getRecords h fuel w in
  let records :=
    List.filter (fun r => strict_eq_opt (prop "date" r) (Some (JStr date))) all in
  let stats := tallyAll records in
  Return {| total := List.length records;
            onTime := tallyOnTime stats;
            late := tallyLate stats;
            byRole := tallyRoles stats |} w.

(* --------------------------------------------------------------------- *)
(** *** Report lines

    Of [exportPrefectReport] and [exportAttendance] the lines of the
    records are modelled, one per record; the header block above them
    only prints the statistics. *)

Definition statusOf (record : JSON) : string :=
  if isOnTime record then "On Time" else "Late".

Definition notesOf (record : JSON) : string :=
  if String.eqb (statusOf record) "Late" then
    let time := Date_getTime h (prop "timestamp" record) in
    "Arrived " +:+ show_number (option_map (fun t => getHours h t - 7)%Z time) +:+ "h "
    +:+ show_number (option_map (getMinutes h) time) +:+ "m late"
  else "Regular attendance".

Definition timeFormatted (record : JSON) : string :=
  match Date_getTime h (prop "timestamp" record) with
  | Some t => Host.toLocaleTimeString h t
  | None => "Invalid Date"
  end.

(** An element of [[...].join(',')]: [undefined] and [null] print as
    nothing. *)
Definition joined (v : option JSON) : string :=
  match v with
  | None | Some JNull => EmptyString
  | Some x => ToString x
  end.

Definition reportLine (first : string) (record : JSON) : string :=
  joined (prop first record) +:+ "," +:+ joined (prop "role" record) +:+ ","
  +:+ timeFormatted record +:+ "," +:+ statusOf record +:+ "," +:+ notesOf record.

(** The lines of [exportPrefectReport]: [Date,Role,Time,Status,Notes]. *)
Definition prefectReportLines (fuel : nat) (prefectNumber : string) (w : World)
  : outcome (list string) :=
  let! (records, w) := searchPrefectRecords fuel prefectNumber w in
  Return (List.map (reportLine "date") records) w.

(** The comparator of [exportAttendance], oldest first. *)
Definition byTimestampAsc (a b : JSON) : Z := byTimestampDesc h b a.

(** The lines of [exportAttendance]:
    [Prefect Number,Role,Time,Status,Notes]. *)
Definition dailyReportLines (fuel : nat) (date : string) (w : World)
  : outcome (list string) :=
  let! (all, w) := getRecords h fuel w in
  let records :=
    Array_sort byTimestampAsc
      (List.filter (fun r => strict_eq_opt (prop "date" r) (Some (JStr date))) all) in
  Return (List.map (reportLine "prefectNumber") records) w.

End WithHost.
End Attendance.

(* ===================================================================== *)
(** ** A browser to run on *)
(* ===================================================================== *)

(** A concrete host: the clock zone is UTC, the locale en-US, strings
    are collated by code unit, identifiers are numbered, and the keys of
    the store are listed in the order of the table that holds them. Its
    [localStorage] either takes everything ([roomy]) or holds at most
    [capacity] characters, keys and values together ([bounded]). *)
Module Browser.
Import JS.

Definition toLocaleDateString (t : Z) : string :=
  let '(y, m, d) := civil_from_days (t / msPerDay) in
  string_of_Z m +:+ "/" +:+ string_of_Z d +:+ "/" +:+ string_of_Z y.

Definition toLocaleTimeString (t : Z) : string :=
  let hours := (t / msPerHour mod 24)%Z in
  let h12 := if (hours mod 12 =? 0)%Z then 12%Z else (hours mod 12)%Z in
  dec 2 h12 +:+ ":" +:+ dec 2 (t / msPerMinute mod 60) +:+ " "
  +:+ (if (hours <? 12)%Z then "AM" else "PM").

Definition localeCompare (a b : string) : Z :=
  match String.compare a b with
  | Lt => (-1)%Z
  | Eq => 0%Z
  | Gt => 1%Z
  end.

Definition randomUUID (n : nat) : string :=
  "00000000-0000-4000-8000-" +:+ pad_left 12 (Storage.string_of_nat n).

Definition make (fits : gmap string text -> bool) : Host.t :=
  {| Host.fits := fits;
     Host.keysOf := fun ls => List.map fst (map_to_list ls);
     Host.keysOf_perm := fun ls => Permutation_refl _;
     Host.LocalTZA := fun _ _ => 0%Z;
     Host.toLocaleDateString := toLocaleDateString;
     Host.toLocaleTimeString := toLocaleTimeString;
     Host.Date_parse := parseISO;
     Host.localeCompare := localeCompare;
     Host.randomUUID := randomUUID |}.

Definition roomy : Host.t := make (fun _ => true).

Definition bounded (capacity : Z) : Host.t :=
  make (fun ls => (Storage.usedSpace ls <=? capacity)%Z).

(** An empty origin at the given instant. *)
Definition fresh (now : Z) : World :=
  {| localStorage := ∅; clock := now; drawn := 0 |}.

End Browser.

Arguments Storage.checkStorageQuota : simpl never.
Arguments Storage.testData : simpl never.

(* ===================================================================== *)
(** ** Notions the properties are stated with *)
(* ===================================================================== *)

Module Props.
Import JS Storage Storage.STORAGE_KEYS Attendance.

(** The live record set: what [getRecords] reads out of the stored
    payload when it can be read. *)
Definition liveOf (data : option text) : list JSON :=
  match data with
  | Some (Doc (JArr records)) => List.filter validRecord records
  | _ => []
  end.

Definition live (w : World) : list JSON :=
  liveOf (localStorage w !! ATTENDANCE_RECORDS).

(** The stored payload is missing, empty or a JSON document. *)
Definition readable (data : option text) : Prop :=
  match data with
  | Some (Plain s) => s = EmptyString
  | _ => True
  end.

(** What holds of the result and of the world when a run ends, by
    return or by throw. *)
Definition ensures {A : Type} (R : A -> World -> Prop) (E : World -> Prop)
  (o : outcome A) : Prop :=
  match o with
  | Return a w => R a w
  | Throw _ w => E w
  end.

(** What a run hands back when it returns. *)
Definition returned {A : Type} (o : outcome A) : option A :=
  match o with
  | Return a _ => Some a
  | _ => None
  end.

(** The live set a run ends with. *)
Definition live_after {A : Type} (o : outcome A) : option (list JSON) :=
  option_map live (final o).

(** The dedup key of a record. *)
Definition triple (r : JSON) : option JSON * option JSON * option JSON :=
  (prop "prefectNumber" r, prop "role" r, prop "date" r).

(** The three components are strings, as [AttendanceRecord] declares. *)
Definition typedRecord (r : JSON) : Prop :=
  exists p ro d, triple r = (Some (JStr p), Some (JStr ro), Some (JStr d)).

(** Uniqueness invariant: no two records at distinct places carry the
    same triple. *)
Definition uniqueTriples (l : list JSON) : Prop := List.NoDup (List.map triple l).

Definition cleanRecords (l : list JSON) : Prop :=
  Forall typedRecord l /\ uniqueTriples l.

(** What [saveRecords] may be handed without harm to the invariant. *)
Definition cleanArgument (records : JSON) : Prop :=
  match records with
  | JArr items => cleanRecords (List.filter validRecord items)
  | _ => True
  end.

(** A stored backup holds clean records. *)
Definition cleanBackup (t : text) : Prop :=
  match JSON_parse t with
  | Some data =>
      match prop "records" data with
      | Some records => cleanArgument records
      | None => True
      end
  | None => True
  end.

Definition cleanEntry (key : string) (t : text) : Prop :=
  (key = ATTENDANCE_RECORDS -> readable (Some t) /\ cleanRecords (liveOf (Some t)))
  /\ (isBackupKey key = true -> cleanBackup t).

(** The store invariant: the record payload can be read and holds clean
    records, and so does every backup that recovery may restore. *)
Definition sound (w : World) : Prop := map_Forall cleanEntry (localStorage w).

Definition keeps_sound {A : Type} (o : outcome A) : Prop :=
  ensures (fun _ w => sound w) sound o.

(** *** The operations of the domain, as steps of a run *)

(** The clock moves between operations. *)
Definition at_time (now : Z) (w : World) : World :=
  {| localStorage := localStorage w; clock := now; drawn := drawn w |}.

Inductive operation : Type :=
| Save (prefectNumber role : string) (timestamp : Z)
| SaveBulk (attendanceData : list (string * string)) (timestamp : option Z)
| Update (id : string) (updates : list (string * JSON))
| Delete (id : string)
| Restore (backupString : text)
| Backup.

Definition run (h : Host.t) (fuel : nat) (op : operation) (w : World) : option World :=
  match op with
  | Save prefectNumber role timestamp =>
      final (saveManualAttendance h fuel prefectNumber role timestamp w)
  | SaveBulk attendanceData timestamp =>
      final (saveBulkAttendance h fuel attendanceData timestamp w)
  | Update id updates => final (updateAttendance h fuel id updates w)
  | Delete id => final (deleteAttendance h fuel id w)
  | Restore backupString => final (Storage.restoreFromBackup h fuel backupString w)
  | Backup => final (Storage.createManualBackup h fuel w)
  end.

Definition stringOrAbsent (v : option JSON) : Prop :=
  v = None \/ exists s, v = Some (JStr s).

(** The updates whose stored triple is the one [updateAttendance]
    checks: the check runs (the update sets [prefectNumber] or [role]),
    it is made on what the merge stores (what the update sets of the
    triple is a string, and a [date] it sets is not empty), and it
    looks at every other record (no other one has the [id]). *)
Definition validatedUpdate (id : string) (updates : list (string * JSON)) (w : World)
  : Prop :=
  truthy_opt (assoc "prefectNumber" updates) || truthy_opt (assoc "role" updates) = true
  /\ stringOrAbsent (assoc "prefectNumber" updates)
  /\ stringOrAbsent (assoc "role" updates)
  /\ (assoc "date" updates = None
      \/ exists s, s <> EmptyString /\ assoc "date" updates = Some (JStr s))
  /\ (List.length (List.filter (hasId id) (live w)) <= 1)%nat.

(** The operations under which the invariant is kept: an update is a
    validated one, and a restored backup holds clean records. *)
Definition permitted (op : operation) (w : World) : Prop :=
  match op with
  | Update id updates => validatedUpdate id updates w
  | Restore backupString => cleanBackup backupString
  | _ => True
  end.

(** The worlds a run of operations leads to, from [w0], when every
    operation is one that [allowed] lets through. *)
Inductive reachable (h : Host.t) (allowed : operation -> World -> Prop) (w0 : World)
  : World -> Prop :=
| reach_start : reachable h allowed w0 w0
| reach_step (w w' : World) (op : operation) (fuel : nat) (now : Z) :
    reachable h allowed w0 w ->
    allowed op (at_time now w) ->
    run h fuel op (at_time now w) = Some w' ->
    reachable h allowed w0 w'.

Definition any (op : operation) (w : World) : Prop := True.

(** *** The admin lockout, as the spec names its parts *)

Definition failedAttempts (w : World) : option Z := storedNumber FAILED_ATTEMPTS_KEY w.
Definition lockoutUntil (w : World) : option Z := storedNumber LOCKOUT_TIME_KEY w.

(** [LockedOut]: either of the two lockout messages. *)
Definition LockedOut (e : Error) : Prop :=
  (exists remainingMinutes, e = Err (lockedMessage remainingMinutes))
  \/ e = Err tooManyMessage.

(** [InvalidPin(remainingAttempts)]. *)
Definition InvalidPin (remainingAttempts : Z) (e : Error) : Prop :=
  e = Err (invalidPinMessage (Some remainingAttempts)).

(** The browser takes every write. *)
Definition accepting (h : Host.t) : Prop := forall ls, Host.fits h ls = true.

(** A run of attempts, each at its own time. *)
Fixpoint attempts (h : Host.t) (tries : list (Z * string)) (w : World) : World :=
  match tries with
  | [] => w
  | (now, pin) :: rest =>
      match final (checkAdminAccess h pin (at_time now w)) with
      | Some w' => attempts h rest w'
      | None => w
      end
  end.

Definition wrongAt (t0 : Z) (try : Z * string) : Prop :=
  snd try <> ADMIN_PIN /\ (t0 <= fst try)%Z.

(** *** Fingerprints *)

(** The [id] of a record, when it is a string. *)
Definition idOf (r : JSON) : option string :=
  match prop "id" r with
  | Some (JStr s) => Some s
  | _ => None
  end.

Definition idsOf (l : list JSON) : list string :=
  flat_map (fun r => match idOf r with Some s => [s] | None => [] end) l.

(** On these strings the collation is a total order that tells any two
    of them apart. The order is read as the sort reads it: [a] may
    stand before [b] when the collation does not send [b] before [a]
    ([b.localeCompare(a)] is not negative). *)
Definition collatesStrictly (cmp : string -> string -> Z) (ids : list string) : Prop :=
  (forall a b, In a ids -> In b ids -> (0 <= cmp b a)%Z -> (0 <= cmp a b)%Z -> a = b)
  /\ (forall a b, In a ids -> In b ids -> (0 <= cmp b a)%Z \/ (0 <= cmp a b)%Z)
  /\ (forall a b c, In a ids -> In b ids -> In c ids ->
                    (0 <= cmp b a)%Z -> (0 <= cmp c b)%Z -> (0 <= cmp c a)%Z).

(** The order [generateDataHash] sorts by, on records with string ids. *)
Definition idOrder (h : Host.t) (a b : JSON) : Z :=
  match idOf a, idOf b with
  | Some s, Some t => Host.localeCompare h s t
  | _, _ => 0%Z
  end.

Fixpoint sortedBy {A : Type} (R : A -> A -> Prop) (l : list A) : Prop :=
  match l with
  | [] => True
  | x :: rest => List.Forall (R x) rest /\ sortedBy R rest
  end.

(** *** Search *)

(** [record.prefectNumber] is a string, as [AttendanceRecord] types it:
    [toLowerCase] can be called on it. *)
Definition numbered (r : JSON) : Prop :=
  exists p, prop "prefectNumber" r = Some (JStr p).

(** The test of [searchPrefectRecords] where it does not throw. *)
Definition selected (q : string) (r : JSON) : bool :=
  match matchesQuery q r with
  | Some true => true
  | _ => false
  end.

(** [q] occurs in [s]. *)
Definition substring_of (q s : string) : Prop :=
  exists a b, s = a +:+ q +:+ b.

(** [new Date(record.timestamp)] is a valid date. *)
Definition timed (h : Host.t) (r : JSON) : Prop :=
  exists t, Date_getTime h (prop "timestamp" r) = Some t.

(** [a] is not older than [b]. *)
Definition notOlder (h : Host.t) (a b : JSON) : Prop :=
  exists ta tb,
    Date_getTime h (prop "timestamp" a) = Some ta
    /\ Date_getTime h (prop "timestamp" b) = Some tb
    /\ (tb <= ta)%Z.

(** *** When a save goes through *)

(** The browser takes the writes, the stored payload can be read and
    holds at most 1000 live records (eviction has nothing to do), and
    the list to save is within the size limit and all its ids are
    strings (it can be fingerprinted). *)
Definition savable (h : Host.t) (w : World) (items : list JSON) : Prop :=
  accepting h
  /\ readable (localStorage w !! ATTENDANCE_RECORDS)
  /\ (List.length (live w) <=? 1000)%nat = true
  /\ (Z.of_nat (text_length (Doc (JArr items))) <=? MAX_STORAGE_SIZE)%Z = true
  /\ List.Forall (fun r => idOf r <> None) items.

(** A live record with this number, role and date. *)
Definition registered (prefectNumber role date : string) (l : list JSON) : Prop :=
  exists r, In r l
            /\ prop "prefectNumber" r = Some (JStr prefectNumber)
            /\ prop "role" r = Some (JStr role)
            /\ prop "date" r = Some (JStr date).

(** *** Statistics *)

(** The records of one day, as [getDailyStats] and [exportAttendance]
    select them. *)
Definition ofDate (date : string) (l : list JSON) : list JSON :=
  List.filter (fun r => strict_eq_opt (prop "date" r) (Some (JStr date))) l.

(** How many records carry the role [role]. *)
Definition withRole (role : string) (l : list JSON) : nat :=
  List.length (List.filter (fun r => String.eqb role (ToString_opt (prop "role" r))) l).

(** *** Letter case, as the spec means it *)

(** A capital letter among the code units below 256: [A] to [Z] and the
    accented capitals from 192 to 222, the multiplication sign (215)
    apart. Its small letter is 32 code units above. *)
Definition capital (c : ascii) : bool :=
  let n := N_of_ascii c in
  ((65 <=? n) && (n <=? 90) || (192 <=? n) && (n <=? 222) && negb (n =? 215))%N.

Definition small_of (c : ascii) : ascii := ascii_of_N (N_of_ascii c + 32).

(** The same character, letter case apart. *)
Definition sameLetter (c d : ascii) : Prop :=
  c = d \/ (capital c = true /\ d = small_of c) \/ (capital d = true /\ c = small_of d).

(** The same text, letter case apart. *)
Fixpoint caseless (a b : string) : Prop :=
  match a, b with
  | EmptyString, EmptyString => True
  | String c a', String d b' => sameLetter c d /\ caseless a' b'
  | _, _ => False
  end.

(** [q] occurs in [s], letter case apart. *)
Definition occurs_caseless (q s : string) : Prop :=
  exists a m b, s = a +:+ m +:+ b /\ caseless m q.

(** *** Backups *)


End Props.

(* ===================================================================== *)
(** ** Sample data *)
(* ===================================================================== *)

Module Examples.
Import JS Storage Attendance Props.

(** 2024-03-04T07:00:01.000Z *)
Definition monday : Z := 1709535601000.

Definition record (id prefectNumber role : string) (timestamp : Z) : JSON :=
  newRecord id prefectNumber role timestamp (Browser.toLocaleDateString timestamp).

Definition backupOf (records : list JSON) : text :=
  Doc (backupData monday records [("type", JStr "manual")]).

(** Two records of the same prefect, role and day. *)
Definition twin1 : JSON := record "a1" "42" "Senior" monday.
Definition twin2 : JSON := record "b2" "42" "Senior" (monday + 60000).

(** The same prefect and role on two days. *)
Definition day1 : JSON := record "a1" "42" "Senior" monday.
Definition day2 : JSON := record "b2" "42" "Senior" (monday + msPerDay).

Definition world_of (o : option World) : World :=
  match o with
  | Some w => w
  | None => Browser.fresh 0
  end.

(** An empty origin in which the backup of [day1] and [day2] has been
    restored. *)
Definition twoDays : World :=
  world_of (run Browser.roomy 5 (Restore (backupOf [day1; day2])) (Browser.fresh monday)).

(** *** A store under quota pressure *)

(** [n] records, newest first, with ascending ids. *)
Fixpoint recordsFrom (i n : nat) : list JSON :=
  match n with
  | O => []
  | S k =>
      record ("r" +:+ pad_left 4 (Storage.string_of_nat i))
             ("p" +:+ pad_left 4 (Storage.string_of_nat i)) "Head"
             (monday - Z.of_nat i * 60000)%Z
      :: recordsFrom (S i) k
  end.

Definition records1200 : list JSON := recordsFrom 0 1200.

(** Filler text of [n] characters, standing for an old, large backup. *)
Definition filler (n : nat) : text := Plain (Storage.repeat_char "x"%char n).

(** 1200 live records and nothing else. *)
Definition crowdedStore : gmap string text :=
  <[Storage.STORAGE_KEYS.ATTENDANCE_RECORDS := Doc (JArr records1200)]> ∅.

(** The browser leaves 7500 characters free: usage is at 95%. *)
Definition crowdedHost : Host.t :=
  Browser.bounded (Storage.usedSpace crowdedStore + 7500).

Definition crowded : World :=
  {| localStorage := crowdedStore; clock := monday; drawn := 0 |}.

(** 1200 live records and six backups, the oldest of them large. *)
Definition backedUpStore : gmap string text :=
  <["attendance_backup_1" := filler 20000]>
  (<["attendance_backup_2" := Doc (JObj [])]>
  (<["attendance_backup_3" := Doc (JObj [])]>
  (<["attendance_backup_4" := Doc (JObj [])]>
  (<["attendance_backup_5" := Doc (JObj [])]>
  (<["attendance_backup_6" := Doc (JObj [])]> crowdedStore))))).

Definition backedUpHost : Host.t :=
  Browser.bounded (Storage.usedSpace backedUpStore + 7500).

Definition backedUp : World :=
  {| localStorage := backedUpStore; clock := monday; drawn := 0 |}.

(** *** A browser with no room left *)

(** The quota of the origin is used up by what [twoDays] holds: the
    browser refuses every write that makes the store larger. *)
Definition fullHost : Host.t :=
  Browser.bounded (Storage.usedSpace (localStorage twoDays)).

(** *** A store whose record payload is not JSON *)


(** *** Records around seven o'clock (UTC) *)

(** 2024-03-04T07:00:00.000Z *)
Definition seven : Z := 1709535600000.
Definition atSeven : JSON := record "s0" "7" "Head" seven.
Definition beforeSeven : JSON := record "s1" "8" "Head" (seven - 1000).
Definition secondPastSeven : JSON := record "s2" "9" "Head" (seven + 1000).
Definition minutePastSeven : JSON := record "s3" "10" "Head" (seven + 60000).

(** An empty origin in which these four have been restored. *)
Definition aroundSeven : World :=
  world_of (run Browser.roomy 5
                (Restore (backupOf [atSeven; beforeSeven; secondPastSeven; minutePastSeven]))
                (Browser.fresh monday)).

(** *** Two records with one id *)

Definition sameId1 : JSON := record "a1" "42" "Senior" monday.
Definition sameId2 : JSON := record "a1" "43" "Junior" monday.

(** *** Prefects whose numbers overlap *)

Definition prefect42 : JSON := record "a1" "42" "Senior" monday.
Definition prefect420 : JSON := record "b2" "420" "Junior" (monday + 60000).
Definition prefect7 : JSON := record "c3" "7" "Head" (monday + 120000).

Definition threePrefects : World :=
  world_of (run Browser.roomy 5 (Restore (backupOf [prefect42; prefect420; prefect7]))
                (Browser.fresh monday)).

(** *** A store whose fingerprint is stale *)


(** *** A first start *)

(** An empty browser after [Storage.initializeStorage]. *)
Definition installed : World :=
  world_of
    (final (Storage.initializeStorage Browser.roomy 4 (Browser.fresh monday))).

(** *** A number stored as a number *)

Definition numeric42 : JSON :=
  JObj [("id", JStr "n1"); ("prefectNumber", JNum 42); ("role", JStr "Senior");
        ("timestamp", JStr (toISOString monday)); ("date", JStr "3/4/2024")].

Definition withNumeric : World :=
  world_of
    (run Browser.roomy 5 (Restore (backupOf [day1; numeric42]))
         (Browser.fresh monday)).

(** *** Numbers that differ in letter case *)

Definition prefectA42 : JSON := record "a1" "A42" "Senior" monday.
Definition prefecta420 : JSON := record "b2" "a420" "Junior" (monday + 60000).

Definition mixedCase : World :=
  world_of (run Browser.roomy 5 (Restore (backupOf [prefectA42; prefecta420; prefect7]))
                (Browser.fresh monday)).

End Examples.

(* ===================================================================== *)
(** ** Lemmas on the host language *)
(* ===================================================================== *)

Import JS Storage Storage.STORAGE_KEYS Attendance Props.
Local Close Scope string_scope.

Lemma string_eqb_refl (s : string) : String.eqb s s = true.
Proof. apply String.eqb_refl. Qed.

Lemma ensures_bind {A B : Type} (R : A -> World -> Prop) (R' : B -> World -> Prop)
  (E : World -> Prop) (m : outcome A) (k : A -> World -> outcome B) :
  ensures R E m ->
  (forall a w, R a w -> ensures R' E (k a w)) ->
  ensures R' E (bind m k).
Proof. destruct m; simpl; auto. Qed.

Lemma ensures_try_catch {A : Type} (R : A -> World -> Prop) (E E' : World -> Prop)
  (m : outcome A) (handler : Error -> World -> outcome A) :
  ensures R E m ->
  (forall e w, E w -> ensures R E' (handler e w)) ->
  ensures R E' (try_catch m handler).
Proof. destruct m; simpl; auto. Qed.

Lemma ensures_weaken {A : Type} (R R' : A -> World -> Prop) (E E' : World -> Prop)
  (o : outcome A) :
  ensures R E o ->
  (forall a w, R a w -> R' a w) ->
  (forall w, E w -> E' w) ->
  ensures R' E' o.
Proof. destruct o; simpl; auto. Qed.

(** *** Sorting *)

Lemma sort_insert_perm {A : Type} (cmp : A -> A -> Z) (x : A) (l : list A) :
  Permutation (sort_insert cmp x l) (x :: l).
Proof.
  induction l as [|y l IH]; simpl; [reflexivity|].
  destruct (cmp x y <? 0)%Z; [|reflexivity].
  rewrite IH. apply perm_swap.
Qed.

(** The part sorted so far, after the elements of [l]. *)
Lemma Array_sort_snoc {A : Type} (cmp : A -> A -> Z) (l : list A) (x : A) :
  Array_sort cmp (l ++ [x]) = rev (sort_insert cmp x (rev (Array_sort cmp l))).
Proof.
  unfold Array_sort. now rewrite fold_left_app, rev_involutive.
Qed.

Lemma Array_sort_perm {A : Type} (cmp : A -> A -> Z) (l : list A) :
  Permutation (Array_sort cmp l) l.
Proof.
  induction l as [|x l IH] using rev_ind; [reflexivity|].
  rewrite Array_sort_snoc, <- Permutation_rev, sort_insert_perm, <- Permutation_rev, IH.
  apply Permutation_cons_append.
Qed.

(* ===================================================================== *)
(** ** Lemmas on [storage.ts] *)
(* ===================================================================== *)

Section StorageLemmas.
Variable h : Host.t.

Lemma prefix_append (p s : string) : String.prefix p (p +:+ s) = true.
Proof.
  induction p as [|c p IH]; simpl; [now destruct s|].
  destruct (ascii_dec c c); [exact IH | congruence].
Qed.

Lemma probe_key_not_records (i : nat) :
  testKey +:+ string_of_nat i <> ATTENDANCE_RECORDS.
Proof. unfold testKey, ATTENDANCE_RECORDS. simpl. discriminate. Qed.

Lemma probe_key_not_backup (i : nat) :
  isBackupKey (testKey +:+ string_of_nat i) = false.
Proof. reflexivity. Qed.

Lemma records_key_not_backup : isBackupKey ATTENDANCE_RECORDS = false.
Proof. reflexivity. Qed.

Lemma sound_with_storage (w : World) (ls : gmap string text) :
  sound (with_storage w ls) <-> map_Forall cleanEntry ls.
Proof. reflexivity. Qed.

Lemma sound_live (w : World) : sound w -> cleanRecords (live w).
Proof.
  intros Hs. unfold live.
  destruct (localStorage w !! ATTENDANCE_RECORDS) as [t|] eqn:E.
  - destruct (Hs _ _ E) as [H1 _]. exact (proj2 (H1 eq_refl)).
  - split; constructor.
Qed.

Lemma sound_readable (w : World) : sound w -> readable (localStorage w !! ATTENDANCE_RECORDS).
Proof.
  intros Hs.
  destruct (localStorage w !! ATTENDANCE_RECORDS) as [t|] eqn:E; [|exact I].
  destruct (Hs _ _ E) as [H1 _]. exact (proj1 (H1 eq_refl)).
Qed.

Lemma setItem_sound (k : string) (v : text) (w : World) :
  sound w -> cleanEntry k v -> keeps_sound (setItem h k v w).
Proof.
  intros Hs Hv. unfold keeps_sound, setItem.
  destruct (Host.fits h _); simpl; [|exact Hs].
  now apply map_Forall_insert_2.
Qed.

Lemma removeItem_sound (k : string) (w : World) : sound w -> sound (removeItem k w).
Proof. intros Hs. now apply map_Forall_delete. Qed.

Lemma probe_sound (n i : nat) (ls : gmap string text) (avail : Z) :
  map_Forall cleanEntry ls -> map_Forall cleanEntry (fst (probe h n i ls avail)).
Proof.
  revert i ls avail. induction n as [|n IH]; intros i ls avail Hs; cbn [probe]; [exact Hs|].
  destruct (Host.fits h _); [|exact Hs].
  apply IH. apply map_Forall_insert_2; [|exact Hs].
  split.
  - intros E. now apply probe_key_not_records in E.
  - rewrite probe_key_not_backup. discriminate.
Qed.

Lemma unprobe_sound (n i : nat) (ls : gmap string text) :
  map_Forall cleanEntry ls -> map_Forall cleanEntry (unprobe n i ls).
Proof.
  revert i ls. induction n as [|n IH]; intros i ls Hs; cbn [unprobe]; [exact Hs|].
  apply IH. now apply map_Forall_delete.
Qed.

Lemma checkStorageQuota_sound (w : World) :
  sound w -> sound (snd (checkStorageQuota h w)).
Proof.
  intros Hs. unfold checkStorageQuota.
  pose proof (probe_sound 1024 0 (localStorage w) 0 Hs) as Hp.
  destruct (probe h 1024 0 (localStorage w) 0) as [ls avail]. cbn [fst snd] in *.
  now apply unprobe_sound.
Qed.

Lemma cleanOldBackups_sound (w : World) : sound w -> sound (cleanOldBackups h w).
Proof.
  unfold cleanOldBackups. generalize (slice_from 5 (sortedBackups h w)).
  intros l. revert w. induction l as [|b l IH]; intros w Hs; simpl; [exact Hs|].
  apply IH. now apply removeItem_sound.
Qed.

(** In a readable store [getRecords] only reads. *)
Lemma getRecords_readable (fuel : nat) (w : World) :
  readable (localStorage w !! ATTENDANCE_RECORDS) ->
  getRecords h (S fuel) w = Return (live w) w.
Proof.
  intros Hr. unfold live. cbn [getRecords]. unfold getItem.
  destruct (localStorage w !! ATTENDANCE_RECORDS) as [[s|v]|]; cbn in *.
  - subst s. reflexivity.
  - destruct v; reflexivity.
  - reflexivity.
Qed.

End StorageLemmas.

(** *** Clean record lists *)

Lemma cleanRecords_nil : cleanRecords [].
Proof. split; constructor. Qed.

Lemma cleanRecords_cons_inv (r : JSON) (l : list JSON) :
  cleanRecords (r :: l) -> cleanRecords l.
Proof.
  intros [Ht Hu]. split.
  - now inversion Ht.
  - unfold uniqueTriples in *. simpl in Hu. now inversion Hu.
Qed.

Lemma cleanRecords_filter (p : JSON -> bool) (l : list JSON) :
  cleanRecords l -> cleanRecords (List.filter p l).
Proof.
  induction l as [|r l IH]; intros Hc; simpl; [exact Hc|].
  pose proof (IH (cleanRecords_cons_inv _ _ Hc)) as [Ht Hu].
  destruct (p r); [|now split].
  destruct Hc as [Ht' Hu']. split.
  - constructor; [now inversion Ht'|exact Ht].
  - unfold uniqueTriples in *. simpl in *. inversion Hu' as [|? ? Hn Hd]; subst.
    constructor; [|exact Hu].
    intros Hin. apply Hn. apply in_map_iff in Hin as (x & Hx & Hin).
    apply in_map_iff. exists x. split; [exact Hx|]. now apply filter_In in Hin.
Qed.

Lemma cleanRecords_firstn (n : nat) (l : list JSON) :
  cleanRecords l -> cleanRecords (firstn n l).
Proof.
  revert l. induction n as [|n IH]; intros l Hc; simpl; [apply cleanRecords_nil|].
  destruct l as [|r l]; [exact Hc|].
  pose proof (IH l (cleanRecords_cons_inv _ _ Hc)) as [Ht Hu].
  destruct Hc as [Ht' Hu']. split.
  - constructor; [now inversion Ht'|exact Ht].
  - unfold uniqueTriples in *. simpl in *. inversion Hu' as [|? ? Hn Hd]; subst.
    constructor; [|exact Hu].
    intros Hin. apply Hn. apply in_map_iff in Hin as (x & Hx & Hin).
    apply in_map_iff. exists x. split; [exact Hx|]. rewrite <- (firstn_skipn n l). apply in_or_app. now left.
Qed.

Lemma cleanRecords_perm (l l' : list JSON) :
  Permutation l l' -> cleanRecords l -> cleanRecords l'.
Proof.
  intros Hp [Ht Hu]. split.
  - now rewrite <- Hp.
  - unfold uniqueTriples in *. eapply Permutation_NoDup; [|exact Hu].
    now apply Permutation_map.
Qed.

Section StorageLemmas2.
Variable h : Host.t.

Lemma getRecords_sound (fuel : nat) (w : World) :
  sound w ->
  ensures (fun records w' => records = live w /\ w' = w) (fun w' => w' = w)
          (getRecords h fuel w).
Proof.
  intros Hs. destruct fuel as [|fuel]; [reflexivity|].
  rewrite getRecords_readable by now apply sound_readable. now split.
Qed.

Lemma In_sortedBackups (w : World) (b : string * option Z) :
  In b (sortedBackups h w) -> isBackupKey (fst b) = true.
Proof.
  unfold sortedBackups. intros Hin.
  apply (Permutation_in _ (Array_sort_perm _ _)) in Hin.
  apply in_map_iff in Hin as (key & <- & Hin).
  now apply filter_In in Hin.
Qed.

Lemma getLatestBackup_clean (w : World) (records : JSON) :
  sound w -> getLatestBackup h w = Some records -> cleanArgument records.
Proof.
  intros Hs. unfold getLatestBackup.
  destruct (sortedBackups h w) as [|b rest] eqn:Eb; [discriminate|].
  assert (Hk : isBackupKey (fst b) = true).
  { apply (In_sortedBackups w). rewrite Eb. now left. }
  unfold getItem.
  destruct (localStorage w !! fst b) as [t|] eqn:Et.
  - destruct (Hs _ _ Et) as [_ Hb]. specialize (Hb Hk). unfold cleanBackup in Hb.
    destruct (text_empty t).
    + cbn. intros [= <-]. apply cleanRecords_nil.
    + destruct (JSON_parse t) as [data|]; [|discriminate].
      destruct data; try discriminate;
        cbn [prop]; try (intros [= <-]; apply cleanRecords_nil).
      cbn [prop] in Hb. destruct (assoc "records" props) as [r|].
      * destruct (truthy r); intros [= <-]; [exact Hb|apply cleanRecords_nil].
      * intros [= <-]. apply cleanRecords_nil.
  - cbn. intros [= <-]. apply cleanRecords_nil.
Qed.

Lemma web_sound (fuel : nat) :
  (forall e w, sound w -> keeps_sound (handleStorageError h fuel e w)) /\
  (forall w, sound w -> keeps_sound (attemptDataRecovery h fuel w)) /\
  (forall w, sound w -> keeps_sound (handleQuotaExceeded h fuel w)) /\
  (forall records w, cleanArgument records -> sound w ->
                     keeps_sound (saveRecords h fuel records w)) /\
  (forall w, sound w -> keeps_sound (updateBackupMetadata h fuel w)).
Proof.
  induction fuel as [|fuel (IHe & IHr & IHq & IHs & IHm)].
  { split; [|split; [|split; [|split]]]; intros; assumption. }
  assert (Hget : forall w, sound w ->
            ensures (fun records w' => records = live w /\ w' = w) sound (getRecords h fuel w)).
  { intros w Hw. eapply ensures_weaken; [now apply getRecords_sound| |]; simpl; [tauto|].
    now intros w' ->. }
  repeat split.
  - (* handleStorageError *)
    intros e w Hw. cbn [handleStorageError].
    destruct e; try (eapply ensures_bind; [now apply IHr|]; intros a w' Hw'; exact Hw').
    now apply IHq.
  - (* attemptDataRecovery *)
    intros w Hw. cbn [attemptDataRecovery].
    eapply ensures_try_catch with (E := sound); [|intros e w' Hw'; exact Hw'].
    destruct (getLatestBackup h w) as [records|] eqn:Eb.
    + eapply ensures_bind; [apply IHs; [eapply getLatestBackup_clean; eauto|exact Hw]|].
      intros a w' Hw'; exact Hw'.
    + eapply ensures_bind; [now apply Hget|].
      intros records w' [-> ->].
      eapply ensures_bind with (R := fun _ w => sound w); [|intros a w' Hw'; exact Hw'].
      destruct (_ =? _)%nat; [exact Hw|].
      apply IHs; [|exact Hw]. cbn.
      apply cleanRecords_filter, cleanRecords_filter. now apply sound_live.
  - (* handleQuotaExceeded *)
    intros w Hw. cbn [handleQuotaExceeded].
    eapply ensures_try_catch with (E := sound); [|intros e w' Hw'; exact Hw'].
    pose proof (cleanOldBackups_sound h w Hw) as Hc.
    eapply ensures_bind; [now apply Hget|].
    intros records w' [-> ->].
    eapply ensures_bind with (R := fun _ w => sound w).
    + destruct (_ <? _)%nat; [|exact Hc].
      apply IHs; [|exact Hc]. cbn.
      apply cleanRecords_filter. unfold slice0. apply cleanRecords_firstn.
      eapply cleanRecords_perm; [symmetry; apply Array_sort_perm|].
      now apply sound_live.
    + intros a w' Hw'. apply setItem_sound; [exact Hw'|].
      split; [discriminate|]. discriminate.
  - (* saveRecords *)
    intros records w Hr Hw. cbn [saveRecords].
    eapply ensures_try_catch with (E := sound).
    2:{ intros e w' Hw'. eapply ensures_bind; [now apply IHe|]. intros a w'' Hw''. exact Hw''. }
    destruct records; try exact Hw.
    pose proof (checkStorageQuota_sound h w Hw) as Hq.
    destruct (checkStorageQuota h w) as [quota w1]. cbn [snd] in Hq.
    eapply ensures_bind with (R := fun _ w => sound w).
    { destruct (percentage_over 90 quota); [now apply IHq|exact Hq]. }
    intros _ w2 Hw2.
    destruct (_ <? _)%Z; [exact Hw2|].
    eapply ensures_bind with (R := fun _ w => sound w).
    { apply setItem_sound; [exact Hw2|]. split; [|discriminate].
      intros _. split; [exact I|exact Hr]. }
    intros _ w3 Hw3.
    destruct (generateDataHash h items); [|exact Hw3].
    eapply ensures_bind with (R := fun _ w => sound w).
    { apply setItem_sound; [exact Hw3|]. split; discriminate. }
    intros _ w4 Hw4. now apply IHm.
  - (* updateBackupMetadata *)
    intros w Hw. cbn [updateBackupMetadata].
    eapply ensures_try_catch with (E := sound); [|intros e w' Hw'; exact Hw'].
    eapply ensures_bind; [now apply Hget|].
    intros records w' [-> ->].
    apply setItem_sound; [exact Hw|].
    split; [discriminate|]. intros _. exact I.
Qed.

End StorageLemmas2.

(** *** Object spread *)

Lemma assoc_app {A : Type} (k : string) (a b : list (string * A)) :
  assoc k (a ++ b) = match assoc k a with Some v => Some v | None => assoc k b end.
Proof.
  induction a as [|[k' v] a IH]; simpl; [reflexivity|].
  destruct (String.eqb k k'); [reflexivity|exact IH].
Qed.

Lemma assoc_fresh_props (u : list (string * JSON)) (seen : list string) (k : string) :
  assoc k (fresh_props seen u)
  = if existsb (String.eqb k) seen then None else assoc k u.
Proof.
  revert seen. induction u as [|[k' v] u IH]; intros seen; simpl.
  { now destruct (existsb _ seen). }
  destruct (existsb (String.eqb k') seen) eqn:Es.
  - rewrite IH. destruct (existsb (String.eqb k) seen) eqn:Ek; [reflexivity|].
    destruct (String.eqb_spec k k') as [->|]; [congruence|reflexivity].
  - simpl. rewrite IH. simpl.
    destruct (String.eqb_spec k k') as [->|]; [now rewrite Es|reflexivity].
Qed.

Lemma assoc_overridden (u o : list (string * JSON)) (k : string) :
  assoc k (List.map (fun kv => match assoc (fst kv) u with
                               | Some v' => (fst kv, v')
                               | None => kv
                               end) o)
  = match assoc k o with
    | Some v => Some (match assoc k u with Some v' => v' | None => v end)
    | None => None
    end.
Proof.
  induction o as [|[k' v] o IH]; simpl; [reflexivity|].
  destruct (assoc k' u) as [v'|] eqn:Eu; simpl;
    destruct (String.eqb_spec k k') as [->|]; try exact IH; now rewrite Eu.
Qed.

Lemma existsb_keys {A : Type} (k : string) (o : list (string * A)) :
  existsb (String.eqb k) (List.map fst o)
  = match assoc k o with Some _ => true | None => false end.
Proof.
  induction o as [|[k' v] o IH]; simpl; [reflexivity|].
  destruct (String.eqb k k'); [reflexivity|exact IH].
Qed.

Lemma assoc_spread (o u : list (string * JSON)) (k : string) :
  assoc k (spread o u)
  = match assoc k u with Some v' => Some v' | None => assoc k o end.
Proof.
  unfold spread. rewrite assoc_app, assoc_overridden, assoc_fresh_props, existsb_keys.
  destruct (assoc k o), (assoc k u); reflexivity.
Qed.

Lemma prop_merge (o : list (string * JSON)) (u : list (string * JSON)) (k : string) :
  prop k (merge (JObj o) u)
  = match assoc k u with Some v' => Some v' | None => prop k (JObj o) end.
Proof. apply assoc_spread. Qed.

(** *** Triples *)

Lemma typedRecord_object (r : JSON) : typedRecord r -> exists o, r = JObj o.
Proof.
  intros (p & ro & d & Ht). destruct r; try discriminate. now eexists.
Qed.

Lemma sameTriple_typed (P R D : option JSON) (r : JSON) :
  typedRecord r -> triple r = (P, R, D) -> sameTriple P R D r = true.
Proof.
  intros (p & ro & d & Ht) E. rewrite Ht in E. injection E as <- <- <-.
  unfold triple in Ht. injection Ht as Hp Hr Hd.
  unfold sameTriple. rewrite Hp, Hr, Hd. simpl.
  now rewrite !String.eqb_refl.
Qed.

Lemma existsb_false_In {A : Type} (p : A -> bool) (l : list A) (x : A) :
  existsb p l = false -> In x l -> p x = false.
Proof.
  intros He Hin. destruct (p x) eqn:E; [|reflexivity].
  rewrite <- He. symmetry. apply existsb_exists. eauto.
Qed.

Lemma cleanRecords_snoc (l : list JSON) (r : JSON) :
  cleanRecords l -> typedRecord r ->
  existsb (sameTriple (fst (fst (triple r))) (snd (fst (triple r))) (snd (triple r))) l = false ->
  cleanRecords (l ++ [r]).
Proof.
  intros [Ht Hu] Hr He. split.
  - apply Forall_app. split; [exact Ht|]. constructor; [exact Hr|constructor].
  - unfold uniqueTriples in *. rewrite map_app. simpl.
    apply NoDup_rev in Hu.
    rewrite <- (rev_involutive (_ ++ _)). apply NoDup_rev.
    rewrite rev_app_distr. simpl. constructor; [|exact Hu].
    rewrite <- in_rev. intros Hin. apply in_map_iff in Hin as (x & Hx & Hin).
    pose proof (existsb_false_In _ _ _ He Hin) as Hf.
    rewrite sameTriple_typed in Hf; [discriminate| |].
    + rewrite List.Forall_forall in Ht. now apply Ht.
    + rewrite Hx. now destruct (triple r) as [[? ?] ?].
Qed.

(* ===================================================================== *)
(** ** Lemmas on [attendance.ts]: the store invariant is kept *)
(* ===================================================================== *)

Section DomainSound.
Variable h : Host.t.

Lemma saveRecords_sound (fuel : nat) (records : JSON) (w : World) :
  cleanArgument records -> sound w -> keeps_sound (saveRecords h fuel records w).
Proof. intros. now apply (web_sound h fuel). Qed.

Lemma getRecords_keeps (fuel : nat) (w : World) :
  sound w ->
  ensures (fun records w' => records = live w /\ w' = w) sound (getRecords h fuel w).
Proof.
  intros Hw. eapply ensures_weaken; [now apply getRecords_sound| |]; simpl; [tauto|].
  now intros w' ->.
Qed.

Lemma checkDuplicateAttendance_sound (fuel : nat) (p ro d : string) (w : World) :
  sound w ->
  ensures (fun b w' =>
             w' = w /\
             b = existsb (sameTriple (Some (JStr p)) (Some (JStr ro)) (Some (JStr d))) (live w))
          sound (checkDuplicateAttendance h fuel p ro d w).
Proof.
  intros Hw. unfold checkDuplicateAttendance.
  eapply ensures_bind; [now apply getRecords_keeps|].
  intros records w' [-> ->]. simpl. now split.
Qed.

Lemma addRecord_sound (fuel : nat) (record : JSON) (w : World) :
  sound w -> cleanRecords (live w ++ [record]) -> keeps_sound (addRecord h fuel record w).
Proof.
  intros Hw Hc. unfold addRecord.
  eapply ensures_bind; [now apply getRecords_keeps|].
  intros records w' [-> ->].
  apply saveRecords_sound; [|exact Hw]. now apply cleanRecords_filter.
Qed.

Lemma cleanOldRecords_sound (fuel : nat) (w : World) :
  sound w -> keeps_sound (cleanOldRecords h fuel w).
Proof.
  intros Hw. unfold cleanOldRecords.
  eapply ensures_try_catch with (E := sound); [|intros e w' Hw'; exact Hw'].
  eapply ensures_bind; [now apply getRecords_keeps|].
  intros records w' [-> ->].
  destruct (_ =? _)%nat; [exact Hw|].
  apply saveRecords_sound; [|exact Hw].
  apply cleanRecords_filter, cleanRecords_filter. now apply sound_live.
Qed.

Lemma newRecord_typed (id p ro : string) (t : Z) (d : string) :
  typedRecord (newRecord id p ro t d).
Proof. now exists p, ro, d. Qed.

Lemma saveManualAttendance_sound (fuel : nat) (p ro : string) (t : Z) (w : World) :
  sound w -> keeps_sound (saveManualAttendance h fuel p ro t w).
Proof.
  intros Hw. unfold saveManualAttendance.
  eapply ensures_bind; [now apply checkDuplicateAttendance_sound|].
  intros b w' [-> ->].
  destruct (existsb _ (live w)) eqn:Ed; [exact Hw|].
  cbn [draw].
  eapply ensures_try_catch with (E := sound); [|intros e w' Hw'; exact Hw'].
  eapply ensures_bind with (R := fun _ w => sound w).
  - apply addRecord_sound; [exact Hw|].
    apply cleanRecords_snoc; [now apply sound_live|apply newRecord_typed|exact Ed].
  - intros _ w1 Hw1.
    eapply ensures_bind with (R := fun _ w => sound w);
      [now apply cleanOldRecords_sound|].
    intros _ w2 Hw2. exact Hw2.
Qed.

Lemma saveBulkLoop_sound (fuel : nat) (l : list (string * string)) (now : Z) (d : string)
  (acc : BulkResult) (w : World) :
  sound w -> keeps_sound (saveBulkLoop h fuel l now d acc w).
Proof.
  revert acc w. induction l as [|[p ro] l IH]; intros acc w Hw; cbn [saveBulkLoop].
  { exact Hw. }
  eapply ensures_bind with (R := fun _ w => sound w); [|intros a w' Hw'; now apply IH].
  eapply ensures_try_catch with (E := sound); [|intros e w' Hw'; exact Hw'].
  eapply ensures_bind; [now apply checkDuplicateAttendance_sound|].
  intros b w' [-> ->].
  destruct (existsb _ (live w)); [exact Hw|].
  eapply ensures_bind with (R := fun _ w => sound w);
    [now apply saveManualAttendance_sound|].
  intros a w' Hw'. exact Hw'.
Qed.

Lemma saveBulkAttendance_sound (fuel : nat) (l : list (string * string))
  (timestamp : option Z) (w : World) :
  sound w -> keeps_sound (saveBulkAttendance h fuel l timestamp w).
Proof. intros Hw. now apply saveBulkLoop_sound. Qed.

Lemma deleteAttendance_sound (fuel : nat) (id : string) (w : World) :
  sound w -> keeps_sound (deleteAttendance h fuel id w).
Proof.
  intros Hw. unfold deleteAttendance, deleteRecord.
  eapply ensures_try_catch with (E := sound); [|intros e w' Hw'; exact Hw'].
  eapply ensures_bind; [now apply getRecords_keeps|].
  intros records w' [-> ->].
  apply saveRecords_sound; [|exact Hw].
  apply cleanRecords_filter, cleanRecords_filter. now apply sound_live.
Qed.

Lemma filter_filter_comm {A : Type} (p q : A -> bool) (l : list A) :
  List.filter p (List.filter q l) = List.filter q (List.filter p l).
Proof.
  induction l as [|x l IH]; simpl; [reflexivity|].
  destruct (p x) eqn:Ep, (q x) eqn:Eq; simpl; rewrite ?Ep, ?Eq, IH; reflexivity.
Qed.

Lemma restoreFromBackup_sound (fuel : nat) (backup : text) (w : World) :
  sound w -> cleanBackup backup -> keeps_sound (restoreFromBackup h fuel backup w).
Proof.
  intros Hw Hb. unfold restoreFromBackup. unfold cleanBackup in Hb.
  destruct (JSON_parse backup) as [data|]; [|exact Hw].
  destruct data; try exact Hw; cbn [prop] in *.
  destruct (assoc "records" props) as [records|]; [|exact Hw].
  destruct records; try exact Hw.
  apply saveRecords_sound; [|exact Hw].
  cbn in *. rewrite filter_filter_comm. now apply cleanRecords_filter.
Qed.

Lemma createManualBackup_sound (fuel : nat) (w : World) :
  sound w -> keeps_sound (createManualBackup h fuel w).
Proof.
  intros Hw. unfold createManualBackup.
  eapply ensures_bind; [now apply getRecords_keeps|].
  intros records w' [-> ->].
  eapply ensures_bind with (R := fun _ w => sound w); [|intros a w' Hw'; exact Hw'].
  apply setItem_sound; [exact Hw|]. split; [discriminate|].
  intros _. cbn. apply cleanRecords_filter. now apply sound_live.
Qed.

End DomainSound.

(** *** Updating one record of a clean list *)

Lemma find_split {A : Type} (p : A -> bool) (l : list A) (e : A) :
  List.find p l = Some e ->
  exists l1 l2, l = l1 ++ e :: l2 /\ p e = true /\ List.Forall (fun y => p y = false) l1.
Proof.
  induction l as [|x l IH]; simpl; [discriminate|].
  destruct (p x) eqn:Ex.
  - intros [= <-]. exists [], l. repeat split; [exact Ex|constructor].
  - intros Hf. destruct (IH Hf) as (l1 & l2 & -> & He & Hl).
    exists (x :: l1), l2. repeat split; [exact He|now constructor].
Qed.

Lemma findIndex_split {A : Type} (p : A -> bool) (l1 l2 : list A) (e : A) :
  p e = true -> List.Forall (fun y => p y = false) l1 ->
  findIndex p (l1 ++ e :: l2) = Some (List.length l1).
Proof.
  intros He Hl. induction Hl as [|x l1 Hx Hl IH]; simpl.
  - now rewrite He.
  - now rewrite Hx, IH.
Qed.

Lemma set_nth_middle {A : Type} (l1 l2 : list A) (e m : A) :
  set_nth (List.length l1) m (l1 ++ e :: l2) = l1 ++ m :: l2.
Proof. induction l1 as [|x l1 IH]; simpl; [reflexivity|now rewrite IH]. Qed.

Lemma filter_none {A : Type} (p : A -> bool) (l : list A) :
  List.filter p l = [] -> List.Forall (fun y => p y = false) l.
Proof.
  induction l as [|x l IH]; simpl; [constructor|].
  destruct (p x) eqn:Ex; [discriminate|]. intros Hf. constructor; auto.
Qed.

Lemma cleanRecords_cons (r : JSON) (l : list JSON) :
  typedRecord r -> ~ In (triple r) (List.map triple l) -> cleanRecords l ->
  cleanRecords (r :: l).
Proof.
  intros Hr Hn [Ht Hu]. split; [now constructor|].
  unfold uniqueTriples. simpl. now constructor.
Qed.

Lemma or_else_kept (v e : option JSON) (s : string) :
  v = Some (JStr s) -> truthy (JStr s) = true -> or_else v e = Some (JStr s).
Proof. intros -> Ht. unfold or_else. simpl in *. now rewrite Ht. Qed.

Lemma update_keeps_clean (l1 l2 : list JSON) (e : JSON) (id : string)
  (u : list (string * JSON)) :
  cleanRecords (l1 ++ e :: l2) ->
  List.Forall (fun y => hasId id y = false) (l1 ++ l2) ->
  stringOrAbsent (assoc "prefectNumber" u) ->
  stringOrAbsent (assoc "role" u) ->
  (assoc "date" u = None \/ exists s, s <> EmptyString /\ assoc "date" u = Some (JStr s)) ->
  existsb (fun r => negb (hasId id r)
                    && sameTriple (or_else (assoc "prefectNumber" u) (prop "prefectNumber" e))
                                  (or_else (assoc "role" u) (prop "role" e))
                                  (or_else (assoc "date" u) (prop "date" e)) r)
          (l1 ++ e :: l2) = false ->
  cleanRecords (List.filter validRecord (l1 ++ merge e u :: l2)).
Proof.
  intros Hc Hid Hp Hr Hd He.
  assert (Hrest : cleanRecords (l1 ++ l2)).
  { apply (cleanRecords_cons_inv e).
    eapply cleanRecords_perm; [symmetry; apply Permutation_middle|exact Hc]. }
  destruct (validRecord (merge e u)) eqn:Ev.
  2:{ rewrite List.filter_app. simpl. rewrite Ev. rewrite <- List.filter_app.
      now apply cleanRecords_filter. }
  apply cleanRecords_filter.
  eapply cleanRecords_perm; [apply Permutation_middle|].
  assert (Hte : typedRecord e).
  { destruct Hc as [Ht _]. rewrite List.Forall_forall in Ht. apply Ht.
    apply in_or_app. right. now left. }
  destruct (typedRecord_object e Hte) as [o ->].
  destruct Hte as (p0 & r0 & d0 & Hte). unfold triple in Hte.
  injection Hte as Hp0 Hr0 Hd0.
  unfold validRecord, requiredFields in Ev.
  apply andb_prop in Ev as [_ Hreq].
  apply andb_prop in Hreq as [Hreq _]. apply andb_prop in Hreq as [Hreq Tr].
  apply andb_prop in Hreq as [_ Tp].
  rewrite prop_merge in Tp, Tr.
  assert (Etriple : triple (merge (JObj o) u)
                    = (or_else (assoc "prefectNumber" u) (prop "prefectNumber" (JObj o)),
                       or_else (assoc "role" u) (prop "role" (JObj o)),
                       or_else (assoc "date" u) (prop "date" (JObj o)))).
  { unfold triple. rewrite !prop_merge.
    f_equal; [f_equal|].
    - destruct Hp as [E|[s E]]; rewrite E in *; [reflexivity|].
      symmetry. now apply or_else_kept.
    - destruct Hr as [E|[s E]]; rewrite E in *; [reflexivity|].
      symmetry. now apply or_else_kept.
    - destruct Hd as [E|(s & Hs & E)]; rewrite E; [reflexivity|].
      symmetry. apply or_else_kept; [reflexivity|]. simpl.
      destruct (String.eqb_spec s EmptyString); [contradiction|reflexivity]. }
  apply cleanRecords_cons; [| |exact Hrest].
  - exists (match assoc "prefectNumber" u with Some (JStr s) => s | _ => p0 end),
           (match assoc "role" u with Some (JStr s) => s | _ => r0 end),
           (match assoc "date" u with Some (JStr s) => s | _ => d0 end).
    unfold triple. rewrite !prop_merge. cbn [prop]. rewrite Hp0, Hr0, Hd0.
    destruct Hp as [E|[s E]]; rewrite E;
      destruct Hr as [E'|[s' E']]; rewrite E';
      destruct Hd as [E''|(s'' & _ & E'')]; rewrite E''; reflexivity.
  - intros Hin. apply in_map_iff in Hin as (y & Hy & Hin).
    assert (Hiny : In y (l1 ++ JObj o :: l2)).
    { apply in_app_or in Hin as [?|?]; apply in_or_app; [now left|right; now right]. }
    pose proof (existsb_false_In _ _ _ He Hiny) as Hf. cbv beta in Hf.
    rewrite List.Forall_forall in Hid. rewrite (Hid y Hin) in Hf. simpl in Hf.
    rewrite sameTriple_typed in Hf; [discriminate| |].
    + destruct Hc as [Ht _]. rewrite List.Forall_forall in Ht. now apply Ht.
    + now rewrite Hy, Etriple.
Qed.

Section UpdateSound.
Variable h : Host.t.

Lemma updateAttendance_sound (fuel : nat) (id : string) (u : list (string * JSON))
  (w : World) :
  sound w -> validatedUpdate id u w -> keeps_sound (updateAttendance h fuel id u w).
Proof.
  intros Hw (Hg & Hp & Hr & Hd & Hcount). unfold updateAttendance.
  eapply ensures_bind; [now apply getRecords_keeps|].
  intros records w' [-> ->].
  destruct (List.find (hasId id) (live w)) as [e|] eqn:Ef; [|exact Hw].
  destruct (find_split _ _ _ Ef) as (l1 & l2 & Hl & He & Hl1).
  assert (Hl2 : List.Forall (fun y => hasId id y = false) l2).
  { rewrite Hl, List.filter_app in Hcount. simpl in Hcount. rewrite He in Hcount.
    rewrite List.length_app in Hcount. simpl in Hcount.
    apply filter_none. destruct (List.filter (hasId id) l2); [reflexivity|].
    simpl in Hcount. lia. }
  rewrite Hg.
  pose proof (sound_live w Hw) as Hclean. rewrite Hl in *.
  destruct (existsb _ (l1 ++ e :: l2)) eqn:Edup; [exact Hw|].
  cbn [bind].
  eapply ensures_try_catch with (E := sound); [|intros e' w' Hw'; exact Hw'].
  unfold updateRecord.
  eapply ensures_bind; [now apply getRecords_keeps|].
  intros records w' [-> ->]. rewrite Hl.
  rewrite (findIndex_split _ _ _ _ He Hl1), nth_middle, set_nth_middle.
  eapply ensures_bind with (R := fun _ w => sound w); [|intros a w' Hw'; exact Hw'].
  apply saveRecords_sound; [|exact Hw].
  apply update_keeps_clean with (id := id); try assumption.
  apply Forall_app. now split.
Qed.

Lemma keeps_sound_final {A : Type} (o : outcome A) (w : World) :
  keeps_sound o -> final o = Some w -> sound w.
Proof. destruct o; simpl; intros Hk [= <-]; exact Hk. Qed.

Lemma run_sound (fuel : nat) (op : operation) (w w' : World) :
  sound w -> permitted op w -> run h fuel op w = Some w' -> sound w'.
Proof.
  intros Hw Hp. destruct op; simpl in *; apply keeps_sound_final.
  - now apply saveManualAttendance_sound.
  - now apply saveBulkAttendance_sound.
  - now apply updateAttendance_sound.
  - now apply deleteAttendance_sound.
  - now apply restoreFromBackup_sound.
  - now apply createManualBackup_sound.
Qed.

Lemma reachable_sound (w0 w : World) :
  sound w0 -> reachable h permitted w0 w -> sound w.
Proof.
  intros H0 Hr. induction Hr as [|w w' op fuel now _ IH Hp Hrun]; [exact H0|].
  eapply run_sound; [|exact Hp|exact Hrun]. exact IH.
Qed.

End UpdateSound.

(* ===================================================================== *)
(** ** C1: the uniqueness invariant *)
(* ===================================================================== *)

Lemma restore_twins_live :
  option_map live
    (run Browser.roomy 5 (Restore (Examples.backupOf [Examples.twin1; Examples.twin2]))
         (Browser.fresh Examples.monday))
  = Some [Examples.twin1; Examples.twin2].
Proof. vm_compute. reflexivity. Qed.

Lemma twoDays_live : live Examples.twoDays = [Examples.day1; Examples.day2].
Proof. vm_compute. reflexivity. Qed.

Lemma redate_day1_live :
  option_map live
    (run Browser.roomy 5 (Update "a1" [("date", JStr "3/5/2024")]) Examples.twoDays)
  = Some [merge Examples.day1 [("date", JStr "3/5/2024")]; Examples.day2].
Proof. vm_compute. reflexivity. Qed.

(** C1, as stated, fails. Restoring a backup replaces the live set by
    whatever valid records the backup holds: a backup with two records of
    prefect 42, role Senior, on 3/4/2024 leaves both in the live set. So
    does an update that only changes [date]: it moves the record of
    3/4/2024 onto the day of the record of 3/5/2024. Both worlds are
    reached by the domain operations from an empty, sound store. *)
Lemma uniqueness_fails_after_restore_or_redate :
  ~ (forall w, reachable Browser.roomy any (Browser.fresh Examples.monday) w ->
               uniqueTriples (live w))
  /\ (exists w, run Browser.roomy 5 (Update "a1" [("date", JStr "3/5/2024")])
                    Examples.twoDays = Some w
                /\ ~ uniqueTriples (live w)).
Proof.
  split.
  - intros Hall.
    pose proof restore_twins_live as Hl.
    destruct (run Browser.roomy 5 _ (Browser.fresh Examples.monday)) as [w|] eqn:Er;
      [|discriminate].
    injection Hl as Hl.
    assert (Hreach : reachable Browser.roomy any (Browser.fresh Examples.monday) w).
    { eapply reach_step with (now := Examples.monday); [apply reach_start|exact I|exact Er]. }
    apply Hall in Hreach. rewrite Hl in Hreach.
    inversion Hreach as [|? ? Hn _]; subst. apply Hn. now left.
  - pose proof redate_day1_live as Hl.
    destruct (run Browser.roomy 5 _ Examples.twoDays) as [w|]; [|discriminate].
    injection Hl as Hl. exists w. split; [reflexivity|].
    rewrite Hl. intros Hu. inversion Hu as [|? ? Hn _]; subst. apply Hn. now left.
Qed.

(** C1, amended. From a sound store (the record payload readable, the
    live set and every stored backup holding well-typed records with
    pairwise distinct triples), every world reached by save, bulk save,
    delete, manual backup, validated updates and restores of clean
    backups has a live set in which no two records share the triple
    (prefectNumber, role, date). *)
Theorem uniqueness_invariant (h : Host.t) (w0 w : World) :
  sound w0 ->
  reachable h permitted w0 w ->
  uniqueTriples (live w).
Proof.
  intros H0 Hr. apply sound_live. eapply reachable_sound; eauto.
Qed.

Lemma twoDays_run :
  run Browser.roomy 5 (Restore (Examples.backupOf [Examples.day1; Examples.day2]))
      (at_time Examples.monday (Browser.fresh Examples.monday))
  = Some Examples.twoDays.
Proof. vm_compute. reflexivity. Qed.

Lemma twoDays_triples :
  List.map triple (List.filter validRecord [Examples.day1; Examples.day2])
  = [(Some (JStr "42"), Some (JStr "Senior"), Some (JStr "3/4/2024"));
     (Some (JStr "42"), Some (JStr "Senior"), Some (JStr "3/5/2024"))].
Proof. vm_compute. reflexivity. Qed.

Lemma twoDays_typed :
  forallb (fun r => match triple r with
                    | (Some (JStr _), Some (JStr _), Some (JStr _)) => true
                    | _ => false
                    end)
          (List.filter validRecord [Examples.day1; Examples.day2]) = true.
Proof. vm_compute. reflexivity. Qed.

Lemma typedRecord_decide (r : JSON) :
  match triple r with
  | (Some (JStr _), Some (JStr _), Some (JStr _)) => true
  | _ => false
  end = true ->
  typedRecord r.
Proof.
  unfold typedRecord. destruct (triple r) as [[[[]|] [[]|]] [[]|]]; try discriminate.
  intros _. now eexists _, _, _.
Qed.

Lemma twoDays_backup_clean :
  cleanBackup (Examples.backupOf [Examples.day1; Examples.day2]).
Proof.
  change (cleanRecords (List.filter validRecord [Examples.day1; Examples.day2])).
  split.
  - apply List.Forall_forall. intros r Hr. apply typedRecord_decide.
    pose proof twoDays_typed as Ht. rewrite forallb_forall in Ht. exact (Ht r Hr).
  - unfold uniqueTriples. rewrite twoDays_triples.
    apply List.NoDup_cons; [|apply List.NoDup_cons; [|apply List.NoDup_nil]].
    + intros [H|[]]. discriminate H.
    + intros [].
Qed.

Lemma uniqueness_invariant_witness :
  sound (Browser.fresh Examples.monday)
  /\ reachable Browser.roomy permitted (Browser.fresh Examples.monday) Examples.twoDays
  /\ uniqueTriples (live Examples.twoDays).
Proof.
  assert (H0 : sound (Browser.fresh Examples.monday)) by apply map_Forall_empty.
  assert (Hr : reachable Browser.roomy permitted (Browser.fresh Examples.monday)
                         Examples.twoDays).
  { eapply reach_step
      with (now := Examples.monday)
           (op := Restore (Examples.backupOf [Examples.day1; Examples.day2]));
      [apply reach_start|exact twoDays_backup_clean|exact twoDays_run]. }
  split; [exact H0|]. split; [exact Hr|].
  exact (uniqueness_invariant Browser.roomy _ _ H0 Hr).
Defined.

(* ===================================================================== *)
(** ** What a successful [saveRecords] leaves in the store *)
(* ===================================================================== *)

Lemma bind_Return_inv {A B : Type} (m : outcome A) (k : A -> World -> outcome B)
  (b : B) (w : World) :
  bind m k = Return b w -> exists a w1, m = Return a w1 /\ k a w1 = Return b w.
Proof. destruct m; simpl; try discriminate. eauto. Qed.

Lemma try_catch_Return_inv {A : Type} (m : outcome A) (handler : Error -> World -> outcome A)
  (a : A) (w : World) :
  try_catch m handler = Return a w ->
  m = Return a w \/ exists e w1, m = Throw e w1 /\ handler e w1 = Return a w.
Proof. destruct m; simpl; try discriminate; eauto. Qed.

Section SaveRecords.
Variable h : Host.t.

Lemma setItem_Return (k : string) (v : text) (w w' : World) (u : unit) :
  setItem h k v w = Return u w' ->
  localStorage w' = <[k := v]> (localStorage w) /\ clock w' = clock w /\ drawn w' = drawn w.
Proof.
  unfold setItem. destruct (Host.fits h _); [|discriminate].
  intros [= _ <-]. now repeat split.
Qed.

Lemma setItem_Throw (k : string) (v : text) (w w' : World) (e : Error) :
  setItem h k v w = Throw e w' -> w' = w /\ e = QuotaExceededError.
Proof.
  unfold setItem. destruct (Host.fits h _); [discriminate|].
  now intros [= <- <-].
Qed.

Lemma probe_lookup (n i : nat) (ls : gmap string text) (avail : Z) (k : string) :
  startsWith testKey k = false ->
  fst (probe h n i ls avail) !! k = ls !! k.
Proof.
  intros Hk. revert i ls avail.
  induction n as [|n IH]; intros i ls avail; cbn [probe]; [reflexivity|].
  destruct (Host.fits h _); [|reflexivity].
  rewrite IH. apply lookup_insert_ne.
  intros <-. unfold startsWith in Hk. now rewrite prefix_append in Hk.
Qed.

Lemma unprobe_lookup (n i : nat) (ls : gmap string text) (k : string) :
  startsWith testKey k = false ->
  unprobe n i ls !! k = ls !! k.
Proof.
  intros Hk. revert i ls.
  induction n as [|n IH]; intros i ls; cbn [unprobe]; [reflexivity|].
  rewrite IH. apply lookup_delete_ne.
  intros <-. unfold startsWith in Hk. now rewrite prefix_append in Hk.
Qed.

Lemma checkStorageQuota_lookup (w : World) (k : string) :
  startsWith testKey k = false ->
  localStorage (snd (checkStorageQuota h w)) !! k = localStorage w !! k.
Proof.
  intros Hk. unfold checkStorageQuota.
  pose proof (probe_lookup 1024 0 (localStorage w) 0 k Hk) as Hp.
  destruct (probe h 1024 0 (localStorage w) 0) as [ls avail]. cbn [fst snd] in *.
  unfold with_storage. cbn [localStorage]. now rewrite unprobe_lookup.
Qed.

Lemma cleanOldBackups_lookup (w : World) (k : string) :
  isBackupKey k = false ->
  localStorage (cleanOldBackups h w) !! k = localStorage w !! k.
Proof.
  intros Hk. unfold cleanOldBackups.
  assert (Hall : List.Forall (fun b => isBackupKey (fst b) = true)
                   (slice_from 5 (sortedBackups h w))).
  { apply List.Forall_forall. intros b Hb. apply (In_sortedBackups h w).
    unfold slice_from in Hb. rewrite <- (firstn_skipn 5 (sortedBackups h w)).
    apply in_or_app. now right. }
  revert Hall. generalize (slice_from 5 (sortedBackups h w)). intros l.
  revert w. induction l as [|b l IH]; intros w Hall; simpl; [reflexivity|].
  inversion Hall as [|? ? Hb Hall']; subst.
  rewrite IH by exact Hall'. unfold removeItem, with_storage. cbn [localStorage].
  apply lookup_delete_ne. intros <-. congruence.
Qed.

Lemma updateBackupMetadata_lookup (fuel : nat) (w w' : World) (u : unit) :
  updateBackupMetadata h fuel w = Return u w' ->
  readable (localStorage w !! ATTENDANCE_RECORDS) ->
  localStorage w' !! ATTENDANCE_RECORDS = localStorage w !! ATTENDANCE_RECORDS.
Proof.
  destruct fuel as [|fuel]; [discriminate|]. cbn [updateBackupMetadata].
  intros Hr Hread. destruct fuel as [|fuel]; [cbn in Hr; congruence|].
  rewrite getRecords_readable in Hr by exact Hread. cbn [bind] in Hr.
  apply try_catch_Return_inv in Hr as [Hr|(e & w1 & Hr & Hh)].
  - apply setItem_Return in Hr as (-> & _ & _). apply lookup_insert_ne. discriminate.
  - apply setItem_Throw in Hr as [-> _]. cbn in Hh. congruence.
Qed.

(** When [saveRecords] returns, the record payload is the argument it
    was given, whatever eviction did on the way. *)
Lemma saveRecords_Return (fuel : nat) (records : JSON) (w w' : World) (u : unit) :
  saveRecords h fuel records w = Return u w' ->
  exists items,
    records = JArr items
    /\ localStorage w' !! ATTENDANCE_RECORDS = Some (Doc (JArr items)).
Proof.
  destruct fuel as [|fuel]; [discriminate|]. cbn [saveRecords]. intros Hr.
  apply try_catch_Return_inv in Hr as [Hr|(e & w1 & _ & Hh)].
  2:{ apply bind_Return_inv in Hh as (a & w2 & _ & Hh). discriminate. }
  destruct records; try discriminate. exists items. split; [reflexivity|].
  destruct (checkStorageQuota h w) as [quota w1].
  apply bind_Return_inv in Hr as (a & w2 & _ & Hr).
  destruct (_ <? _)%Z; [discriminate|].
  apply bind_Return_inv in Hr as (a3 & w3 & Hset & Hr).
  apply setItem_Return in Hset as (Hls3 & _ & _).
  destruct (generateDataHash h items) as [hash|]; [|discriminate].
  apply bind_Return_inv in Hr as (a4 & w4 & Hset & Hr).
  apply setItem_Return in Hset as (Hls4 & _ & _).
  assert (H4 : localStorage w4 !! ATTENDANCE_RECORDS = Some (Doc (JArr items))).
  { rewrite Hls4, lookup_insert_ne by discriminate. rewrite Hls3. apply lookup_insert_eq. }
  apply updateBackupMetadata_lookup in Hr; [congruence|]. now rewrite H4.
Qed.

Lemma saveRecords_Return_live (fuel : nat) (items : list JSON) (w w' : World) (u : unit) :
  saveRecords h fuel (JArr items) w = Return u w' ->
  live w' = List.filter validRecord items.
Proof.
  intros Hr. apply saveRecords_Return in Hr as (items' & [= <-] & Hl).
  unfold live. now rewrite Hl.
Qed.

End SaveRecords.

(* ===================================================================== *)
(** ** C2: eviction under quota pressure *)
(* ===================================================================== *)

Lemma backedUp_run :
  match saveRecords Examples.backedUpHost 6 (JArr Examples.records1200) Examples.backedUp with
  | Return _ w => (List.length (live w) =? 1200)%nat
  | _ => false
  end = true.
Proof. vm_cast_no_check (eq_refl true). Qed.

Lemma records1200_valid :
  List.filter validRecord Examples.records1200 = Examples.records1200.
Proof. vm_cast_no_check (eq_refl Examples.records1200). Qed.

Lemma backedUp_live : live Examples.backedUp = Examples.records1200.
Proof. vm_cast_no_check (eq_refl Examples.records1200). Qed.

Lemma backedUp_quota :
  fst (checkStorageQuota Examples.backedUpHost Examples.backedUp)
  = {| available := 7168; used := 152151 |}.
Proof. vm_cast_no_check (eq_refl {| available := 7168; used := 152151 |}). Qed.

(** C2 at its failing input. The store holds 1200 valid records and six
    backups and is 95% full (152151 characters used, 7168 available).
    [saveRecords] is called with the 1200 records. The quota check sends
    it through [handleQuotaExceeded], which prunes the oldest backup and
    saves the 800 newest records; [saveRecords] then goes on and writes
    the 1200 records it was given over them. It returns, and the live
    set has 1200 records, not 800. *)
Theorem eviction_is_overwritten :
  live Examples.backedUp = Examples.records1200
  /\ percentage_over 90 (fst (checkStorageQuota Examples.backedUpHost Examples.backedUp))
     = true
  /\ exists w,
       saveRecords Examples.backedUpHost 6 (JArr Examples.records1200) Examples.backedUp
       = Return tt w
       /\ live w = Examples.records1200
       /\ List.length (live w) = 1200%nat.
Proof.
  split; [exact backedUp_live|]. split; [rewrite backedUp_quota; reflexivity|].
  pose proof backedUp_run as Hrun.
  destruct (saveRecords Examples.backedUpHost 6 (JArr Examples.records1200)
                        Examples.backedUp) as [[] w|e w] eqn:E;
    [|discriminate Hrun].
  exists w. split; [reflexivity|].
  apply saveRecords_Return_live in E. rewrite records1200_valid in E.
  split; [exact E|]. apply Nat.eqb_eq. exact Hrun.
Qed.

Lemma crowded_quota :
  percentage_over 90 (fst (checkStorageQuota Examples.crowdedHost Examples.crowded)) = true.
Proof. vm_cast_no_check (eq_refl true). Qed.

Lemma crowded_run :
  match saveRecords Examples.crowdedHost 8 (JArr Examples.records1200) Examples.crowded with
  | Return _ w => (List.length (live w) =? 1200)%nat
  | Throw _ _ => false
  end = true.
Proof. vm_cast_no_check (eq_refl true). Qed.

(** The same call when nothing can be pruned: 1200 records fill 95% of
    the store and there is no backup. [saveRecords] and
    [handleQuotaExceeded] call each other until the call stack is used
    up (here it has room for eight calls); the [RangeError] is caught on
    the way back, and [saveRecords] returns with the 1200 records it was
    given as the live set. *)
Lemma eviction_without_backups :
  percentage_over 90 (fst (checkStorageQuota Examples.crowdedHost Examples.crowded)) = true
  /\ exists w,
       saveRecords Examples.crowdedHost 8 (JArr Examples.records1200) Examples.crowded
       = Return tt w
       /\ List.length (live w) = 1200%nat.
Proof.
  split; [exact crowded_quota|].
  pose proof crowded_run as Hrun.
  destruct (saveRecords Examples.crowdedHost 8 (JArr Examples.records1200)
                        Examples.crowded) as [[] w|e w] eqn:E; [|discriminate Hrun].
  exists w. split; [reflexivity|]. apply Nat.eqb_eq. exact Hrun.
Qed.

(* ===================================================================== *)
(** ** C8: [getRecords] *)
(* ===================================================================== *)

Section GetRecords.
Variable h : Host.t.


(** *** The handlers swallow what is thrown under them *)

Lemma try_catch_returns {A : Type} (m : outcome A) (handler : Error -> World -> outcome A) :
  (forall e w, exists a w', handler e w = Return a w') ->
  exists a w', try_catch m handler = Return a w'.
Proof.
  intros Hh. destruct m as [a w|e w]; cbn [try_catch]; [now exists a, w|apply Hh].
Qed.


Lemma handleQuotaExceeded_returns (fuel : nat) (w : World) :
  exists w', handleQuotaExceeded h (S fuel) w = Return tt w'.
Proof.
  cbn [handleQuotaExceeded].
  match goal with
  | |- exists w', try_catch ?m ?handler = _ =>
      destruct (try_catch_returns m handler) as ([] & w' & ->)
  end.
  - intros e w'. now exists tt, w'.
  - now exists w'.
Qed.



End GetRecords.



(* ===================================================================== *)
(** ** C5: bulk save *)
(* ===================================================================== *)

(** The day number of the first of the month of a day is not far above
    the day itself. *)
Lemma first_of_month_bound (z : Z) :
  (-200000000 <= z <= 200000000)%Z ->
  (let '(y, m, d) := civil_from_days z in
   days_from_civil y m 1 + d <= z + 1000)%Z.
Proof.
  intros Hz. unfold civil_from_days, days_from_civil.
  cbv zeta.
  repeat match goal with
         | |- context [if ?b then _ else _] => destruct b
         end;
    Z.div_mod_to_equations; lia.
Qed.

Section CleanOldRecords.
Variable h : Host.t.

(** [MAX_DAYS] days before any date is outside the range of [Date]
    (100,000,000 days either side of the epoch): the cutoff of
    [cleanOldRecords] is the Invalid Date. *)
Lemma cutoffDate_invalid (now : Z) :
  (forall t b, Z.abs (Host.LocalTZA h t b) <= msPerDay)%Z ->
  (Z.abs now <= maxTime)%Z ->
  cutoffDate h now = None.
Proof.
  intros Hzone Hnow. unfold cutoffDate, setDate, getDate, MakeDay, UTC, TimeWithinDay.
  set (t := LocalTime h now).
  assert (Ht : (- maxTime - msPerDay <= t <= maxTime + msPerDay)%Z).
  { unfold t, LocalTime. specialize (Hzone now true). lia. }
  assert (Hday : (-100000002 <= Day t <= 100000001)%Z).
  { unfold Day, maxTime, msPerDay in *. Z.div_mod_to_equations. lia. }
  assert (Hb : (let '(y, m, d) := civil_from_days (Day t) in
                days_from_civil y m 1 + d <= Day t + 1000)%Z)
    by (apply first_of_month_bound; lia).
  destruct (civil_from_days (Day t)) as [[y m] d]. cbn [snd].
  set (x := ((days_from_civil y m 1 + (d - MAX_DAYS) - 1) * msPerDay + t mod msPerDay)%Z).
  assert (Hx : (x <= -70000000000000000)%Z).
  { unfold x, MAX_DAYS, msPerDay, maxTime in *.
    assert (Hm : (0 <= t mod 86400000 < 86400000)%Z) by (apply Z.mod_pos_bound; lia).
    lia. }
  specialize (Hzone x false). unfold TimeClip.
  destruct (Z.leb_spec (Z.abs (x - Host.LocalTZA h x false)) maxTime) as [Hle|_];
    [|reflexivity].
  unfold maxTime, msPerDay in *. lia.
Qed.

(** Compared with the Invalid Date no record is newer: the filter of
    [cleanOldRecords] keeps nothing. *)
Lemma nothing_is_recent (records : list JSON) :
  List.filter (fun record => laterThan (Date_getTime h (prop "timestamp" record)) None)
              records = [].
Proof.
  induction records as [|r l IH]; simpl; [reflexivity|].
  now destruct (Date_getTime h (prop "timestamp" r)).
Qed.

(** So [cleanOldRecords], run on a store with live records, asks
    [saveRecords] to store the empty list. *)
Lemma cleanOldRecords_wipes (fuel : nat) (w : World) :
  (forall t b, Z.abs (Host.LocalTZA h t b) <= msPerDay)%Z ->
  (Z.abs (clock w) <= maxTime)%Z ->
  readable (localStorage w !! ATTENDANCE_RECORDS) ->
  live w <> [] ->
  cleanOldRecords h (S fuel) w
  = try_catch (saveRecords h (S fuel) (JArr []) w) (fun _ w => Return tt w).
Proof.
  intros Hzone Hnow Hr Hl. unfold cleanOldRecords.
  rewrite getRecords_readable by exact Hr. cbn [bind].
  rewrite cutoffDate_invalid by assumption. rewrite nothing_is_recent.
  destruct (live w) as [|r l]; [contradiction|]. reflexivity.
Qed.

(** Every entry of a bulk save ends in [success] or in [errors], and
    the loop never throws. *)
Lemma saveBulkLoop_accounts (fuel : nat) (l : list (string * string)) (now : Z)
  (date : string) (acc : BulkResult) (w : World) :
  ensures (fun res _ =>
             (List.length (success res) + List.length (errors res)
              = List.length (success acc) + List.length (errors acc) + List.length l)%nat)
          (fun _ => False)
          (saveBulkLoop h fuel l now date acc w).
Proof.
  revert acc w. induction l as [|[p ro] l IH]; intros acc w; cbn [saveBulkLoop].
  { simpl. lia. }
  set (step := try_catch _ _).
  assert (Hstep : ensures (fun a _ =>
             (List.length (success a) + List.length (errors a)
              = S (List.length (success acc) + List.length (errors acc)))%nat)
             (fun _ => False) step).
  { unfold step.
    destruct (checkDuplicateAttendance h fuel p ro date w) as [dup w1|e w1]; cbn.
    - destruct dup; cbn.
      + rewrite List.length_app. simpl. lia.
      + destruct (saveManualAttendance h fuel p ro now w1) as [r w2|e w2]; cbn;
          rewrite ?List.length_app; simpl; lia.
    - rewrite List.length_app. simpl. lia. }
  destruct step as [a w1|e w1]; cbn in *; [|contradiction].
  eapply ensures_weaken; [apply IH| |]; simpl; intros; lia.
Qed.

End CleanOldRecords.

Lemma bulk_twins_result :
  returned (saveBulkAttendance Browser.roomy 6 [("42", "Senior"); ("42", "Senior")] None
                               (Browser.fresh Examples.monday))
  = Some {| success :=
              [newRecord (Browser.randomUUID 0) "42" "Senior" Examples.monday "3/4/2024";
               newRecord (Browser.randomUUID 1) "42" "Senior" Examples.monday "3/4/2024"];
            errors := [] |}.
Proof. vm_compute. reflexivity. Qed.

Lemma bulk_twins_live :
  live_after (saveBulkAttendance Browser.roomy 6 [("42", "Senior"); ("42", "Senior")] None
                                 (Browser.fresh Examples.monday))
  = Some [].
Proof. vm_compute. reflexivity. Qed.

Lemma first_save_live :
  live_after (saveManualAttendance Browser.roomy 6 "42" "Senior" Examples.monday
                                   (Browser.fresh Examples.monday))
  = Some [].
Proof. vm_compute. reflexivity. Qed.

(** C5 at its failing input: an empty store, and the bulk save of
    [("42", "Senior"); ("42", "Senior")]. The first entry is saved, and
    [cleanOldRecords], called at the end of the save, empties the store
    (its cutoff is the Invalid Date). The duplicate check of the second
    entry therefore finds nothing: both entries end in [success], none
    in [errors], and the live set is empty afterwards. *)
Theorem bulk_save_of_twins :
  exists res w,
    saveBulkAttendance Browser.roomy 6 [("42", "Senior"); ("42", "Senior")] None
                       (Browser.fresh Examples.monday) = Return res w
    /\ List.length (success res) = 2%nat
    /\ List.length (errors res) = 0%nat
    /\ live w = [].
Proof.
  pose proof bulk_twins_result as Hres. pose proof bulk_twins_live as Hlive.
  unfold live_after in Hlive.
  destruct (saveBulkAttendance Browser.roomy 6 [("42", "Senior"); ("42", "Senior")] None
                               (Browser.fresh Examples.monday)) as [res w|e w];
    [|discriminate Hres].
  exists res, w. split; [reflexivity|].
  injection Hres as ->. injection Hlive as Hlive. now repeat split.
Qed.

(* ===================================================================== *)
(** ** C4: on time or late *)
(* ===================================================================== *)

Section OnTime.
Variable h : Host.t.

Lemma isOnTime_spec (r : JSON) (t : Z) :
  Date_getTime h (prop "timestamp" r) = Some t ->
  isOnTime h r = true
  <-> (getHours h t < 7 \/ (getHours h t = 7 /\ getMinutes h t = 0))%Z.
Proof.
  intros Ht. unfold isOnTime. rewrite Ht.
  rewrite orb_true_iff, andb_true_iff, Z.ltb_lt, !Z.eqb_eq. reflexivity.
Qed.

(** The loop of the statistics counts a record on time when the test
    holds of it and late otherwise. *)
Lemma tally_counts (records : list JSON) (stats : Tally) :
  tallyOnTime (fold_left (tallyRecord h) records stats)
  = (tallyOnTime stats + Z.of_nat (List.length (List.filter (isOnTime h) records)))%Z
  /\ tallyLate (fold_left (tallyRecord h) records stats)
     = (tallyLate stats
        + Z.of_nat (List.length (List.filter (fun r => negb (isOnTime h r)) records)))%Z.
Proof.
  revert stats. induction records as [|r l IH]; intros stats; simpl.
  { split; lia. }
  destruct (IH (tallyRecord h stats r)) as [-> ->].
  unfold tallyRecord. destruct (isOnTime h r); simpl; split; lia.
Qed.

End OnTime.

Lemma aroundSeven_live :
  live Examples.aroundSeven
  = [Examples.atSeven; Examples.beforeSeven; Examples.secondPastSeven;
     Examples.minutePastSeven].
Proof. vm_compute. reflexivity. Qed.

Lemma aroundSeven_stats :
  returned (getDailyStats Browser.roomy 3 "3/4/2024" Examples.aroundSeven)
  = Some {| total := 4; onTime := 3; late := 1;
            byRole := bump "Head" (bump "Head" (bump "Head" (bump "Head" zeroRoles))) |}.
Proof. vm_compute. reflexivity. Qed.

Lemma aroundSeven_lines :
  returned (dailyReportLines Browser.roomy 3 "3/4/2024" Examples.aroundSeven)
  = Some ["8,Head,06:59 AM,On Time,Regular attendance";
          "7,Head,07:00 AM,On Time,Regular attendance";
          "9,Head,07:00 AM,On Time,Regular attendance";
          "10,Head,07:01 AM,Late,Arrived 0h 1m late"].
Proof. vm_compute. reflexivity. Qed.

(** C4, as stated, fails on its last example: a record timestamped
    07:00:01 has hour 7 and minute 0, so the test classifies it on time,
    not late. The daily statistics of the four records of 07:00:00,
    06:59:59, 07:00:01 and 07:01:00 count three on time and one late. *)
Lemma second_past_seven_is_on_time :
  Date_getTime Browser.roomy (prop "timestamp" Examples.secondPastSeven)
  = Some (Examples.seven + 1000)%Z
  /\ getHours Browser.roomy (Examples.seven + 1000) = 7%Z
  /\ getMinutes Browser.roomy (Examples.seven + 1000) = 0%Z
  /\ getSeconds Browser.roomy (Examples.seven + 1000) = 1%Z
  /\ isOnTime Browser.roomy Examples.secondPastSeven = true
  /\ statusOf Browser.roomy Examples.secondPastSeven = "On Time"
  /\ option_map onTime (returned (getDailyStats Browser.roomy 3 "3/4/2024"
                                                Examples.aroundSeven)) = Some 3%Z
  /\ option_map late (returned (getDailyStats Browser.roomy 3 "3/4/2024"
                                              Examples.aroundSeven)) = Some 1%Z.
Proof.
  rewrite aroundSeven_stats.
  split; [vm_compute; reflexivity|]. split; [vm_compute; reflexivity|].
  split; [vm_compute; reflexivity|]. split; [vm_compute; reflexivity|].
  split; [vm_compute; reflexivity|]. split; [vm_compute; reflexivity|].
  split; reflexivity.
Qed.

(** C4, amended. The statistics and the reports classify a record on
    time iff its local hour is below 7, or its hour is 7 and its minute
    0, and late otherwise; the seconds are not looked at. A record
    timestamped 07:00:00 or 06:59:59 is on time, and so is one
    timestamped 07:00:01 (any second of 07:00); 07:01:00 is late. The
    statistics count the on-time records in [onTime] and the others in
    [late], and the reports print "On Time" or "Late" accordingly. A
    record whose timestamp is not a valid date counts as late. *)
Theorem on_time_classification (h : Host.t) (r : JSON) (t : Z) :
  Date_getTime h (prop "timestamp" r) = Some t ->
  (isOnTime h r = true
   <-> (getHours h t < 7 \/ (getHours h t = 7 /\ getMinutes h t = 0))%Z)
  /\ (getHours h t = 7%Z -> getMinutes h t = 0%Z -> isOnTime h r = true)
  /\ (getHours h t = 6%Z -> isOnTime h r = true)
  /\ (getHours h t = 7%Z -> getMinutes h t = 1%Z -> isOnTime h r = false)
  /\ (statusOf h r = if isOnTime h r then "On Time" else "Late")
  /\ (forall records,
        tallyOnTime (tallyAll h records)
        = Z.of_nat (List.length (List.filter (isOnTime h) records))
        /\ tallyLate (tallyAll h records)
           = Z.of_nat (List.length (List.filter (fun r => negb (isOnTime h r)) records)))
  /\ (forall undated,
        Date_getTime h (prop "timestamp" undated) = None ->
        isOnTime h undated = false /\ statusOf h undated = "Late").
Proof.
  intros Ht. pose proof (isOnTime_spec h r t Ht) as Hspec.
  split; [exact Hspec|]. split; [|split; [|split; [|split; [|split]]]].
  - intros H7 H0. apply Hspec. now right.
  - intros H6. apply Hspec. left. lia.
  - intros H7 H1. destruct (isOnTime h r) eqn:E; [|reflexivity].
    destruct (proj1 Hspec eq_refl) as [Hlt|[_ Hm]]; lia.
  - reflexivity.
  - intros records. unfold tallyAll.
    destruct (tally_counts h records
                {| tallyOnTime := 0; tallyLate := 0; tallyRoles := zeroRoles |})
      as [-> ->].
    simpl. split; reflexivity.
  - intros undated Hn. unfold statusOf, isOnTime. now rewrite Hn.
Qed.

Lemma on_time_classification_witness :
  Date_getTime Browser.roomy (prop "timestamp" Examples.atSeven) = Some Examples.seven
  /\ isOnTime Browser.roomy Examples.atSeven = true
  /\ isOnTime Browser.roomy Examples.beforeSeven = true
  /\ isOnTime Browser.roomy Examples.minutePastSeven = false.
Proof.
  assert (Ht : Date_getTime Browser.roomy (prop "timestamp" Examples.atSeven)
               = Some Examples.seven) by (vm_compute; reflexivity).
  split; [exact Ht|].
  split.
  - apply (proj1 (proj2 (on_time_classification Browser.roomy Examples.atSeven
                                                Examples.seven Ht)));
      vm_compute; reflexivity.
  - split; vm_compute; reflexivity.
Defined.

(* ===================================================================== *)
(** ** C3: the admin lockout *)
(* ===================================================================== *)

Section Lockout.
Variable h : Host.t.
Hypothesis Haccept : accepting h.

Lemma storedNumber_insert (k : string) (n : Z) (w : World) (ls : gmap string text) :
  localStorage w = <[k := Doc (JNum n)]> ls -> storedNumber k w = Some n.
Proof.
  intros E. unfold storedNumber, getItem. rewrite E, lookup_insert_eq. reflexivity.
Qed.

Lemma storedNumber_insert_ne (k k' : string) (v : text) (w w' : World) :
  k' <> k -> localStorage w' = <[k' := v]> (localStorage w) ->
  storedNumber k w' = storedNumber k w.
Proof.
  intros Hne E. unfold storedNumber, getItem. now rewrite E, lookup_insert_ne.
Qed.

Lemma storedNumber_at_time (k : string) (now : Z) (w : World) :
  storedNumber k (at_time now w) = storedNumber k w.
Proof. reflexivity. Qed.

(** While the lockout expiry is ahead, every attempt is refused and the
    store is left alone. *)
Lemma locked_attempt (pin : string) (w : World) (t : Z) :
  lockoutUntil w = Some t -> (clock w < t)%Z ->
  checkAdminAccess h pin w
  = Throw (Err (lockedMessage (ceilMinutes (t - clock w)))) w.
Proof.
  intros Hl Ht. unfold checkAdminAccess. unfold lockoutUntil in Hl. rewrite Hl.
  apply Z.ltb_lt in Ht. now rewrite Ht.
Qed.

(** Unlocked, the right PIN is let in and both keys are removed. *)
Lemma right_attempt (w : World) (t : Z) :
  lockoutUntil w = Some t -> (t <= clock w)%Z ->
  exists w',
    checkAdminAccess h ADMIN_PIN w = Return true w'
    /\ failedAttempts w' = Some 0%Z /\ lockoutUntil w' = Some 0%Z
    /\ clock w' = clock w.
Proof.
  intros Hl Ht. unfold checkAdminAccess. unfold lockoutUntil in Hl. rewrite Hl.
  apply Z.ltb_ge in Ht. rewrite Ht. cbn [String.eqb].
  eexists. split; [reflexivity|].
  unfold failedAttempts, lockoutUntil, storedNumber, getItem, removeItem, with_storage.
  cbn [localStorage clock].
  rewrite lookup_delete_ne by discriminate. rewrite !lookup_delete_eq. now repeat split.
Qed.

(** Unlocked, a wrong PIN adds one to the stored counter; the attempt
    that makes it reach 10 sets the expiry 15 minutes ahead. *)
Lemma wrong_attempt (pin : string) (w : World) (t n : Z) :
  pin <> ADMIN_PIN ->
  lockoutUntil w = Some t -> (t <= clock w)%Z ->
  failedAttempts w = Some n ->
  exists e w',
    checkAdminAccess h pin w = Throw e w'
    /\ failedAttempts w' = Some (n + 1)%Z
    /\ clock w' = clock w
    /\ if (n + 1 <? MAX_FAILED_ATTEMPTS)%Z
       then InvalidPin (MAX_FAILED_ATTEMPTS - (n + 1)) e /\ lockoutUntil w' = Some t
       else e = Err tooManyMessage
            /\ lockoutUntil w' = Some (clock w + LOCKOUT_DURATION)%Z.
Proof.
  intros Hpin Hl Ht Hn. unfold checkAdminAccess.
  unfold lockoutUntil in Hl. unfold failedAttempts in Hn. rewrite Hl, Hn.
  apply Z.ltb_ge in Ht. rewrite Ht.
  destruct (String.eqb_spec pin ADMIN_PIN) as [|_]; [contradiction|].
  cbn [option_map Number_toString]. unfold setItem at 1. rewrite Haccept. cbn [bind].
  destruct (Z.leb_spec MAX_FAILED_ATTEMPTS (n + 1)) as [Hge|Hlt].
  - unfold setItem. rewrite Haccept. cbn [bind].
    eexists _, _. split; [reflexivity|].
    assert (Hltb : (n + 1 <? MAX_FAILED_ATTEMPTS)%Z = false) by now apply Z.ltb_ge.
    rewrite Hltb. split; [|split; [reflexivity|split; [reflexivity|]]].
    + unfold failedAttempts, storedNumber, getItem, with_storage. cbn [localStorage].
      rewrite lookup_insert_ne by discriminate. now rewrite lookup_insert_eq.
    + unfold lockoutUntil, storedNumber, getItem, with_storage. cbn [localStorage].
      now rewrite lookup_insert_eq.
  - eexists _, _. split; [reflexivity|].
    assert (Hltb : (n + 1 <? MAX_FAILED_ATTEMPTS)%Z = true) by now apply Z.ltb_lt.
    rewrite Hltb. split; [|split; [reflexivity|split; [reflexivity|]]].
    + unfold failedAttempts, storedNumber, getItem, with_storage. cbn [localStorage].
      now rewrite lookup_insert_eq.
    + unfold lockoutUntil, storedNumber, getItem, with_storage. cbn [localStorage].
      rewrite lookup_insert_ne by discriminate. exact Hl.
Qed.

(** Fewer than 10 wrong attempts in a row leave the counter at their
    number and the expiry where it was. *)
Lemma wrong_attempts_count (tries : list (Z * string)) (w : World) (t0 n : Z) :
  failedAttempts w = Some n -> lockoutUntil w = Some t0 ->
  List.Forall (wrongAt t0) tries ->
  (n + Z.of_nat (List.length tries) < MAX_FAILED_ATTEMPTS)%Z ->
  failedAttempts (attempts h tries w) = Some (n + Z.of_nat (List.length tries))%Z
  /\ lockoutUntil (attempts h tries w) = Some t0.
Proof.
  revert w n. induction tries as [|[now pin] tries IH]; intros w n Hn Hl Hall Hlt.
  { simpl. rewrite Z.add_0_r. now split. }
  inversion Hall as [|? ? [Hpin Htime] Hall']; subst. cbn [fst snd] in *.
  cbn [attempts].
  destruct (wrong_attempt pin (at_time now w) t0 n Hpin Hl Htime Hn)
    as (e & w' & Hrun & Hn' & _ & Hcase).
  rewrite Hrun. cbn [final].
  cbn [List.length] in Hlt. rewrite Nat2Z.inj_succ in Hlt.
  assert (Hltb : (n + 1 <? MAX_FAILED_ATTEMPTS)%Z = true) by (apply Z.ltb_lt; lia).
  rewrite Hltb in Hcase. destruct Hcase as [_ Hl'].
  destruct (IH w' (n + 1)%Z Hn' Hl' Hall') as [Hc Hk]; [lia|].
  split; [|exact Hk]. rewrite Hc. f_equal. cbn [List.length]. lia.
Qed.

End Lockout.

Lemma checkAdminAccess_ends (h : Host.t) (pin : string) (w : World) :
  exists w', final (checkAdminAccess h pin w) = Some w'.
Proof.
  unfold checkAdminAccess.
  destruct (match storedNumber LOCKOUT_TIME_KEY w with Some t => _ | None => _ end);
    [eexists; reflexivity|].
  destruct (String.eqb pin ADMIN_PIN); [eexists; reflexivity|].
  unfold setItem. destruct (Host.fits h _); cbn [bind]; [|eexists; reflexivity].
  destruct (match option_map _ _ with Some n => _ | None => _ end);
    [|eexists; reflexivity].
  destruct (Host.fits h _); cbn [bind]; eexists; reflexivity.
Qed.

Lemma attempts_app (h : Host.t) (a b : list (Z * string)) (w : World) :
  attempts h (a ++ b) w = attempts h b (attempts h a w).
Proof.
  revert w. induction a as [|[now pin] a IH]; intros w; [reflexivity|].
  cbn [attempts app].
  destruct (checkAdminAccess_ends h pin (at_time now w)) as [w' ->]. apply IH.
Qed.

(** C3, as stated, fails. The counter and the expiry live in
    [localStorage] and nowhere else, and [checkAdminAccess] writes them
    outside any [try]. In a browser that has no room left, a wrong PIN
    ends in the [QuotaExceededError] of the refused write, which is
    neither [InvalidPin] nor [LockedOut], and counts nothing: after ten
    wrong attempts in a row the counter is still 0, and the 11th call,
    with the right PIN, is let in. *)
Lemma lockout_needs_room :
  let tries := List.repeat ((Examples.monday + 1000)%Z, "pear") 10 in
  let w := attempts Examples.fullHost tries Examples.twoDays in
  failedAttempts Examples.twoDays = Some 0%Z
  /\ lockoutUntil Examples.twoDays = Some 0%Z
  /\ List.Forall (wrongAt 0) tries
  /\ checkAdminAccess Examples.fullHost "pear" Examples.twoDays
     = Throw QuotaExceededError Examples.twoDays
  /\ failedAttempts w = Some 0%Z
  /\ lockoutUntil w = Some 0%Z
  /\ (exists w',
        checkAdminAccess Examples.fullHost ADMIN_PIN (at_time (Examples.monday + 2000) w)
        = Return true w')
  /\ ~ (exists e w',
          checkAdminAccess Examples.fullHost ADMIN_PIN (at_time (Examples.monday + 2000) w)
          = Throw e w'
          /\ LockedOut e).
Proof.
  cbv zeta.
  assert (Hright : exists w',
            checkAdminAccess Examples.fullHost ADMIN_PIN
              (at_time (Examples.monday + 2000)
                 (attempts Examples.fullHost
                    (List.repeat ((Examples.monday + 1000)%Z, "pear"%string) 10)
                    Examples.twoDays))
            = Return true w').
  { eexists. vm_compute. reflexivity. }
  split; [vm_compute; reflexivity|]. split; [vm_compute; reflexivity|].
  split.
  { repeat constructor; cbn; (discriminate || (vm_compute; discriminate)). }
  split; [vm_compute; reflexivity|]. split; [vm_compute; reflexivity|].
  split; [vm_compute; reflexivity|]. split; [exact Hright|].
  destruct Hright as [w' Hw']. intros (e & w'' & He & _). rewrite Hw' in He. discriminate He.
Qed.

(** C3, amended. With a browser that takes the writes: a wrong PIN while
    unlocked adds one to the stored counter, fails with
    [InvalidPin(remaining)] below 10 and, when the counter reaches 10,
    sets the expiry 15 minutes ahead and fails with [LockedOut]; while
    the expiry is ahead every attempt fails with [LockedOut] and leaves
    the store as it was; unlocked, the right PIN succeeds and resets
    counter and expiry; and after 10 wrong attempts in a row from a
    counter of 0 the 11th call, made within the 15 minutes, fails with
    [LockedOut] whatever the PIN. *)
Theorem admin_lockout (h : Host.t) :
  accepting h ->
  (forall pin w t n,
     pin <> ADMIN_PIN -> lockoutUntil w = Some t -> (t <= clock w)%Z ->
     failedAttempts w = Some n ->
     exists e w',
       checkAdminAccess h pin w = Throw e w'
       /\ failedAttempts w' = Some (n + 1)%Z
       /\ ((n + 1 < 10)%Z -> InvalidPin (10 - (n + 1)) e /\ lockoutUntil w' = Some t)
       /\ ((n + 1 = 10)%Z ->
           LockedOut e /\ lockoutUntil w' = Some (clock w + 15 * 60 * 1000)%Z))
  /\ (forall pin w t,
        lockoutUntil w = Some t -> (clock w < t)%Z ->
        exists e, checkAdminAccess h pin w = Throw e w /\ LockedOut e)
  /\ (forall w t,
        lockoutUntil w = Some t -> (t <= clock w)%Z ->
        exists w', checkAdminAccess h ADMIN_PIN w = Return true w'
                   /\ failedAttempts w' = Some 0%Z /\ lockoutUntil w' = Some 0%Z)
  /\ (forall w t0 first9 t10 pin10 t11 pin,
        failedAttempts w = Some 0%Z -> lockoutUntil w = Some t0 ->
        List.length first9 = 9%nat -> List.Forall (wrongAt t0) first9 ->
        wrongAt t0 (t10, pin10) ->
        (t10 <= t11 < t10 + 15 * 60 * 1000)%Z ->
        failedAttempts (attempts h (first9 ++ [(t10, pin10)]) w) = Some 10%Z
        /\ exists e,
             checkAdminAccess h pin (at_time t11 (attempts h (first9 ++ [(t10, pin10)]) w))
             = Throw e (at_time t11 (attempts h (first9 ++ [(t10, pin10)]) w))
             /\ LockedOut e).
Proof.
  intros Ha. split; [|split; [|split]].
  - intros pin w t n Hpin Hl Ht Hn.
    destruct (wrong_attempt h Ha pin w t n Hpin Hl Ht Hn) as (e & w' & Hrun & Hn' & _ & Hc).
    exists e, w'. split; [exact Hrun|]. split; [exact Hn'|].
    unfold MAX_FAILED_ATTEMPTS, LOCKOUT_DURATION in Hc. split.
    + intros Hlt. apply Z.ltb_lt in Hlt. now rewrite Hlt in Hc.
    + intros Heq. assert (Hge : (n + 1 <? 10)%Z = false) by (apply Z.ltb_ge; lia).
      rewrite Hge in Hc. destruct Hc as [-> Hl']. split; [now right|exact Hl'].
  - intros pin w t Hl Ht. eexists. split; [exact (locked_attempt h pin w t Hl Ht)|].
    left. now eexists.
  - intros w t Hl Ht.
    destruct (right_attempt h w t Hl Ht) as (w' & Hrun & Hn & Hl' & _).
    now exists w'.
  - intros w t0 first9 t10 pin10 t11 pin Hn Hl Hlen Hall [Hpin Ht10] Ht11.
    cbn [fst snd] in *. rewrite attempts_app.
    destruct (wrong_attempts_count h Ha first9 w t0 0 Hn Hl Hall) as [Hn9 Hl9].
    { rewrite Hlen. unfold MAX_FAILED_ATTEMPTS. lia. }
    rewrite Hlen in Hn9. cbn [attempts].
    destruct (wrong_attempt h Ha pin10 (at_time t10 (attempts h first9 w)) t0 (0 + 9)%Z
                Hpin Hl9 Ht10 Hn9) as (e & w' & Hrun & Hn' & Hclock & Hc).
    rewrite Hrun. cbn [final].
    change (0 + Z.of_nat 9 + 1 <? MAX_FAILED_ATTEMPTS)%Z with false in Hc.
    destruct Hc as [_ Hl']. split; [exact Hn'|].
    eexists. split.
    + apply locked_attempt with (t := (t10 + LOCKOUT_DURATION)%Z).
      * exact Hl'.
      * cbn [at_time clock]. unfold LOCKOUT_DURATION. lia.
    + left. now eexists.
Qed.

Lemma roomy_accepting : accepting Browser.roomy.
Proof. intros ls. reflexivity. Qed.

Lemma admin_lockout_witness :
  accepting Browser.roomy
  /\ failedAttempts
       (attempts Browser.roomy (List.repeat (100%Z, "pear") 9 ++ [(100%Z, "pear")])
                 (Browser.fresh 0)) = Some 10%Z
  /\ exists e,
       checkAdminAccess Browser.roomy ADMIN_PIN
         (at_time 1000
            (attempts Browser.roomy (List.repeat (100%Z, "pear") 9 ++ [(100%Z, "pear")])
                      (Browser.fresh 0)))
       = Throw e
           (at_time 1000
              (attempts Browser.roomy (List.repeat (100%Z, "pear") 9 ++ [(100%Z, "pear")])
                        (Browser.fresh 0)))
       /\ LockedOut e.
Proof.
  split; [exact roomy_accepting|].
  apply (proj2 (proj2 (proj2 (admin_lockout Browser.roomy roomy_accepting)))
           (Browser.fresh 0) 0%Z (List.repeat (100%Z, "pear") 9) 100%Z "pear" 1000%Z
           ADMIN_PIN).
  - reflexivity.
  - reflexivity.
  - reflexivity.
  - simpl. repeat constructor; simpl; (discriminate || lia).
  - split; simpl; [discriminate|lia].
  - lia.
Defined.

(* ===================================================================== *)
(** ** C6: the fingerprint and the order of the records *)
(* ===================================================================== *)

(** *** Insertion sort with a total order *)

Lemma sortedBy_app {A : Type} (R : A -> A -> Prop) (l1 l2 : list A) :
  sortedBy R l1 -> sortedBy R l2 ->
  (forall a b, In a l1 -> In b l2 -> R a b) ->
  sortedBy R (l1 ++ l2).
Proof.
  induction l1 as [|x l1 IH]; intros H1 H2 H12; simpl; [exact H2|].
  destruct H1 as [Hx H1]. split.
  - apply List.Forall_app. split; [exact Hx|].
    apply List.Forall_forall. intros b Hb. apply H12; [now left|exact Hb].
  - apply IH; [exact H1|exact H2|]. intros a b Ha Hb. apply H12; [now right|exact Hb].
Qed.

Lemma sortedBy_rev {A : Type} (R : A -> A -> Prop) (l : list A) :
  sortedBy (fun a b => R b a) l -> sortedBy R (rev l).
Proof.
  induction l as [|x l IH]; intros Hs; simpl; [exact I|].
  destruct Hs as [Hx Hs]. apply sortedBy_app; [now apply IH|now split|].
  intros a b Ha [<-|[]]. apply in_rev in Ha.
  rewrite List.Forall_forall in Hx. now apply Hx.
Qed.

Section SortedBy.
Context {A : Type} (cmp : A -> A -> Z).

(** [a] may stand before [b]: the comparator does not send [b] first. *)
Let R (a b : A) : Prop := (0 <= cmp b a)%Z.

Lemma sort_insert_In (x y : A) (l : list A) :
  In y (sort_insert cmp x l) <-> y = x \/ In y l.
Proof.
  split; intros H.
  - apply (Permutation_in _ (sort_insert_perm cmp x l)) in H. destruct H; auto.
  - apply (Permutation_in _ (Permutation_sym (sort_insert_perm cmp x l))).
    destruct H; [left|right]; auto.
Qed.

Lemma Array_sort_In (y : A) (l : list A) : In y (Array_sort cmp l) <-> In y l.
Proof.
  split; apply Permutation_in; [|symmetry]; apply Array_sort_perm.
Qed.

(** The part sorted so far is kept with its last element first. *)
Lemma sort_insert_sorted (L : list A) (x : A) (l : list A) :
  (forall a b, In a L -> In b L -> R a b \/ R b a) ->
  (forall a b c, In a L -> In b L -> In c L -> R a b -> R b c -> R a c) ->
  In x L -> incl l L ->
  sortedBy (fun a b => R b a) l -> sortedBy (fun a b => R b a) (sort_insert cmp x l).
Proof.
  intros Htotal Htrans Hx. induction l as [|y l IH]; intros Hincl Hs; simpl.
  { split; [constructor|exact I]. }
  destruct Hs as [Hy Hs].
  assert (HyL : In y L) by (apply Hincl; now left).
  assert (HlL : incl l L) by (intros z Hz; apply Hincl; now right).
  destruct (Z.ltb_spec (cmp x y) 0) as [Hlt|Hge].
  - split; [|now apply IH].
    apply List.Forall_forall. intros z Hz. apply sort_insert_In in Hz as [->|Hz].
    + destruct (Htotal x y Hx HyL) as [H|H]; [exact H|unfold R in H; lia].
    + rewrite List.Forall_forall in Hy. now apply Hy.
  - split; [|now split]. constructor; [exact Hge|].
    rewrite List.Forall_forall in Hy. apply List.Forall_forall. intros z Hz.
    apply (Htrans z y x); auto.
Qed.

Lemma Array_sort_sorted (L l : list A) :
  (forall a b, In a L -> In b L -> R a b \/ R b a) ->
  (forall a b c, In a L -> In b L -> In c L -> R a b -> R b c -> R a c) ->
  incl l L ->
  sortedBy R (Array_sort cmp l).
Proof.
  intros Htotal Htrans Hincl.
  rewrite <- (rev_involutive (Array_sort cmp l)). apply sortedBy_rev.
  induction l as [|x l IH] using rev_ind; [exact I|].
  rewrite Array_sort_snoc, rev_involutive.
  apply (sort_insert_sorted L); [exact Htotal|exact Htrans| | |].
  - apply Hincl, in_or_app. right. now left.
  - intros z Hz. apply in_rev, (proj1 (Array_sort_In z l)) in Hz.
    apply Hincl, in_or_app. now left.
  - apply IH. intros z Hz. apply Hincl, in_or_app. now left.
Qed.

(** Two sorted arrangements of the same elements are the same list,
    when the order tells the elements apart. *)
Lemma sorted_unique (l1 l2 : list A) :
  (forall a b, In a l1 -> In b l1 -> R a b -> R b a -> a = b) ->
  sortedBy R l1 -> sortedBy R l2 -> Permutation l1 l2 -> l1 = l2.
Proof.
  revert l2. induction l1 as [|a l1 IH]; intros l2 Hanti H1 H2 Hp.
  { apply Permutation_nil in Hp. now subst. }
  destruct l2 as [|b l2].
  { symmetry in Hp. now apply Permutation_nil_cons in Hp. }
  destruct H1 as [Ha H1], H2 as [Hb H2].
  assert (Hab : a = b).
  { assert (Hina : In a (b :: l2)) by (apply (Permutation_in _ Hp); now left).
    assert (Hinb : In b (a :: l1))
      by (apply (Permutation_in _ (Permutation_sym Hp)); now left).
    destruct Hina as [->|Hina]; [reflexivity|].
    destruct Hinb as [->|Hinb]; [reflexivity|].
    rewrite List.Forall_forall in Ha, Hb.
    apply Hanti; [now left|now right|now apply Ha|now apply Hb]. }
  subst b. f_equal. apply IH; auto.
  - intros x y Hx Hy. apply Hanti; now right.
  - now apply Permutation_cons_inv in Hp.
Qed.

End SortedBy.

(** *** Sorting records by id *)

Section Fingerprint.
Variable h : Host.t.

Lemma byId_idOrder (a b : JSON) :
  idOf a <> None -> idOf b <> None -> byId h a b = Some (idOrder h a b).
Proof.
  unfold idOf, byId, idOrder, idOf. intros Ha Hb.
  destruct (prop "id" a) as [[]|]; try contradiction.
  destruct b; try (now cbn in Hb).
  cbn [prop] in *. destruct (assoc "id" props) as [[]|]; try contradiction. reflexivity.
Qed.

Lemma sort_insert_try_pure (x : JSON) (l : list JSON) :
  idOf x <> None -> List.Forall (fun r => idOf r <> None) l ->
  sort_insert_try (byId h) x l = Some (sort_insert (idOrder h) x l).
Proof.
  intros Hx Hl. induction Hl as [|y l Hy Hl IH]; simpl; [reflexivity|].
  rewrite byId_idOrder by assumption.
  destruct (idOrder h x y <? 0)%Z; [now rewrite IH|reflexivity].
Qed.

Lemma Array_sort_try_pure (l : list JSON) :
  List.Forall (fun r => idOf r <> None) l ->
  Array_sort_try (byId h) l = Some (Array_sort (idOrder h) l).
Proof.
  intros Hl. unfold Array_sort_try, Array_sort.
  assert (H : forall s, List.Forall (fun r => idOf r <> None) s ->
            fold_left (fun sorted x =>
                         match sorted with
                         | Some s => sort_insert_try (byId h) x s
                         | None => None
                         end) l (Some s)
            = Some (fold_left (fun sorted x => sort_insert (idOrder h) x sorted) l s)).
  { induction Hl as [|x l Hx Hl IH]; intros s Hs; cbn [fold_left]; [reflexivity|].
    rewrite sort_insert_try_pure by assumption. apply IH.
    apply List.Forall_forall. intros y Hy.
    apply (proj1 (sort_insert_In (idOrder h) x y s)) in Hy as [->|Hy]; [exact Hx|].
    rewrite List.Forall_forall in Hs. now apply Hs. }
  now rewrite H by constructor.
Qed.

Lemma idOf_In_idsOf (l : list JSON) (r : JSON) (s : string) :
  In r l -> idOf r = Some s -> In s (idsOf l).
Proof.
  intros Hin Hs. unfold idsOf. apply in_flat_map. exists r. split; [exact Hin|].
  rewrite Hs. now left.
Qed.

Lemma idOf_injective (l : list JSON) (a b : JSON) :
  List.NoDup (List.map idOf l) -> In a l -> In b l -> idOf a = idOf b -> a = b.
Proof.
  induction l as [|x l IH]; intros Hnd Ha Hb E; [contradiction|].
  simpl in Hnd. inversion Hnd as [|? ? Hn Hnd']; subst.
  destruct Ha as [->|Ha], Hb as [->|Hb]; auto.
  - exfalso. apply Hn. rewrite E. now apply in_map.
  - exfalso. apply Hn. rewrite <- E. now apply in_map.
Qed.

End Fingerprint.

Lemma same_id_hashes :
  generateDataHash Browser.roomy [Examples.sameId1; Examples.sameId2] = Some "si0w40"
  /\ generateDataHash Browser.roomy [Examples.sameId2; Examples.sameId1] = Some "3g7wgg".
Proof. split; vm_compute; reflexivity. Qed.

(** C6, as stated, fails: [sort] is stable and compares ids only, so
    two records with the same id stay in the order they came in. The
    list of two records with id [a1] and its reversal have different
    fingerprints. *)
Lemma fingerprint_depends_on_order :
  Permutation [Examples.sameId1; Examples.sameId2] [Examples.sameId2; Examples.sameId1]
  /\ generateDataHash Browser.roomy [Examples.sameId1; Examples.sameId2]
     <> generateDataHash Browser.roomy [Examples.sameId2; Examples.sameId1].
Proof.
  split; [apply perm_swap|].
  destruct same_id_hashes as [-> ->]. discriminate.
Qed.

(** C6, amended. For every list of records whose ids are strings, no
    two of them the same, that the collation orders totally and tells
    apart, and for every permutation of the list, [generateDataHash]
    gives the same fingerprint (and gives one). *)
Theorem fingerprint_of_permutation (h : Host.t) (l l' : list JSON) :
  List.Forall (fun r => idOf r <> None) l ->
  List.NoDup (List.map idOf l) ->
  collatesStrictly (Host.localeCompare h) (idsOf l) ->
  Permutation l l' ->
  generateDataHash h l = generateDataHash h l' /\ generateDataHash h l <> None.
Proof.
  intros Hl Hnd (Hanti & Htotal & Htrans) Hp.
  assert (Hl' : List.Forall (fun r => idOf r <> None) l') by now rewrite <- Hp.
  unfold generateDataHash. rewrite !Array_sort_try_pure by assumption.
  split; [|discriminate]. do 4 f_equal.
  assert (Hid : forall a, In a l -> exists s, idOf a = Some s /\ In s (idsOf l)).
  { intros a Ha. rewrite List.Forall_forall in Hl. specialize (Hl a Ha).
    destruct (idOf a) as [s|] eqn:E; [|contradiction].
    exists s. split; [reflexivity|]. eapply idOf_In_idsOf; eauto. }
  assert (HtotalR : forall a b, In a l -> In b l ->
            (0 <= idOrder h b a)%Z \/ (0 <= idOrder h a b)%Z).
  { intros a b Ha Hb. destruct (Hid a Ha) as (sa & Ea & Ia), (Hid b Hb) as (sb & Eb & Ib).
    unfold idOrder. rewrite Ea, Eb. now apply Htotal. }
  assert (HtransR : forall a b c, In a l -> In b l -> In c l ->
            (0 <= idOrder h b a)%Z -> (0 <= idOrder h c b)%Z -> (0 <= idOrder h c a)%Z).
  { intros a b c Ha Hb Hc.
    destruct (Hid a Ha) as (sa & Ea & Ia), (Hid b Hb) as (sb & Eb & Ib),
             (Hid c Hc) as (sc & Ec & Ic).
    unfold idOrder. rewrite Ea, Eb, Ec. now apply Htrans. }
  apply (sorted_unique (idOrder h)).
  - intros a b Ha Hb Hab Hba.
    apply (proj1 (Array_sort_In (idOrder h) a l)) in Ha.
    apply (proj1 (Array_sort_In (idOrder h) b l)) in Hb.
    destruct (Hid a Ha) as (sa & Ea & Ia), (Hid b Hb) as (sb & Eb & Ib).
    unfold idOrder in Hab, Hba. rewrite Ea, Eb in Hab, Hba.
    apply (idOf_injective l); auto. rewrite Ea, Eb. f_equal. now apply Hanti.
  - apply (Array_sort_sorted (idOrder h) l); auto. apply incl_refl.
  - apply (Array_sort_sorted (idOrder h) l); auto.
    intros z Hz. now apply (Permutation_in _ (Permutation_sym Hp)).
  - rewrite !Array_sort_perm. exact Hp.
Qed.

Lemma a1_b2_collate : collatesStrictly Browser.localeCompare ["a1"; "b2"].
Proof.
  split; [|split].
  - intros a b [<-|[<-|[]]] [<-|[<-|[]]] H1 H2; try reflexivity;
      vm_compute in H1, H2; exfalso;
      first [apply H1; reflexivity|apply H2; reflexivity].
  - intros a b [<-|[<-|[]]] [<-|[<-|[]]];
      first [left; vm_compute; discriminate|right; vm_compute; discriminate].
  - intros a b c [<-|[<-|[]]] [<-|[<-|[]]] [<-|[<-|[]]] H1 H2;
      vm_compute in H1, H2; vm_compute;
      first [discriminate|exfalso; apply H1; reflexivity|exfalso; apply H2; reflexivity].
Qed.

Lemma fingerprint_of_permutation_witness :
  Permutation [Examples.day1; Examples.day2] [Examples.day2; Examples.day1]
  /\ generateDataHash Browser.roomy [Examples.day1; Examples.day2]
     = generateDataHash Browser.roomy [Examples.day2; Examples.day1].
Proof.
  split; [apply perm_swap|].
  apply (fingerprint_of_permutation Browser.roomy [Examples.day1; Examples.day2]
                                    [Examples.day2; Examples.day1]).
  - repeat constructor; discriminate.
  - simpl. repeat constructor; simpl; intuition discriminate.
  - exact a1_b2_collate.
  - apply perm_swap.
Defined.

(* ===================================================================== *)
(** ** C7: backup and restore *)
(* ===================================================================== *)

(** *** One step of the storage functions *)

Section Unfold.
Variable h : Host.t.

Lemma saveRecords_S (fuel : nat) (records : JSON) (w : World) :
  saveRecords h (S fuel) records w
  = try_catch
      (match records with
       | JArr items =>
           let '(quota, w) := checkStorageQuota h w in
           let! (_, w) :=
             (if percentage_over 90 quota then handleQuotaExceeded h fuel w
              else Return tt w) in
           let dataString := Doc records in
           if (MAX_STORAGE_SIZE <? Z.of_nat (text_length dataString))%Z
           then Throw (Err "Data size exceeds maximum storage limit") w
           else
             let! (_, w) := setItem h ATTENDANCE_RECORDS dataString w in
             match generateDataHash h items with
             | None => Throw TypeError w
             | Some hash =>
                 let! (_, w) := setItem h DATA_INTEGRITY_HASH (Plain hash) w in
                 updateBackupMetadata h fuel w
             end
       | _ => Throw (Err "Records must be an array") w
       end)
      (fun error w =>
         let! (_, w) := handleStorageError h fuel error w in
         Throw error w).
Proof. reflexivity. Qed.

Lemma updateBackupMetadata_S (fuel : nat) (w : World) :
  updateBackupMetadata h (S fuel) w
  = try_catch
      (let! (records, w) := getRecords h fuel w in
       let metadata :=
         JObj [("lastUpdate", JNum (clock w));
               ("recordCount", JNum (Z.of_nat (List.length records)));
               ("version", JStr Storage.STORAGE_VERSION)] in
       setItem h BACKUP_METADATA (Doc metadata) w)
      (fun _ w => Return tt w).
Proof. reflexivity. Qed.


Lemma handleQuotaExceeded_S (fuel : nat) (w : World) :
  handleQuotaExceeded h (S fuel) w
  = try_catch
      (let w := cleanOldBackups h w in
       let! (records, w) := getRecords h fuel w in
       let! (_, w) :=
         (if (1000 <? List.length records)%nat then
            let sortedRecords := Array_sort (byTimestampDesc h) records in
            let recentRecords := slice0 800 sortedRecords in
            saveRecords h fuel (JArr recentRecords) w
          else Return tt w) in
       setItem h STORAGE_QUOTA_WARNING (Doc (JNum (clock w))) w)
      (fun _ w => Return tt w).
Proof. reflexivity. Qed.

End Unfold.

Section RoundTrip.
Variable h : Host.t.

(** Whatever [getRecords] went through, what it returns is the live set
    of the store it was called on. *)
Lemma getRecords_Return_live (fuel : nat) (w w' : World) (records : list JSON) :
  getRecords h fuel w = Return records w' -> records = live w.
Proof.
  destruct fuel as [|fuel]; [discriminate|]. cbn [getRecords]. unfold live, getItem.
  destruct (localStorage w !! ATTENDANCE_RECORDS) as [[s|v]|]; cbn.
  - destruct (String.eqb s EmptyString); [now intros [= <- _]|].
    intros Hr. apply bind_Return_inv in Hr as (a & w1 & _ & Hr). now injection Hr as <- _.
  - destruct v; now intros [= <- _].
  - now intros [= <- _].
Qed.

Lemma valid_has_required (r : JSON) : validRecord r = true -> hasRequiredFields r = true.
Proof.
  unfold validRecord, hasRequiredFields. intros H.
  apply andb_prop in H as [H Hreq]. apply andb_prop in H as [Ht _].
  now rewrite Ht, Hreq.
Qed.

Lemma filter_all {A : Type} (p : A -> bool) (l : list A) :
  List.Forall (fun x => p x = true) l -> List.filter p l = l.
Proof.
  induction 1 as [|x l Hx Hl IH]; simpl; [reflexivity|]. now rewrite Hx, IH.
Qed.

Lemma live_valid (w : World) : List.Forall (fun r => validRecord r = true) (live w).
Proof.
  unfold live, liveOf.
  destruct (localStorage w !! ATTENDANCE_RECORDS) as [[s|[]]|]; try constructor.
  apply List.Forall_forall. intros r Hin. now apply filter_In in Hin.
Qed.





(** [saveRecords] returns when the browser takes the writes, the stored
    payload can be read and holds at most 1000 live records (so that
    eviction has nothing to save), and the argument is small enough and
    can be fingerprinted. *)
Lemma saveRecords_succeeds (fuel : nat) (items : list JSON) (w : World) :
  accepting h ->
  readable (localStorage w !! ATTENDANCE_RECORDS) ->
  (List.length (live w) <= 1000)%nat ->
  (Z.of_nat (text_length (Doc (JArr items))) <= MAX_STORAGE_SIZE)%Z ->
  generateDataHash h items <> None ->
  exists w', saveRecords h (S (S (S (S fuel)))) (JArr items) w = Return tt w'.
Proof.
  intros Ha Hread Hlen Hsize Hhash. rewrite saveRecords_S.
  pose proof (checkStorageQuota_lookup h w ATTENDANCE_RECORDS eq_refl) as Hq.
  destruct (checkStorageQuota h w) as [quota w1]. cbn [snd] in Hq.
  assert (Hquota : exists w2,
            (if percentage_over 90 quota then handleQuotaExceeded h (S (S (S fuel))) w1
             else Return tt w1) = Return tt w2).
  { destruct (percentage_over 90 quota); [|now eexists].
    rewrite handleQuotaExceeded_S. cbv zeta.
    pose proof (cleanOldBackups_lookup h w1 ATTENDANCE_RECORDS eq_refl) as Hc.
    rewrite getRecords_readable by (rewrite Hc, Hq; exact Hread). cbn [bind].
    assert (El : live (cleanOldBackups h w1) = live w) by (unfold live; now rewrite Hc, Hq).
    rewrite El. apply Nat.leb_le in Hlen. rewrite Nat.ltb_antisym, Hlen. cbn [negb bind].
    unfold setItem. rewrite Ha. cbn [try_catch]. now eexists. }
  destruct Hquota as [w2 ->]. cbn [bind]. cbv zeta.
  apply Z.ltb_ge in Hsize. rewrite Hsize.
  unfold setItem at 1. rewrite Ha. cbn [bind].
  destruct (generateDataHash h items) as [hash|]; [|contradiction].
  unfold setItem at 1. rewrite Ha. cbn [bind]. rewrite updateBackupMetadata_S.
  rewrite getRecords_readable.
  2:{ unfold with_storage. cbn [localStorage].
      rewrite lookup_insert_ne by discriminate. rewrite lookup_insert_eq. exact I. }
  cbn [bind]. cbv zeta. unfold setItem. rewrite Ha. cbn [try_catch]. now eexists.
Qed.

Lemma generateDataHash_some (items : list JSON) :
  List.Forall (fun r => idOf r <> None) items -> generateDataHash h items <> None.
Proof.
  intros Hid. unfold generateDataHash. now rewrite Array_sort_try_pure.
Qed.

End RoundTrip.


Lemma twoDays_readable : readable (localStorage Examples.twoDays !! ATTENDANCE_RECORDS).
Proof. vm_compute. exact I. Qed.



(* ===================================================================== *)
(** ** C9: updates that set neither the number nor the role *)
(* ===================================================================== *)

Section Update.
Variable h : Host.t.







End Update.




(* ===================================================================== *)
(** ** C10: what a search selects *)
(* ===================================================================== *)

Lemma prefix_spec (q s : string) :
  String.prefix q s = true <-> exists b, s = q +:+ b.
Proof.
  revert s. induction q as [|c q IH]; intros s.
  - split; [intros _; now exists s|intros _; now destruct s].
  - destruct s as [|d s]; simpl.
    + split; [discriminate|intros [b Hb]; discriminate Hb].
    + destruct (Ascii.ascii_dec c d) as [->|Hne].
      * rewrite IH. split; intros [b Hb]; exists b; [now rewrite Hb|now injection Hb].
      * split; [discriminate|]. intros [b Hb]. injection Hb as Hd _. now symmetry in Hd.
Qed.

Lemma includes_spec (q s : string) : includes q s = true <-> substring_of q s.
Proof.
  split.
  - induction s as [|c s IH]; cbn [includes]; intros H.
    + rewrite orb_false_r in H. apply prefix_spec in H as [b Hb].
      now exists EmptyString, b.
    + apply orb_prop in H as [H|H].
      * apply prefix_spec in H as [b Hb]. now exists EmptyString, b.
      * destruct (IH H) as (a & b & ->). now exists (String c a), b.
  - intros (a & b & ->). induction a as [|c a IH].
    + assert (Hp : String.prefix q (q +:+ b) = true) by (apply prefix_spec; now exists b).
      change (EmptyString +:+ q +:+ b) with (q +:+ b).
      revert Hp. generalize (q +:+ b). intros s Hp.
      destruct s; cbn [includes]; now rewrite Hp.
    + change (String c a +:+ q +:+ b) with (String c (a +:+ q +:+ b)).
      cbn [includes]. rewrite IH. apply orb_true_r.
Qed.

(** *** [toLowerCase] and letter case *)

Lemma N_of_ascii_bound (c : ascii) : (N_of_ascii c < 256)%N.
Proof. apply N_ascii_bounded. Qed.

Lemma N_of_small (n : N) : (n < 256)%N -> N_of_ascii (ascii_of_N n) = n.
Proof. apply N_ascii_embedding. Qed.

(** [toLowerCase] sends a capital to its small letter and leaves the
    other characters alone. *)
Lemma lower_char_spec (c : ascii) :
  lower_char c = if capital c then small_of c else c.
Proof.
  unfold lower_char, capital, small_of. cbv zeta.
  destruct ((65 <=? N_of_ascii c) && (N_of_ascii c <=? 90))%N; [reflexivity|].
  cbn [orb]. now destruct (_ && _ && _)%N.
Qed.

Lemma capital_range (c : ascii) :
  capital c = true ->
  (65 <= N_of_ascii c <= 90 \/ 192 <= N_of_ascii c <= 222 /\ N_of_ascii c <> 215)%N.
Proof.
  unfold capital. cbv zeta.
  rewrite Bool.orb_true_iff, !Bool.andb_true_iff, Bool.negb_true_iff, !N.leb_le, N.eqb_neq.
  tauto.
Qed.

Lemma capital_small_of (c : ascii) : capital c = true -> capital (small_of c) = false.
Proof.
  intros Hc. apply capital_range in Hc. apply Bool.not_true_iff_false. intros Hs.
  apply capital_range in Hs. unfold small_of in Hs.
  rewrite N_of_small in Hs by lia. lia.
Qed.

Lemma small_of_injective (c d : ascii) :
  capital c = true -> capital d = true -> small_of c = small_of d -> c = d.
Proof.
  intros Hc Hd E. apply capital_range in Hc, Hd. unfold small_of in E.
  apply (f_equal N_of_ascii) in E. rewrite !N_of_small in E by lia.
  rewrite <- (ascii_N_embedding c), <- (ascii_N_embedding d). f_equal. lia.
Qed.

Lemma lower_char_sameLetter (c d : ascii) :
  lower_char c = lower_char d <-> sameLetter c d.
Proof.
  rewrite !lower_char_spec. unfold sameLetter. split.
  - destruct (capital c) eqn:Hc, (capital d) eqn:Hd; intros E.
    + left. now apply small_of_injective.
    + right. left. now split.
    + right. right. now split.
    + now left.
  - intros [->|[[Hc ->]|[Hd ->]]].
    + reflexivity.
    + now rewrite Hc, (capital_small_of c Hc).
    + now rewrite Hd, (capital_small_of d Hd).
Qed.

Lemma toLowerCase_caseless (a b : string) :
  toLowerCase a = toLowerCase b <-> caseless a b.
Proof.
  revert b. induction a as [|c a IH]; intros [|d b]; cbn [toLowerCase caseless];
    try (split; [discriminate|contradiction]); [tauto|].
  rewrite <- IH, <- lower_char_sameLetter. split.
  - now intros [= -> ->].
  - now intros [-> ->].
Qed.

Lemma toLowerCase_app (a b : string) :
  toLowerCase (a +:+ b) = toLowerCase a +:+ toLowerCase b.
Proof.
  induction a as [|c a IH]; [reflexivity|].
  change (String c a +:+ b) with (String c (a +:+ b)). cbn [toLowerCase]. now rewrite IH.
Qed.

(** A text whose lower-case form splits in two splits the same way. *)
Lemma toLowerCase_split (s a' b' : string) :
  toLowerCase s = a' +:+ b' ->
  exists a b, s = a +:+ b /\ toLowerCase a = a' /\ toLowerCase b = b'.
Proof.
  revert s. induction a' as [|c a' IH]; intros s E.
  - now exists EmptyString, s.
  - destruct s as [|d s]; [discriminate E|]. cbn in E. injection E as Hc E.
    destruct (IH s E) as (a & b & -> & Ha & Hb).
    exists (String d a), b. cbn. now rewrite Hc, Ha.
Qed.

(** What the test of [searchPrefectRecords] decides: the query occurs
    in the number, letter case apart. *)
Lemma lower_includes_spec (q p : string) :
  substring_of (toLowerCase q) (toLowerCase p) <-> occurs_caseless q p.
Proof.
  split.
  - intros (a' & b' & E).
    apply toLowerCase_split in E as (a & mb & -> & Ha & E).
    apply toLowerCase_split in E as (m & b & -> & Hm & Hb).
    exists a, m, b. split; [reflexivity|]. now apply toLowerCase_caseless.
  - intros (a & m & b & -> & Hc). apply toLowerCase_caseless in Hc.
    exists (toLowerCase a), (toLowerCase b). now rewrite !toLowerCase_app, Hc.
Qed.

Lemma caseless_length (a b : string) : caseless a b -> String.length a = String.length b.
Proof.
  revert b. induction a as [|c a IH]; intros [|d b]; cbn; try contradiction; [reflexivity|].
  intros [_ H]. f_equal. now apply IH.
Qed.

Lemma filter_try_selected (q : string) (l : list JSON) :
  List.Forall numbered l ->
  filter_try (matchesQuery q) l = Some (List.filter (selected q) l).
Proof.
  induction 1 as [|r l [p Hp] Hl IH]; [reflexivity|].
  cbn [filter_try List.filter]. rewrite IH. unfold selected, matchesQuery. rewrite Hp.
  now destruct (includes (toLowerCase q) (toLowerCase p)).
Qed.

Lemma selected_spec (q : string) (r : JSON) :
  selected q r = true
  <-> exists p, prop "prefectNumber" r = Some (JStr p) /\ occurs_caseless q p.
Proof.
  unfold selected, matchesQuery. split.
  - destruct (prop "prefectNumber" r) as [[]|]; try discriminate.
    destruct (includes _ _) eqn:Ei; [|discriminate].
    intros _. eexists. split; [reflexivity|]. now apply lower_includes_spec, includes_spec.
  - intros (p & -> & Hs). apply lower_includes_spec, includes_spec in Hs. now rewrite Hs.
Qed.

Lemma sortedBy_impl {A : Type} (R R' : A -> A -> Prop) (l : list A) :
  (forall a b, In a l -> In b l -> R a b -> R' a b) ->
  sortedBy R l -> sortedBy R' l.
Proof.
  induction l as [|x l IH]; simpl; [trivial|]. intros Himp [Hx Hs]. split.
  - apply List.Forall_forall. intros y Hy. rewrite List.Forall_forall in Hx. auto.
  - apply IH; auto.
Qed.

(** On valid dates the comparator of the search is the difference of
    the two instants. *)
Lemma byTimestampDesc_timed (h : Host.t) (a b : JSON) (ta tb : Z) :
  Date_getTime h (prop "timestamp" a) = Some ta ->
  Date_getTime h (prop "timestamp" b) = Some tb ->
  byTimestampDesc h a b = (tb - ta)%Z.
Proof. intros Ha Hb. unfold byTimestampDesc. now rewrite Ha, Hb. Qed.

Lemma Array_sort_newest_first (h : Host.t) (l : list JSON) :
  List.Forall (timed h) l -> sortedBy (notOlder h) (Array_sort (byTimestampDesc h) l).
Proof.
  intros Ht. rewrite List.Forall_forall in Ht.
  apply (sortedBy_impl (fun a b => (0 <= byTimestampDesc h b a)%Z)).
  - intros a b Ha Hb Hle. apply Array_sort_In in Ha, Hb.
    destruct (Ht a Ha) as [ta Hta], (Ht b Hb) as [tb Htb].
    rewrite (byTimestampDesc_timed h b a tb ta Htb Hta) in Hle.
    exists ta, tb. split; [exact Hta|]. split; [exact Htb|]. lia.
  - apply (Array_sort_sorted (byTimestampDesc h) l l).
    + intros a b Ha Hb.
      destruct (Ht a Ha) as [ta Hta], (Ht b Hb) as [tb Htb].
      rewrite (byTimestampDesc_timed h b a tb ta Htb Hta),
              (byTimestampDesc_timed h a b ta tb Hta Htb). lia.
    + intros a b c Ha Hb Hc.
      destruct (Ht a Ha) as [ta Hta], (Ht b Hb) as [tb Htb], (Ht c Hc) as [tc Htc].
      rewrite (byTimestampDesc_timed h b a tb ta Htb Hta),
              (byTimestampDesc_timed h c b tc tb Htc Htb),
              (byTimestampDesc_timed h c a tc ta Htc Hta). lia.
    + intros x Hx. exact Hx.
Qed.

(** C10. On a readable store whose live records carry a string as
    [prefectNumber], [searchPrefectRecords q] returns, leaving the store
    as it is, the live records in whose number [q] occurs, letter case
    apart: each of them as often as it is stored and no other record,
    so not only those whose number is [q]. Where the timestamps are
    valid dates the result is ordered newest first. [getPrefectStats q]
    counts exactly the records of this result and [exportPrefectReport
    q] has one line for each, in its order. *)
Theorem search_selects_substrings (h : Host.t) (fuel : nat) (q : string) (w : World) :
  readable (localStorage w !! ATTENDANCE_RECORDS) ->
  List.Forall numbered (live w) ->
  exists found,
    searchPrefectRecords h (S fuel) q w = Return found w
    /\ Permutation (List.filter (selected q) (live w)) found
    /\ (forall r, In r found <->
                  In r (live w)
                  /\ exists p, prop "prefectNumber" r = Some (JStr p)
                               /\ occurs_caseless q p)
    /\ (List.Forall (timed h) (live w) -> sortedBy (notOlder h) found)
    /\ (exists stats, getPrefectStats h (S fuel) q w = Return stats w
                      /\ totalDays stats = List.length found
                      /\ recentRecords stats = slice0 10 found)
    /\ prefectReportLines h (S fuel) q w
       = Return (List.map (reportLine h "date") found) w.
Proof.
  intros Hread Hnum.
  set (found := Array_sort (byTimestampDesc h) (List.filter (selected q) (live w))).
  assert (Hs : searchPrefectRecords h (S fuel) q w = Return found w).
  { unfold searchPrefectRecords. rewrite getRecords_readable by exact Hread.
    cbn [bind]. now rewrite filter_try_selected. }
  exists found.
  split; [exact Hs|]. split; [symmetry; apply Array_sort_perm|]. split; [|split; [|split]].
  - intros r. unfold found. rewrite Array_sort_In, filter_In, selected_spec. reflexivity.
  - intros Ht. apply Array_sort_newest_first.
    apply List.Forall_forall. intros r Hr. apply filter_In in Hr as [Hr _].
    rewrite List.Forall_forall in Ht. now apply Ht.
  - unfold getPrefectStats. rewrite Hs. cbn [bind]. eexists. split; [reflexivity|].
    split; reflexivity.
  - unfold prefectReportLines. now rewrite Hs.
Qed.

Lemma mixedCase_live :
  live Examples.mixedCase
  = [Examples.prefectA42; Examples.prefecta420; Examples.prefect7].
Proof. vm_compute. reflexivity. Qed.

Lemma mixedCase_readable :
  readable (localStorage Examples.mixedCase !! ATTENDANCE_RECORDS).
Proof. vm_compute. exact I. Qed.

Lemma mixedCase_selected :
  List.filter (selected "a42") (live Examples.mixedCase)
  = [Examples.prefectA42; Examples.prefecta420].
Proof. vm_compute. reflexivity. Qed.

Lemma mixedCase_timed : List.Forall (timed Browser.roomy) (live Examples.mixedCase).
Proof.
  rewrite mixedCase_live. repeat constructor; eexists; vm_compute; reflexivity.
Qed.

(** The query [a42] finds the numbers [A42] and [a420], and not [7]. *)
Lemma search_selects_substrings_witness :
  exists found,
    searchPrefectRecords Browser.roomy 1 "a42" Examples.mixedCase
    = Return found Examples.mixedCase
    /\ Permutation [Examples.prefectA42; Examples.prefecta420] found
    /\ sortedBy (notOlder Browser.roomy) found
    /\ exists stats,
         getPrefectStats Browser.roomy 1 "a42" Examples.mixedCase
         = Return stats Examples.mixedCase
         /\ totalDays stats = 2%nat.
Proof.
  destruct (search_selects_substrings Browser.roomy 0 "a42" Examples.mixedCase)
    as (found & Hs & Hp & _ & Ht & (stats & Hg & Hn & _) & _).
  - exact mixedCase_readable.
  - rewrite mixedCase_live. repeat constructor; now eexists.
  - rewrite mixedCase_selected in Hp.
    exists found. split; [exact Hs|]. split; [exact Hp|].
    split; [exact (Ht mixedCase_timed)|].
    exists stats. split; [exact Hg|]. rewrite Hn.
    now rewrite <- (Permutation_length Hp).
Defined.

(* ===================================================================== *)
(** ** Further properties of the record operations *)
(* ===================================================================== *)

(** The ids of a given list are strings, by a run over the list. *)
Lemma ids_are_strings (items : list JSON) :
  forallb (fun r => match idOf r with Some _ => true | None => false end) items = true ->
  List.Forall (fun r => idOf r <> None) items.
Proof.
  intros H. apply List.Forall_forall. intros r Hr.
  rewrite forallb_forall in H. specialize (H r Hr). now destruct (idOf r).
Qed.

Ltac savable_by_computation :=
  split; [exact roomy_accepting|];
  split; [vm_compute; exact I|];
  split; [vm_compute; reflexivity|];
  split; [vm_compute; reflexivity|apply ids_are_strings; vm_compute; reflexivity].

Section Saving.
Variable h : Host.t.

Lemma savable_saves (fuel : nat) (w : World) (items : list JSON) :
  savable h w items ->
  exists w', saveRecords h (S (S (S (S fuel)))) (JArr items) w = Return tt w'
             /\ localStorage w' !! ATTENDANCE_RECORDS = Some (Doc (JArr items))
             /\ live w' = List.filter validRecord items.
Proof.
  intros (Ha & Hread & Hlen & Hsize & Hids).
  apply Nat.leb_le in Hlen. apply Z.leb_le in Hsize.
  destruct (saveRecords_succeeds h fuel items w Ha Hread Hlen Hsize
              (generateDataHash_some h items Hids)) as [w' Hs].
  exists w'. split; [exact Hs|].
  pose proof (saveRecords_Return_live _ _ _ _ _ _ Hs) as Hl.
  apply saveRecords_Return in Hs as (items' & [= <-] & Hp). now split.
Qed.

Lemma filter_valid_live (p : JSON -> bool) (w : World) :
  List.filter validRecord (List.filter p (live w)) = List.filter p (live w).
Proof.
  apply filter_all. apply List.Forall_forall. intros r Hr.
  apply filter_In in Hr as [Hr _].
  pose proof (live_valid w) as Hv. rewrite List.Forall_forall in Hv. now apply Hv.
Qed.


Lemma sameTriple_spec (p r d : string) (record : JSON) :
  sameTriple (Some (JStr p)) (Some (JStr r)) (Some (JStr d)) record = true
  <-> prop "prefectNumber" record = Some (JStr p)
      /\ prop "role" record = Some (JStr r)
      /\ prop "date" record = Some (JStr d).
Proof.
  unfold sameTriple.
  assert (Hs : forall (x : option JSON) (s : string),
             strict_eq_opt x (Some (JStr s)) = true <-> x = Some (JStr s)).
  { intros x s. destruct x as [[| | |s'| |]|]; simpl; split; try discriminate.
    - intros E. apply String.eqb_eq in E. now subst.
    - intros [= ->]. apply String.eqb_refl. }
  rewrite !andb_true_iff, !Hs. tauto.
Qed.

Lemma registered_spec (p r d : string) (l : list JSON) :
  existsb (sameTriple (Some (JStr p)) (Some (JStr r)) (Some (JStr d))) l = true
  <-> registered p r d l.
Proof.
  rewrite existsb_exists. unfold registered.
  split; intros (x & Hin & Hx); exists x; (split; [exact Hin|]); now apply sameTriple_spec.
Qed.

End Saving.

(** X1. [deleteAttendance id] removes every live record with that id and
    keeps the others in their order; an id that no record has is not an
    error: the call returns and the live set is as before. The only
    error it throws is its own message. It returns when the remaining
    list can be saved: the browser takes the writes, the payload can be
    read and holds at most 1000 live records, and the list is within
    the size limit and has strings for ids. *)
Theorem delete_removes_every_match (h : Host.t) (fuel : nat) (id : string) (w : World) :
  (forall w', deleteAttendance h fuel id w = Return tt w' ->
     live w' = List.filter (fun r => negb (hasId id r)) (live w)
     /\ (List.Forall (fun r => hasId id r = false) (live w) -> live w' = live w))
  /\ (forall e w', deleteAttendance h fuel id w = Throw e w' ->
        e = Err "Failed to delete attendance record. Please try again.")
  /\ (savable h w (List.filter (fun r => negb (hasId id r)) (live w)) ->
      exists w', deleteAttendance h (S (S (S (S fuel)))) id w = Return tt w').
Proof.
  split; [|split].
  - intros w' Hd. unfold deleteAttendance in Hd.
    apply try_catch_Return_inv in Hd as [Hd|(e & w1 & _ & Hd)]; [|discriminate Hd].
    unfold deleteRecord in Hd.
    apply bind_Return_inv in Hd as (records & w0 & Hget & Hs).
    apply getRecords_Return_live in Hget as ->.
    apply saveRecords_Return_live in Hs. rewrite filter_valid_live in Hs.
    split; [exact Hs|]. intros Hnone. rewrite Hs. apply filter_all.
    eapply List.Forall_impl; [|exact Hnone]. intros r Hr. now rewrite Hr.
  - intros e w' Hd. unfold deleteAttendance in Hd.
    destruct (deleteRecord h fuel id w); cbn [try_catch] in Hd; try discriminate Hd.
    now injection Hd as <- _.
  - intros Hs. destruct (savable_saves h fuel w _ Hs) as (w' & Hsave & _).
    exists w'. unfold deleteAttendance, deleteRecord.
    destruct Hs as (_ & Hread & _).
    rewrite getRecords_readable by exact Hread. cbn [bind]. now rewrite Hsave.
Qed.

Lemma delete_removes_every_match_witness :
  exists w',
    deleteAttendance Browser.roomy 4 "a1" Examples.twoDays = Return tt w'
    /\ live w' = [Examples.day2].
Proof.
  destruct (proj2 (proj2 (delete_removes_every_match Browser.roomy 0 "a1" Examples.twoDays)))
    as [w' Hd].
  - savable_by_computation.
  - exists w'. split; [exact Hd|].
    destruct (proj1 (delete_removes_every_match Browser.roomy 4 "a1" Examples.twoDays) w' Hd)
      as [Hl _].
    rewrite Hl, twoDays_live. reflexivity.
Defined.



(** X3. On a readable store, [saveManualAttendance] throws its duplicate
    error exactly when a live record already has the number, the role and
    the local date of the timestamp; nothing is written then, and no id
    is drawn. *)
Theorem save_rejects_second_registration (h : Host.t) (fuel : nat)
  (prefectNumber role : string) (timestamp : Z) (w : World) :
  readable (localStorage w !! ATTENDANCE_RECORDS) ->
  (registered prefectNumber role (Host.toLocaleDateString h timestamp) (live w) ->
   saveManualAttendance h (S fuel) prefectNumber role timestamp w
   = Throw (Err (duplicateTodayMessage prefectNumber role)) w)
  /\ (forall w',
        saveManualAttendance h (S fuel) prefectNumber role timestamp w
        = Throw (Err (duplicateTodayMessage prefectNumber role)) w' ->
        registered prefectNumber role (Host.toLocaleDateString h timestamp) (live w)).
Proof.
  intros Hread. unfold saveManualAttendance, checkDuplicateAttendance.
  rewrite getRecords_readable by exact Hread. cbn [bind]. split.
  - intros Hreg. apply registered_spec in Hreg. now rewrite Hreg.
  - intros w'.
    destruct (existsb _ (live w)) eqn:Ex; [intros _; now apply registered_spec|].
    destruct (draw h w) as [id w1].
    match goal with |- context [try_catch ?m _] => destruct m end;
      cbn [try_catch]; intros Hthrow; discriminate Hthrow.
Qed.

Lemma save_rejects_second_registration_witness :
  saveManualAttendance Browser.roomy 1 "42" "Senior" Examples.monday Examples.twoDays
  = Throw (Err "A prefect with number 42 has already registered for role Senior today.")
          Examples.twoDays.
Proof.
  apply (proj1 (save_rejects_second_registration Browser.roomy 0 "42" "Senior"
                  Examples.monday Examples.twoDays twoDays_readable)).
  exists Examples.day1. rewrite twoDays_live.
  split; [now left|]. split; [reflexivity|]. split; reflexivity.
Defined.

(** X4. A restore replaces the live set wholesale: when
    [restoreFromBackup] returns, the live records are exactly the valid
    records of the backup, in the backup's order; what was live before
    and is not in the backup is gone. It returns when the backup's
    records can be saved: the browser takes the writes, the payload can
    be read and holds at most 1000 live records, and the records with
    the required fields are within the size limit and have strings for
    ids. *)
Theorem restore_replaces_the_live_set (h : Host.t) (fuel : nat) (v : JSON) (w : World) :
  (forall w', restoreFromBackup h fuel (Doc v) w = Return tt w' ->
     exists records,
       prop "records" v = Some (JArr records)
       /\ live w' = List.filter validRecord records)
  /\ (forall records,
        prop "records" v = Some (JArr records) ->
        savable h w (List.filter hasRequiredFields records) ->
        exists w',
          restoreFromBackup h (S (S (S (S fuel)))) (Doc v) w = Return tt w'
          /\ live w' = List.filter validRecord records).
Proof.
  assert (Hf : forall records,
             List.filter validRecord (List.filter hasRequiredFields records)
             = List.filter validRecord records).
  { intros records. induction records as [|r l IH]; [reflexivity|]. cbn [List.filter].
    destruct (hasRequiredFields r) eqn:Hr; cbn [List.filter]; rewrite IH; [reflexivity|].
    destruct (validRecord r) eqn:Hv; [|reflexivity].
    apply valid_has_required in Hv. congruence. }
  split.
  - intros w' Hr. unfold restoreFromBackup in Hr. cbn [JSON_parse] in Hr.
    destruct v; try discriminate Hr;
      (destruct (prop "records" _) as [[]|] eqn:Ep; try discriminate Hr).
    all: apply saveRecords_Return_live in Hr; eexists; split; [reflexivity|];
      now rewrite Hr, Hf.
  - intros records Hp Hs. destruct (savable_saves h fuel w _ Hs) as (w' & Hsave & _ & Hl).
    exists w'. rewrite Hf in Hl. split; [|exact Hl].
    unfold restoreFromBackup. cbn [JSON_parse].
    destruct v; try discriminate Hp; now rewrite Hp.
Qed.

Lemma restore_replaces_the_live_set_witness :
  exists w',
    restoreFromBackup Browser.roomy 4 (Examples.backupOf [Examples.day2]) Examples.twoDays
    = Return tt w'
    /\ live w' = [Examples.day2].
Proof.
  apply (proj2 (restore_replaces_the_live_set Browser.roomy 0
                  (backupData Examples.monday [Examples.day2] [("type", JStr "manual")])
                  Examples.twoDays) [Examples.day2]).
  - reflexivity.
  - savable_by_computation.
Defined.

(* ===================================================================== *)
(** ** The integrity check and data recovery *)
(* ===================================================================== *)

Lemma with_storage_same (w : World) : with_storage w (localStorage w) = w.
Proof. now destruct w. Qed.

Section Integrity.
Variable h : Host.t.

Lemma updateBackupMetadata_other (fuel : nat) (w w' : World) (u : unit) (k : string) :
  updateBackupMetadata h fuel w = Return u w' ->
  readable (localStorage w !! ATTENDANCE_RECORDS) ->
  k <> BACKUP_METADATA ->
  localStorage w' !! k = localStorage w !! k.
Proof.
  destruct fuel as [|fuel]; [discriminate|]. cbn [updateBackupMetadata].
  intros Hr Hread Hk. destruct fuel as [|fuel]; [cbn in Hr; congruence|].
  rewrite getRecords_readable in Hr by exact Hread. cbn [bind] in Hr.
  apply try_catch_Return_inv in Hr as [Hr|(e & w1 & Hr & Hh)].
  - apply setItem_Return in Hr as (-> & _ & _). apply lookup_insert_ne. congruence.
  - apply setItem_Throw in Hr as [-> _]. cbn in Hh. congruence.
Qed.

(** When [saveRecords] returns, the stored fingerprint is the one of the
    list it was given. *)
Lemma saveRecords_Return_hash (fuel : nat) (items : list JSON) (w w' : World) (u : unit) :
  saveRecords h fuel (JArr items) w = Return u w' ->
  exists hash,
    generateDataHash h items = Some hash
    /\ localStorage w' !! DATA_INTEGRITY_HASH = Some (Plain hash).
Proof.
  destruct fuel as [|fuel]; [discriminate|]. cbn [saveRecords]. intros Hr.
  apply try_catch_Return_inv in Hr as [Hr|(e & w1 & _ & Hh)].
  2:{ apply bind_Return_inv in Hh as (a & w2 & _ & Hh). discriminate. }
  destruct (checkStorageQuota h w) as [quota w1].
  apply bind_Return_inv in Hr as (a & w2 & _ & Hr).
  destruct (_ <? _)%Z; [discriminate|].
  apply bind_Return_inv in Hr as (a3 & w3 & Hset & Hr).
  apply setItem_Return in Hset as (Hls3 & _ & _).
  destruct (generateDataHash h items) as [hash|]; [|discriminate].
  apply bind_Return_inv in Hr as (a4 & w4 & Hset & Hr).
  apply setItem_Return in Hset as (Hls4 & _ & _).
  exists hash. split; [reflexivity|].
  rewrite (updateBackupMetadata_other _ _ _ _ DATA_INTEGRITY_HASH Hr).
  - rewrite Hls4. apply lookup_insert_eq.
  - rewrite Hls4, lookup_insert_ne by discriminate. rewrite Hls3, lookup_insert_eq. exact I.
  - discriminate.
Qed.

(** The check on a store whose fingerprint is the one of its live
    records (or that has none yet): the fingerprint is written and the
    check holds. *)
Lemma verify_consistent (fuel : nat) (w : World) (hash : string) :
  accepting h ->
  readable (localStorage w !! ATTENDANCE_RECORDS) ->
  generateDataHash h (live w) = Some hash ->
  hashMismatch (getItem DATA_INTEGRITY_HASH w) hash = false ->
  verifyDataIntegrity h (S fuel) w
  = Return true (with_storage w (<[DATA_INTEGRITY_HASH := Plain hash]> (localStorage w))).
Proof.
  intros Ha Hread Hhash Hm. unfold verifyDataIntegrity.
  rewrite getRecords_readable by exact Hread. cbn [bind]. rewrite Hhash, Hm.
  unfold setItem. now rewrite Ha.
Qed.

Lemma hashMismatch_same (hash : string) :
  hashMismatch (Some (Plain hash)) hash = false.
Proof. unfold hashMismatch. cbn [text_string]. rewrite String.eqb_refl. apply andb_false_r. Qed.

End Integrity.

(** X5. The integrity check agrees with what [saveRecords] wrote: after a
    save of valid records that returned, [verifyDataIntegrity] returns
    [true] and leaves the store exactly as it is, whenever the browser
    takes the write of the fingerprint. *)
Theorem save_then_verify (h : Host.t) (f1 fuel : nat) (items : list JSON) (w w1 : World) :
  accepting h ->
  List.Forall (fun r => validRecord r = true) items ->
  saveRecords h f1 (JArr items) w = Return tt w1 ->
  verifyDataIntegrity h (S fuel) w1 = Return true w1.
Proof.
  intros Ha Hvalid Hs.
  destruct (saveRecords_Return_hash h _ _ _ _ _ Hs) as (hash & Hhash & Hstored).
  pose proof (saveRecords_Return_live _ _ _ _ _ _ Hs) as Hl.
  rewrite (filter_all _ _ Hvalid) in Hl.
  apply saveRecords_Return in Hs as (items' & [= <-] & Hp).
  rewrite (verify_consistent h fuel w1 hash Ha).
  - rewrite insert_id by exact Hstored. now rewrite with_storage_same.
  - now rewrite Hp.
  - now rewrite Hl.
  - unfold getItem. rewrite Hstored. apply hashMismatch_same.
Qed.

Lemma twoDays_saved :
  saveRecords Browser.roomy 4 (JArr [Examples.day1; Examples.day2]) (Browser.fresh Examples.monday)
  = Return tt Examples.twoDays.
Proof. vm_compute. reflexivity. Qed.

Lemma save_then_verify_witness :
  verifyDataIntegrity Browser.roomy 1 Examples.twoDays = Return true Examples.twoDays.
Proof.
  apply (save_then_verify Browser.roomy 4 0 [Examples.day1; Examples.day2]
           (Browser.fresh Examples.monday) Examples.twoDays roomy_accepting).
  - repeat constructor.
  - exact twoDays_saved.
Defined.


(** *** The keys of the store *)

Lemma keys_spec (h : Host.t) (w : World) (k : string) :
  In k (keys h w) <-> localStorage w !! k <> None.
Proof.
  unfold keys.
  assert (Hk : In k (List.map fst (map_to_list (localStorage w)))
               <-> localStorage w !! k <> None).
  { rewrite in_map_iff. split.
    - intros ([k' v] & <- & Hin). apply list_elem_of_In, elem_of_map_to_list in Hin.
      cbn [fst]. congruence.
    - intros Hne. destruct (localStorage w !! k) as [v|] eqn:E; [|congruence].
      exists (k, v). split; [reflexivity|].
      now apply list_elem_of_In, elem_of_map_to_list. }
  rewrite <- Hk. split; apply Permutation_in;
    [apply Host.keysOf_perm|symmetry; apply Host.keysOf_perm].
Qed.

Lemma keys_NoDup (h : Host.t) (w : World) : List.NoDup (keys h w).
Proof.
  unfold keys.
  apply (Permutation_NoDup (Permutation_sym (Host.keysOf_perm h (localStorage w)))).
  apply NoDup_ListNoDup, NoDup_fst_map_to_list.
Qed.

Lemma sortedBackups_keys (h : Host.t) (w : World) :
  Permutation (List.map fst (sortedBackups h w)) (List.filter isBackupKey (keys h w)).
Proof.
  unfold sortedBackups.
  etransitivity; [apply Permutation_map, Array_sort_perm|].
  rewrite List.map_map. cbn [fst]. now rewrite List.map_id.
Qed.








Lemma twoDays_backup_keys :
  List.filter isBackupKey (keys Browser.roomy Examples.twoDays) = [BACKUP_METADATA].
Proof. vm_compute. reflexivity. Qed.



(* ===================================================================== *)
(** ** Migration and start-up *)
(* ===================================================================== *)

(** *** Spreading the same update twice *)

Lemma fresh_props_assoc (u : list (string * JSON)) (seen : list string)
  (k : string) (v : JSON) :
  In (k, v) (fresh_props seen u) ->
  assoc k u = Some v /\ existsb (String.eqb k) seen = false.
Proof.
  revert seen. induction u as [|[k0 v0] u IH]; intros seen; cbn [fresh_props]; [intros []|].
  destruct (existsb (String.eqb k0) seen) eqn:Es.
  - intros Hin. destruct (IH _ Hin) as [Ha Hn]. split; [|exact Hn].
    cbn [assoc]. destruct (String.eqb_spec k k0) as [->|]; [congruence|exact Ha].
  - intros [[= <- <-]|Hin].
    + split; [|exact Es]. cbn [assoc]. now rewrite String.eqb_refl.
    + destruct (IH _ Hin) as [Ha Hn]. cbn [existsb] in Hn.
      apply orb_false_elim in Hn as [Hk Hn]. split; [|exact Hn].
      cbn [assoc]. now rewrite Hk.
Qed.

Lemma fresh_props_nil (u : list (string * JSON)) (seen : list string) :
  (forall k, In k (List.map fst u) -> existsb (String.eqb k) seen = true) ->
  fresh_props seen u = [].
Proof.
  induction u as [|[k0 v0] u IH]; intros Hall; cbn [fresh_props]; [reflexivity|].
  rewrite (Hall k0) by now left. apply IH. intros k Hk. apply Hall. now right.
Qed.

Lemma assoc_In_keys {A : Type} (k : string) (u : list (string * A)) :
  In k (List.map fst u) -> exists v, assoc k u = Some v.
Proof.
  induction u as [|[k0 v0] u IH]; [intros []|]. cbn [List.map fst assoc].
  destruct (String.eqb_spec k k0) as [->|Hne]; [now eexists|].
  intros [E|Hin]; [congruence|now apply IH].
Qed.

Lemma spread_again (o u : list (string * JSON)) : spread (spread o u) u = spread o u.
Proof.
  assert (Hkeys : fresh_props (List.map fst (spread o u)) u = []).
  { apply fresh_props_nil. intros k Hk. rewrite existsb_keys, assoc_spread.
    destruct (assoc_In_keys k u Hk) as [v ->]. reflexivity. }
  unfold spread at 1. rewrite Hkeys, app_nil_r.
  unfold spread. rewrite List.map_app, List.map_map. f_equal.
  - apply List.map_ext. intros [k v]. cbn [fst].
    destruct (assoc k u) as [v'|] eqn:E; simpl; rewrite E; reflexivity.
  - rewrite <- (List.map_id (fresh_props _ u)) at 2.
    apply List.map_ext_in. intros [k v] Hin. cbn [fst].
    apply fresh_props_assoc in Hin as [-> _]. reflexivity.
Qed.

Lemma valid_object (r : JSON) : validRecord r = true -> exists o, r = JObj o.
Proof.
  unfold validRecord. intros H.
  apply andb_prop in H as [H Hreq]. apply andb_prop in H as [Ht Ho].
  destruct r; try discriminate Ht; try discriminate Ho; [discriminate Hreq|now eexists].
Qed.

Lemma migratedRecord_prop (r : JSON) (k : string) :
  validRecord r = true ->
  k <> "migrated" -> k <> "version" ->
  prop k (migratedRecord r) = prop k r.
Proof.
  intros Hv Hm Hver. destruct (valid_object r Hv) as [o ->].
  unfold migratedRecord. rewrite prop_merge. cbn [assoc].
  apply String.eqb_neq in Hm, Hver. now rewrite Hm, Hver.
Qed.

Lemma migratedRecord_valid (r : JSON) :
  validRecord r = true -> validRecord (migratedRecord r) = true.
Proof.
  intros Hv. pose proof Hv as Hv'. destruct (valid_object r Hv) as [o ->].
  unfold validRecord in Hv'. apply andb_prop in Hv' as [_ Hreq].
  unfold validRecord, requiredFields in *.
  rewrite !(migratedRecord_prop (JObj o)) by (exact Hv || discriminate).
  exact Hreq.
Qed.

Lemma migrated_all_valid (l : list JSON) :
  List.Forall (fun r => validRecord r = true) l ->
  List.Forall (fun r => validRecord r = true) (List.map migratedRecord l).
Proof.
  induction 1 as [|r l Hr Hl IH]; cbn [List.map]; constructor; [|exact IH].
  now apply migratedRecord_valid.
Qed.

(** X8. [migrateStorage] rewrites every live record with [migrated: true]
    and the current version, keeps every other property and the order of
    the records, and changes nothing when run again on its own result.
    The only error it throws is "Failed to migrate storage data". It
    returns when the marked list can be saved: the browser takes the
    writes, the payload can be read and holds at most 1000 live records,
    and the marked list is within the size limit and has strings for
    ids. *)
Theorem migration_marks_every_record (h : Host.t) (fuel : nat) (oldVersion : option text)
  (w : World) :
  (forall w', migrateStorage h fuel oldVersion w = Return tt w' ->
     live w' = List.map migratedRecord (live w))
  /\ (forall e w', migrateStorage h fuel oldVersion w = Throw e w' ->
        e = Err "Failed to migrate storage data")
  /\ (forall r, In r (live w) ->
        prop "migrated" (migratedRecord r) = Some (JBool true)
        /\ prop "version" (migratedRecord r) = Some (JStr Storage.STORAGE_VERSION)
        /\ (forall k, k <> "migrated" -> k <> "version" ->
                      prop k (migratedRecord r) = prop k r)
        /\ migratedRecord (migratedRecord r) = migratedRecord r)
  /\ (savable h w (List.map migratedRecord (live w)) ->
      exists w', migrateStorage h (S (S (S (S fuel)))) oldVersion w = Return tt w').
Proof.
  pose proof (live_valid w) as Hvalid.
  split; [|split; [|split]].
  - intros w' Hm. unfold migrateStorage in Hm.
    apply try_catch_Return_inv in Hm as [Hm|(e & w1 & _ & Hm)]; [|discriminate Hm].
    apply bind_Return_inv in Hm as (records & w0 & Hget & Hs).
    apply getRecords_Return_live in Hget as ->.
    apply saveRecords_Return_live in Hs. rewrite Hs.
    apply filter_all. now apply migrated_all_valid.
  - intros e w' Hm. unfold migrateStorage in Hm.
    match type of Hm with try_catch ?m _ = _ => destruct m end;
      cbn [try_catch] in Hm; try discriminate Hm.
    now injection Hm as <- _.
  - intros r Hr. rewrite List.Forall_forall in Hvalid. specialize (Hvalid r Hr).
    destruct (valid_object r Hvalid) as [o ->].
    split; [|split; [|split]].
    + unfold migratedRecord. now rewrite prop_merge.
    + unfold migratedRecord. now rewrite prop_merge.
    + intros k. now apply migratedRecord_prop.
    + unfold migratedRecord, merge. now rewrite spread_again.
  - intros Hs. destruct (savable_saves h fuel w _ Hs) as (w' & Hsave & _).
    exists w'. unfold migrateStorage. destruct Hs as (_ & Hread & _).
    rewrite getRecords_readable by exact Hread. cbn [bind]. now rewrite Hsave.
Qed.

Lemma migration_marks_every_record_witness :
  exists w',
    migrateStorage Browser.roomy 4 None Examples.twoDays = Return tt w'
    /\ live w' = [migratedRecord Examples.day1; migratedRecord Examples.day2].
Proof.
  destruct (proj2 (proj2 (proj2
              (migration_marks_every_record Browser.roomy 0 None Examples.twoDays))))
    as [w' Hm].
  - savable_by_computation.
  - exists w'. split; [exact Hm|].
    rewrite (proj1 (migration_marks_every_record Browser.roomy 4 None Examples.twoDays) w' Hm).
    now rewrite twoDays_live.
Defined.

(** X9. Start-up on a store without the current version (a first start
    included), where the marked list can be saved (the browser takes the
    writes, the payload can be read and holds at most 1000 live
    records, the marked list is within the size limit and its ids are
    strings): [initializeStorage] migrates the live records, writes the
    version and ends with a check that holds. Afterwards the live set is
    the marked list and the store is up to date. *)
Theorem start_up_migrates (h : Host.t) (fuel : nat) (w : World) :
  outdated (getItem STORAGE_KEYS.STORAGE_VERSION w) = true ->
  savable h w (List.map migratedRecord (live w)) ->
  exists w',
    initializeStorage h (S (S (S (S fuel)))) w = Return tt w'
    /\ live w' = List.map migratedRecord (live w)
    /\ getItem STORAGE_KEYS.STORAGE_VERSION w' = Some (Plain Storage.STORAGE_VERSION)
    /\ outdated (getItem STORAGE_KEYS.STORAGE_VERSION w') = false.
Proof.
  intros Hout Hs. pose proof Hs as (Ha & Hread & _).
  destruct (savable_saves h fuel w _ Hs) as (w1 & Hsave & Hp & Hl).
  rewrite (filter_all _ _ (migrated_all_valid _ (live_valid w))) in Hl.
  destruct (saveRecords_Return_hash h _ _ _ _ _ Hsave) as (hash & Hhash & Hstored).
  set (w2 := with_storage w1
               (<[STORAGE_KEYS.STORAGE_VERSION := Plain Storage.STORAGE_VERSION]>
                  (localStorage w1))).
  assert (Hp2 : localStorage w2 !! ATTENDANCE_RECORDS
                = Some (Doc (JArr (List.map migratedRecord (live w))))).
  { unfold w2, with_storage. cbn [localStorage].
    rewrite lookup_insert_ne by discriminate. exact Hp. }
  assert (Hl2 : live w2 = List.map migratedRecord (live w)).
  { unfold live. rewrite Hp2. cbn [liveOf].
    apply filter_all, migrated_all_valid, live_valid. }
  assert (Hh2 : getItem DATA_INTEGRITY_HASH w2 = Some (Plain hash)).
  { unfold getItem, w2, with_storage. cbn [localStorage].
    rewrite lookup_insert_ne by discriminate. exact Hstored. }
  set (w3 := with_storage w2 (<[DATA_INTEGRITY_HASH := Plain hash]> (localStorage w2))).
  assert (Hrun : initializeStorage h (S (S (S (S fuel)))) w = Return tt w3).
  { unfold initializeStorage. rewrite Hout. unfold migrateStorage.
    rewrite getRecords_readable by exact Hread. cbn [bind]. rewrite Hsave.
    cbn [try_catch bind]. unfold setItem at 1. rewrite Ha. cbn [bind]. fold w2.
    unfold getItem at 1. rewrite Hp2. cbn [absent text_empty bind].
    rewrite (verify_consistent h _ w2 hash Ha).
    - reflexivity.
    - now rewrite Hp2.
    - now rewrite Hl2.
    - rewrite Hh2. apply hashMismatch_same. }
  exists w3. split; [exact Hrun|].
  assert (Hv3 : getItem STORAGE_KEYS.STORAGE_VERSION w3 = Some (Plain Storage.STORAGE_VERSION)).
  { unfold getItem, w3, w2, with_storage. cbn [localStorage].
    rewrite lookup_insert_ne by discriminate. apply lookup_insert_eq. }
  split; [|split; [exact Hv3|now rewrite Hv3]].
  unfold live, w3, with_storage. cbn [localStorage].
  rewrite lookup_insert_ne by discriminate. exact Hl2.
Qed.

(** Two records stored by an earlier version are both marked. *)
Lemma start_up_migrates_witness :
  getItem STORAGE_KEYS.STORAGE_VERSION Examples.twoDays = None
  /\ live Examples.twoDays = [Examples.day1; Examples.day2]
  /\ exists w',
       initializeStorage Browser.roomy 4 Examples.twoDays = Return tt w'
       /\ live w' = [migratedRecord Examples.day1; migratedRecord Examples.day2]
       /\ getItem STORAGE_KEYS.STORAGE_VERSION w' = Some (Plain "2.0.0")
       /\ outdated (getItem STORAGE_KEYS.STORAGE_VERSION w') = false.
Proof.
  split; [reflexivity|]. split; [exact twoDays_live|].
  destruct (start_up_migrates Browser.roomy 0 Examples.twoDays) as (w' & Hrun & Hl & Hv).
  - reflexivity.
  - savable_by_computation.
  - exists w'. split; [exact Hrun|]. split; [|exact Hv].
    rewrite Hl, twoDays_live. reflexivity.
Defined.


Lemma installed_run :
  initializeStorage Browser.roomy 4 (Browser.fresh Examples.monday)
  = Return tt Examples.installed.
Proof. vm_compute. reflexivity. Qed.


(* ===================================================================== *)
(** ** Backups in the store *)
(* ===================================================================== *)

Lemma removed_lookup (l : list (string * option Z)) (w : World) (k : string) :
  localStorage (fold_left (fun w backup => removeItem (fst backup) w) l w) !! k
  = if existsb (fun backup => String.eqb k (fst backup)) l then None
    else localStorage w !! k.
Proof.
  revert w. induction l as [|b l IH]; intros w; cbn [fold_left existsb]; [reflexivity|].
  rewrite IH. unfold removeItem, with_storage. cbn [localStorage].
  destruct (existsb _ l); [now rewrite orb_true_r|]. rewrite orb_false_r.
  destruct (String.eqb_spec k (fst b)) as [->|Hne].
  - apply lookup_delete_eq.
  - apply lookup_delete_ne. congruence.
Qed.

Lemma cleanOldBackups_at_most_five (h : Host.t) (w : World) :
  (List.length (List.filter isBackupKey (keys h (cleanOldBackups h w))) <= 5)%nat.
Proof.
  apply Nat.le_trans
    with (List.length (List.map fst (firstn 5 (sortedBackups h w)))).
  2:{ rewrite List.length_map, List.length_firstn. lia. }
  apply List.NoDup_incl_length; [apply List.NoDup_filter, keys_NoDup|].
  intros k Hk. apply filter_In in Hk as [Hk Hb]. apply keys_spec in Hk.
  unfold cleanOldBackups in Hk. rewrite removed_lookup in Hk.
  destruct (existsb _ _) eqn:Ex; [congruence|].
  assert (Hin : In k (List.map fst (sortedBackups h w))).
  { apply (Permutation_in _ (Permutation_sym (sortedBackups_keys h w))).
    apply filter_In. split; [now apply keys_spec|exact Hb]. }
  rewrite <- (firstn_skipn 5 (sortedBackups h w)), List.map_app in Hin.
  apply in_app_or in Hin as [Hin|Hin]; [exact Hin|].
  apply in_map_iff in Hin as (b & <- & Hin).
  assert (existsb (fun backup => String.eqb (fst b) (fst backup))
            (slice_from 5 (sortedBackups h w)) = true).
  { apply existsb_exists. exists b. split; [exact Hin|apply String.eqb_refl]. }
  congruence.
Qed.

Lemma cleanOldBackups_only_removes (h : Host.t) (w : World) (k : string) :
  localStorage (cleanOldBackups h w) !! k = None
  \/ localStorage (cleanOldBackups h w) !! k = localStorage w !! k.
Proof.
  unfold cleanOldBackups. rewrite removed_lookup.
  destruct (existsb _ _); [now left|now right].
Qed.

Lemma cleanOldBackups_few (h : Host.t) (w : World) :
  (List.length (List.filter isBackupKey (keys h w)) <= 5)%nat -> cleanOldBackups h w = w.
Proof.
  intros Hlen. unfold cleanOldBackups, slice_from.
  rewrite List.skipn_all2; [reflexivity|].
  rewrite <- (List.length_map fst), (Permutation_length (sortedBackups_keys h w)). exact Hlen.
Qed.

(** X11. [cleanOldBackups] leaves at most five entries whose key starts
    with the backup prefix. What it keeps it keeps unchanged, entries
    without the prefix are never touched, and a store with five such
    entries or fewer is left as it is. *)
Theorem cleanOldBackups_keeps_five (h : Host.t) (w : World) :
  (List.length (List.filter isBackupKey (keys h (cleanOldBackups h w))) <= 5)%nat
  /\ (forall k, localStorage (cleanOldBackups h w) !! k = None
                \/ localStorage (cleanOldBackups h w) !! k = localStorage w !! k)
  /\ (forall k, isBackupKey k = false ->
                localStorage (cleanOldBackups h w) !! k = localStorage w !! k)
  /\ ((List.length (List.filter isBackupKey (keys h w)) <= 5)%nat -> cleanOldBackups h w = w).
Proof.
  split; [apply cleanOldBackups_at_most_five|].
  split; [apply cleanOldBackups_only_removes|].
  split; [intros k; apply cleanOldBackups_lookup|].
  apply cleanOldBackups_few.
Qed.

Lemma cleanOldBackups_keeps_five_witness :
  cleanOldBackups Browser.roomy Examples.twoDays = Examples.twoDays.
Proof.
  apply (proj2 (proj2 (proj2 (cleanOldBackups_keeps_five Browser.roomy Examples.twoDays)))).
  rewrite twoDays_backup_keys. simpl. lia.
Defined.

(** *** Decimal numerals read back *)

Lemma leading_digits_acc (d : Decimal.uint) (acc : positive) :
  leading_digits (NilEmpty.string_of_uint d) (Some (Z.pos acc))
  = Some (Z.pos (Pos.of_uint_acc d acc)).
Proof.
  revert acc.
  induction d; intros acc; cbn [NilEmpty.string_of_uint leading_digits Pos.of_uint_acc];
    [reflexivity|..].
  all: match goal with
       | |- (if is_digit ?c then _ else _) = _ => change (is_digit c) with true; cbv iota
       end.
  all: rewrite <- IHd; do 2 f_equal; unfold digit_val; cbn; lia.
Qed.

Lemma leading_digits_zero (d : Decimal.uint) :
  leading_digits (NilEmpty.string_of_uint d) (Some 0%Z) = Some (Z.of_N (Pos.of_uint d)).
Proof.
  induction d; cbn [NilEmpty.string_of_uint leading_digits Pos.of_uint];
    [reflexivity|exact IHd|..]; cbn [Z.of_N]; rewrite <- leading_digits_acc; reflexivity.
Qed.

(** [parseInt(n.toString())] is [n], for [n >= 0]. *)
Lemma parseInt_string_of_Z (z : Z) : (0 <= z)%Z -> parseInt (string_of_Z z) = Some z.
Proof.
  intros Hz. destruct z as [|p|p]; [reflexivity| |lia].
  unfold string_of_Z, parseInt. cbn [Z.to_int NilZero.string_of_int].
  pose proof (Unsigned.to_uint_nonnil p) as Hn.
  pose proof (Unsigned.of_to p) as Hv.
  unfold NilZero.string_of_uint.
  destruct (Pos.to_uint p) as [|d|d|d|d|d|d|d|d|d|d]; [congruence|..];
    cbn [Pos.of_uint] in Hv; cbn [NilEmpty.string_of_uint leading_digits];
    match goal with
    | |- (if is_digit ?c then leading_digits ?s (Some ?v) else _) = _ =>
        change (is_digit c) with true; cbv iota;
        let v' := eval vm_compute in v in change v with v'
    end.
  { rewrite leading_digits_zero, Hv. reflexivity. }
  all: rewrite leading_digits_acc; injection Hv as ->; reflexivity.
Qed.

Section Backups.
Variable h : Host.t.

Lemma performAutomaticBackup_never_throws (fuel : nat) (w w' : World) (e : Error) :
  performAutomaticBackup h fuel w <> Throw e w'.
Proof.
  unfold performAutomaticBackup.
  match goal with |- try_catch ?m _ <> _ => destruct m end; discriminate.
Qed.

Lemma backup_key_not_records (t : Z) :
  ("attendance_backup_" +:+ string_of_Z t)%string <> ATTENDANCE_RECORDS.
Proof. discriminate. Qed.

Lemma backup_key_not_last (t : Z) :
  ("attendance_backup_" +:+ string_of_Z t)%string <> LAST_BACKUP.
Proof. discriminate. Qed.

End Backups.

(** One more entry with the backup prefix, at most, after the two
    writes of [performAutomaticBackup]. *)
Lemma backup_keys_after_writes (h : Host.t) (w : World) (k k2 : string) (v v2 : text) :
  isBackupKey k2 = false ->
  (List.length
     (List.filter isBackupKey
        (keys h (with_storage (with_storage w (<[k := v]> (localStorage w)))
                   (<[k2 := v2]> (<[k := v]> (localStorage w))))))
   <= S (List.length (List.filter isBackupKey (keys h w))))%nat.
Proof.
  intros Hk2.
  change (S (List.length (List.filter isBackupKey (keys h w))))
    with (List.length (k :: List.filter isBackupKey (keys h w))).
  apply List.NoDup_incl_length; [apply List.NoDup_filter, keys_NoDup|].
  intros k' Hin. apply filter_In in Hin as [Hin Hb]. apply keys_spec in Hin.
  unfold with_storage in Hin. cbn [localStorage] in Hin.
  destruct (String.eqb_spec k' k) as [->|Hne]; [now left|right].
  apply filter_In. split; [|exact Hb]. apply keys_spec.
  rewrite lookup_insert_ne in Hin by congruence.
  now rewrite lookup_insert_ne in Hin by congruence.
Qed.

Lemma automatic_backup_holds (h : Host.t) (fuel : nat) (w : World) :
  readable (localStorage w !! ATTENDANCE_RECORDS) ->
  exists w',
    performAutomaticBackup h (S fuel) w = Return tt w'
    /\ localStorage w' !! ATTENDANCE_RECORDS = localStorage w !! ATTENDANCE_RECORDS
    /\ (accepting h ->
        getItem LAST_BACKUP w' = Some (Doc (JNum (clock w)))
        /\ (List.length (List.filter isBackupKey (keys h w')) <= 5)%nat
        /\ (getItem ("attendance_backup_" +:+ string_of_Z (clock w)) w' = None
            \/ getItem ("attendance_backup_" +:+ string_of_Z (clock w)) w'
               = Some (Doc (backupData (clock w) (live w) [])))
        /\ ((List.length (List.filter isBackupKey (keys h w)) <= 4)%nat ->
            getItem ("attendance_backup_" +:+ string_of_Z (clock w)) w'
            = Some (Doc (backupData (clock w) (live w) [])))).
Proof.
  intros Hread. unfold performAutomaticBackup.
  rewrite getRecords_readable by exact Hread. cbn [bind].
  unfold setItem at 1.
  destruct (Host.fits h (<[_ := _]> (localStorage w))) eqn:F1; cbn [bind try_catch].
  2:{ exists w. split; [reflexivity|]. split; [reflexivity|].
      intros Ha. rewrite Ha in F1. discriminate F1. }
  set (w1 := with_storage w _).
  unfold setItem.
  destruct (Host.fits h (<[LAST_BACKUP := _]> (localStorage w1))) eqn:F2;
    cbn [bind try_catch].
  2:{ exists w1. split; [reflexivity|]. split.
      - unfold w1, with_storage. cbn [localStorage].
        apply lookup_insert_ne, backup_key_not_records.
      - intros Ha. rewrite Ha in F2. discriminate F2. }
  set (w2 := with_storage w1 _).
  assert (Hentry : localStorage w2 !! ("attendance_backup_" +:+ string_of_Z (clock w))%string
                   = Some (Doc (backupData (clock w) (live w) []))).
  { unfold w2, w1, with_storage. cbn [localStorage].
    rewrite lookup_insert_ne by (intros E; symmetry in E; revert E; apply backup_key_not_last).
    apply lookup_insert_eq. }
  exists (cleanOldBackups h w2). split; [reflexivity|]. split.
  - rewrite cleanOldBackups_lookup by reflexivity.
    unfold w2, w1, with_storage. cbn [localStorage].
    rewrite lookup_insert_ne by discriminate.
    apply lookup_insert_ne, backup_key_not_records.
  - intros _. split; [|split; [|split]].
    + unfold getItem. rewrite cleanOldBackups_lookup by reflexivity.
      unfold w2, with_storage. cbn [localStorage]. apply lookup_insert_eq.
    + apply cleanOldBackups_at_most_five.
    + unfold getItem.
      destruct (cleanOldBackups_only_removes h w2
                  ("attendance_backup_" +:+ string_of_Z (clock w))) as [Hn|Hs];
        [now left|right].
      now rewrite Hs.
    + intros Hfew. unfold getItem. rewrite cleanOldBackups_few; [exact Hentry|].
      etransitivity; [apply backup_keys_after_writes; reflexivity|]. lia.
Qed.

(** X12. [performAutomaticBackup] never throws. On a store whose record
    payload can be read it does not touch the payload; where moreover
    the browser takes the writes, it records the time of the backup
    under [last_automatic_backup] and leaves at most five entries with
    the backup prefix; the entry it wrote, if it is among those kept,
    holds the live records, and it is kept, at least, where the store
    held at most four entries with the prefix before. *)
Theorem automatic_backup (h : Host.t) (fuel : nat) (w : World) :
  (exists w', performAutomaticBackup h fuel w = Return tt w')
  /\ (readable (localStorage w !! ATTENDANCE_RECORDS) ->
      exists w',
        performAutomaticBackup h (S fuel) w = Return tt w'
        /\ localStorage w' !! ATTENDANCE_RECORDS = localStorage w !! ATTENDANCE_RECORDS
        /\ (accepting h ->
            getItem LAST_BACKUP w' = Some (Doc (JNum (clock w)))
            /\ (List.length (List.filter isBackupKey (keys h w')) <= 5)%nat
            /\ (getItem ("attendance_backup_" +:+ string_of_Z (clock w)) w' = None
                \/ getItem ("attendance_backup_" +:+ string_of_Z (clock w)) w'
                   = Some (Doc (backupData (clock w) (live w) [])))
            /\ ((List.length (List.filter isBackupKey (keys h w)) <= 4)%nat ->
                getItem ("attendance_backup_" +:+ string_of_Z (clock w)) w'
                = Some (Doc (backupData (clock w) (live w) []))))).
Proof.
  split; [|apply automatic_backup_holds].
  unfold performAutomaticBackup.
  match goal with |- exists w', try_catch ?m _ = _ => destruct m as [[] w1|e w1] end;
    cbn [try_catch]; eexists; reflexivity.
Qed.

Lemma twoDays_clock : clock Examples.twoDays = Examples.monday.
Proof. vm_compute. reflexivity. Qed.

(** The store of [twoDays] holds one entry with the backup prefix, the
    metadata: the backup is written and kept. *)
Lemma automatic_backup_witness :
  exists w',
    performAutomaticBackup Browser.roomy 1 Examples.twoDays = Return tt w'
    /\ live w' = [Examples.day1; Examples.day2]
    /\ getItem LAST_BACKUP w' = Some (Doc (JNum Examples.monday))
    /\ getItem "attendance_backup_1709535601000" w'
       = Some (Doc (backupData Examples.monday [Examples.day1; Examples.day2] [])).
Proof.
  destruct (proj2 (automatic_backup Browser.roomy 0 Examples.twoDays) twoDays_readable)
    as (w' & Hrun & Hp & Hacc).
  destruct (Hacc roomy_accepting) as (Hlast & _ & _ & Hkept).
  exists w'. split; [exact Hrun|]. split; [|split].
  - rewrite <- twoDays_live. unfold live. exact (f_equal liveOf Hp).
  - rewrite <- twoDays_clock. exact Hlast.
  - rewrite <- twoDays_live, <- twoDays_clock. apply Hkept.
    rewrite twoDays_backup_keys. apply Nat.leb_le. reflexivity.
Defined.

(** X13. The backup schedule. [checkAndPerformBackup] makes a backup
    only when more than 24 hours have passed since the time stored under
    [last_automatic_backup] (since time 0 when nothing is stored);
    otherwise it leaves the store as it is. The time that
    [performAutomaticBackup] stores is read back as it was written, so a
    check within 24 hours of a backup does nothing. *)
Theorem backup_schedule (h : Host.t) (fuel : nat) (w : World) :
  (forall t,
     getItem LAST_BACKUP w = Some (Doc (JNum t)) ->
     (0 <= t)%Z ->
     ((clock w - t <= BACKUP_INTERVAL)%Z ->
      checkAndPerformBackup h fuel w = Return tt w)
     /\ ((BACKUP_INTERVAL < clock w - t)%Z ->
         checkAndPerformBackup h fuel w = performAutomaticBackup h fuel w))
  /\ (getItem LAST_BACKUP w = None ->
      ((clock w <= BACKUP_INTERVAL)%Z -> checkAndPerformBackup h fuel w = Return tt w)
      /\ ((BACKUP_INTERVAL < clock w)%Z ->
          checkAndPerformBackup h fuel w = performAutomaticBackup h fuel w))
  /\ (accepting h ->
      readable (localStorage w !! ATTENDANCE_RECORDS) ->
      (0 <= clock w)%Z ->
      forall w' later,
        performAutomaticBackup h (S fuel) w = Return tt w' ->
        (later - clock w <= BACKUP_INTERVAL)%Z ->
        checkAndPerformBackup h fuel (at_time later w') = Return tt (at_time later w')).
Proof.
  assert (Hdue : forall w0, checkAndPerformBackup h fuel w0 =
                   if backupDue (clock w0) (lastBackupTime w0)
                   then performAutomaticBackup h fuel w0 else Return tt w0).
  { intros w0. unfold checkAndPerformBackup. destruct (backupDue _ _); [|reflexivity].
    pose proof (performAutomaticBackup_never_throws h fuel w0) as Hn.
    destruct (performAutomaticBackup h fuel w0) as [|e w1]; try reflexivity.
    now destruct (Hn w1 e). }
  assert (Hstored : forall w0 t, getItem LAST_BACKUP w0 = Some (Doc (JNum t)) -> (0 <= t)%Z ->
                      lastBackupTime w0 = Some t).
  { intros w0 t Hl Ht. unfold lastBackupTime. rewrite Hl. cbn [text_empty text_string stringify].
    now apply parseInt_string_of_Z. }
  split; [|split].
  - intros t Hl Ht. rewrite Hdue, (Hstored w t Hl Ht). unfold backupDue. split; intros Hc.
    + apply Z.ltb_ge in Hc. now rewrite Hc.
    + apply Z.ltb_lt in Hc. now rewrite Hc.
  - intros Hl. rewrite Hdue. unfold lastBackupTime. rewrite Hl. unfold backupDue.
    rewrite Z.sub_0_r. split; intros Hc.
    + apply Z.ltb_ge in Hc. now rewrite Hc.
    + apply Z.ltb_lt in Hc. now rewrite Hc.
  - intros Ha Hread Hnow w' later Hrun Hlater.
    destruct (automatic_backup_holds h fuel w Hread) as (w1 & Hrun1 & _ & Hacc).
    rewrite Hrun in Hrun1. injection Hrun1 as <-.
    destruct (Hacc Ha) as (Hlast & _).
    rewrite Hdue. rewrite (Hstored (at_time later w') (clock w)); [|exact Hlast|exact Hnow].
    unfold backupDue. cbn [at_time clock].
    apply Z.ltb_ge in Hlater. now rewrite Hlater.
Qed.

Lemma twoDays_never_backed_up : getItem LAST_BACKUP Examples.twoDays = None.
Proof. vm_compute. reflexivity. Qed.

Lemma backup_schedule_witness :
  checkAndPerformBackup Browser.roomy 1 Examples.twoDays
  = performAutomaticBackup Browser.roomy 1 Examples.twoDays
  /\ forall w',
       performAutomaticBackup Browser.roomy 1 Examples.twoDays = Return tt w' ->
       checkAndPerformBackup Browser.roomy 0 (at_time (Examples.monday + 3600000) w')
       = Return tt (at_time (Examples.monday + 3600000) w').
Proof.
  split.
  - apply (proj2 (proj1 (proj2 (backup_schedule Browser.roomy 1 Examples.twoDays))
                    twoDays_never_backed_up)).
    vm_compute. reflexivity.
  - intros w' Hrun.
    apply (proj2 (proj2 (backup_schedule Browser.roomy 0 Examples.twoDays))
             roomy_accepting twoDays_readable).
    + vm_compute. discriminate.
    + exact Hrun.
    + vm_compute. discriminate.
Defined.

(* ===================================================================== *)
(** ** The quota probe *)
(* ===================================================================== *)

Section Quota.
Variable h : Host.t.





End Quota.









(* ===================================================================== *)
(** ** Statistics and reports *)
(* ===================================================================== *)

Lemma filter_split_length {A : Type} (p : A -> bool) (l : list A) :
  (List.length (List.filter p l) + List.length (List.filter (fun x => negb (p x)) l)
   = List.length l)%nat.
Proof.
  induction l as [|x l IH]; [reflexivity|]. cbn [List.filter].
  destruct (p x); cbn [negb List.length]; lia.
Qed.

Lemma assoc_bump (role key : string) (counters : list (string * option Z)) :
  assoc role (bump key counters)
  = if String.eqb role key
    then match assoc role counters with
         | Some n => Some (option_map (fun x => x + 1)%Z n)
         | None => Some None
         end
    else assoc role counters.
Proof.
  induction counters as [|[k n] rest IH]; cbn [bump assoc].
  - destruct (String.eqb role key); reflexivity.
  - destruct (String.eqb_spec key k) as [->|Hne]; cbn [assoc].
    + destruct (String.eqb_spec role k) as [->|]; reflexivity.
    + rewrite IH. destruct (String.eqb_spec role k) as [->|Hrk].
      * destruct (String.eqb_spec k key); [congruence|reflexivity].
      * reflexivity.
Qed.

Section Tally.
Variable h : Host.t.

Lemma tally_roles (role : string) (records : list JSON) (stats : Tally) (n : Z) :
  assoc role (tallyRoles stats) = Some (Some n) ->
  assoc role (tallyRoles (fold_left (tallyRecord h) records stats))
  = Some (Some (n + Z.of_nat (withRole role records))%Z).
Proof.
  revert stats n. induction records as [|r l IH]; intros stats n Hn; cbn [fold_left].
  { unfold withRole. cbn. now rewrite Z.add_0_r. }
  unfold withRole in *. cbn [List.filter].
  destruct (String.eqb role (ToString_opt (prop "role" r))) eqn:E.
  - rewrite (IH _ (n + 1)%Z).
    + cbn [List.length]. do 2 f_equal. lia.
    + unfold tallyRecord. cbn [tallyRoles]. destruct (isOnTime h r); cbn [tallyRoles];
        rewrite assoc_bump, E, Hn; reflexivity.
  - rewrite (IH _ n); [reflexivity|].
    unfold tallyRecord. cbn [tallyRoles]. destruct (isOnTime h r); cbn [tallyRoles];
      rewrite assoc_bump, E; exact Hn.
Qed.

Lemma tallyAll_counts (records : list JSON) :
  (tallyOnTime (tallyAll h records) + tallyLate (tallyAll h records)
   = Z.of_nat (List.length records))%Z
  /\ tallyOnTime (tallyAll h records)
     = Z.of_nat (List.length (List.filter (isOnTime h) records))
  /\ (forall role, In role (List.map fst zeroRoles) ->
        assoc role (tallyRoles (tallyAll h records))
        = Some (Some (Z.of_nat (withRole role records)))).
Proof.
  unfold tallyAll.
  destruct (tally_counts h records
              {| tallyOnTime := 0; tallyLate := 0; tallyRoles := zeroRoles |}) as [Hon Hlate].
  cbn [tallyOnTime tallyLate] in Hon, Hlate.
  pose proof (filter_split_length (isOnTime h) records) as Hsplit.
  split; [rewrite Hon, Hlate; lia|]. split; [rewrite Hon; lia|].
  intros role Hrole. rewrite (tally_roles role records _ 0%Z); [reflexivity|].
  cbn [tallyRoles]. cbn in Hrole.
  repeat (destruct Hrole as [<-|Hrole]; [reflexivity|]). destruct Hrole.
Qed.

End Tally.

(** X15. [getDailyStats date], on a readable store, reads without
    writing. [total] is the number of live records of that date, [onTime]
    and [late] add up to it, and each of the ten roles is counted as
    often as the records of that date carry it. [exportAttendance] has one
    line for each of these records. *)
Theorem daily_stats_add_up (h : Host.t) (fuel : nat) (date : string) (w : World) :
  readable (localStorage w !! ATTENDANCE_RECORDS) ->
  exists stats lines,
    getDailyStats h (S fuel) date w = Return stats w
    /\ total stats = List.length (ofDate date (live w))
    /\ (onTime stats + late stats = Z.of_nat (total stats))%Z
    /\ onTime stats = Z.of_nat (List.length (List.filter (isOnTime h) (ofDate date (live w))))
    /\ (forall role, In role (List.map fst zeroRoles) ->
          assoc role (byRole stats)
          = Some (Some (Z.of_nat (withRole role (ofDate date (live w))))))
    /\ dailyReportLines h (S fuel) date w = Return lines w
    /\ List.length lines = total stats.
Proof.
  intros Hread. unfold getDailyStats, dailyReportLines.
  rewrite getRecords_readable by exact Hread. cbn [bind].
  destruct (tallyAll_counts h (ofDate date (live w))) as (Hsum & Hon & Hroles).
  eexists. eexists. split; [reflexivity|]. cbn [total onTime late byRole].
  split; [reflexivity|]. split; [exact Hsum|]. split; [exact Hon|].
  split; [exact Hroles|]. split; [reflexivity|].
  rewrite List.length_map. apply Permutation_length. apply Array_sort_perm.
Qed.

Lemma daily_stats_add_up_witness :
  exists stats,
    getDailyStats Browser.roomy 1 "3/4/2024" Examples.twoDays = Return stats Examples.twoDays
    /\ total stats = 1%nat
    /\ (onTime stats + late stats = 1)%Z
    /\ assoc "Senior" (byRole stats) = Some (Some 1%Z).
Proof.
  destruct (daily_stats_add_up Browser.roomy 0 "3/4/2024" Examples.twoDays twoDays_readable)
    as (stats & lines & Hrun & Htotal & Hsum & _ & Hroles & _).
  assert (Hday : ofDate "3/4/2024" (live Examples.twoDays) = [Examples.day1]).
  { rewrite twoDays_live. reflexivity. }
  rewrite Hday in Htotal, Hroles.
  exists stats. split; [exact Hrun|]. split; [exact Htotal|].
  split; [now rewrite Hsum, Htotal|].
  apply (Hroles "Senior"). cbn. tauto.
Defined.

(** X16. [getPrefectStats q], on a readable store whose records carry a
    string as number, reads without writing. [onTimeDays] and [lateDays]
    add up to [totalDays], the records found; the rate is [0] when
    nothing is found (no division is made) and otherwise
    [onTimeDays / totalDays * 100], between 0 and 100; [recentRecords]
    are the first ten of the records found, and each of the ten roles is
    counted as often as the records found carry it. *)
Theorem prefect_stats_add_up (h : Host.t) (fuel : nat) (q : string) (w : World) :
  readable (localStorage w !! ATTENDANCE_RECORDS) ->
  List.Forall numbered (live w) ->
  exists stats found,
    searchPrefectRecords h (S fuel) q w = Return found w
    /\ getPrefectStats h (S fuel) q w = Return stats w
    /\ totalDays stats = List.length found
    /\ (onTimeDays stats + lateDays stats = Z.of_nat (totalDays stats))%Z
    /\ (found = [] -> attendanceRate stats = (0, 1)%Z)
    /\ (found <> [] ->
        attendanceRate stats = ((onTimeDays stats * 100)%Z, Z.of_nat (totalDays stats))
        /\ (0 <= onTimeDays stats * 100 <= 100 * Z.of_nat (totalDays stats))%Z)
    /\ recentRecords stats = firstn 10 found
    /\ (List.length (recentRecords stats) <= 10)%nat
    /\ (forall role, In role (List.map fst zeroRoles) ->
          assoc role (roles stats) = Some (Some (Z.of_nat (withRole role found)))).
Proof.
  intros Hread Hnum.
  set (found := Array_sort (byTimestampDesc h) (List.filter (selected q) (live w))).
  assert (Hs : searchPrefectRecords h (S fuel) q w = Return found w).
  { unfold searchPrefectRecords. rewrite getRecords_readable by exact Hread.
    cbn [bind]. now rewrite filter_try_selected. }
  destruct (tallyAll_counts h found) as (Hsum & Hon & Hroles).
  eexists. exists found. split; [exact Hs|]. unfold getPrefectStats. rewrite Hs. cbn [bind].
  split; [reflexivity|].
  cbn [totalDays onTimeDays lateDays attendanceRate recentRecords roles].
  split; [reflexivity|]. split; [exact Hsum|]. split; [now intros ->|].
  split; [|split; [reflexivity|split; [|exact Hroles]]].
  - intros Hne. destruct found as [|r l]; [congruence|]. split; [reflexivity|].
    rewrite Hon.
    pose proof (filter_split_length (isOnTime h) (r :: l)). lia.
  - unfold slice0. rewrite List.length_firstn. lia.
Qed.

Lemma threePrefects_live :
  live Examples.threePrefects
  = [Examples.prefect42; Examples.prefect420; Examples.prefect7].
Proof. vm_compute. reflexivity. Qed.

Lemma threePrefects_readable :
  readable (localStorage Examples.threePrefects !! ATTENDANCE_RECORDS).
Proof. vm_compute. exact I. Qed.

Lemma prefect_stats_add_up_witness :
  exists stats,
    getPrefectStats Browser.roomy 1 "42" Examples.threePrefects
    = Return stats Examples.threePrefects
    /\ totalDays stats = 2%nat
    /\ (onTimeDays stats + lateDays stats = 2)%Z
    /\ assoc "Junior" (roles stats) = Some (Some 1%Z).
Proof.
  destruct (prefect_stats_add_up Browser.roomy 0 "42" Examples.threePrefects
              threePrefects_readable)
    as (stats & found & Hs & Hg & Ht & Hsum & _ & _ & _ & _ & Hroles).
  { rewrite threePrefects_live. repeat constructor; now eexists. }
  assert (Hfound : found = [Examples.prefect420; Examples.prefect42]).
  { assert (Hs' : searchPrefectRecords Browser.roomy 1 "42" Examples.threePrefects
                  = Return [Examples.prefect420; Examples.prefect42] Examples.threePrefects)
      by (vm_compute; reflexivity).
    rewrite Hs in Hs'. apply (f_equal returned) in Hs'. cbn [returned] in Hs'.
    injection Hs' as Hf. exact Hf. }
  rewrite Hfound in *. clear Hfound. exists stats. split; [exact Hg|]. split; [exact Ht|].
  split; [now rewrite Hsum, Ht|].
  apply (Hroles "Junior"). cbn. tauto.
Defined.

(** X17. A bulk save never throws and accounts for every entry: each
    entry ends in [success] or in [errors], so the two lists together are
    as long as the input. An empty input gives two empty lists and leaves
    the store as it is. *)
Theorem bulk_save_accounts_for_every_entry (h : Host.t) (fuel : nat)
  (attendanceData : list (string * string)) (timestamp : option Z) (w : World) :
  (forall e w', saveBulkAttendance h fuel attendanceData timestamp w <> Throw e w')
  /\ (forall result w',
        saveBulkAttendance h fuel attendanceData timestamp w = Return result w' ->
        (List.length (success result) + List.length (errors result)
         = List.length attendanceData)%nat)
  /\ saveBulkAttendance h fuel [] timestamp w = Return {| success := []; errors := [] |} w.
Proof.
  unfold saveBulkAttendance.
  set (now := match timestamp with Some t => t | None => clock w end).
  pose proof (saveBulkLoop_accounts h fuel attendanceData now
                (Host.toLocaleDateString h now) {| success := []; errors := [] |} w) as Hacc.
  split; [|split; [|reflexivity]].
  - intros e w' Hthrow. rewrite Hthrow in Hacc. exact Hacc.
  - intros result w' Hret. rewrite Hret in Hacc. exact Hacc.
Qed.

Lemma bulk_save_accounts_for_every_entry_witness :
  exists result w',
    saveBulkAttendance Browser.roomy 6 [("42", "Senior"); ("42", "Senior")] None
                       (Browser.fresh Examples.monday) = Return result w'
    /\ (List.length (success result) + List.length (errors result) = 2)%nat.
Proof.
  assert (Hrun : exists result w',
            saveBulkAttendance Browser.roomy 6 [("42", "Senior"); ("42", "Senior")] None
                               (Browser.fresh Examples.monday) = Return result w').
  { eexists. eexists. vm_compute. reflexivity. }
  destruct Hrun as (result & w' & Hrun). exists result, w'. split; [exact Hrun|].
  exact (proj1 (proj2 (bulk_save_accounts_for_every_entry Browser.roomy 6
                         [("42", "Senior"); ("42", "Senior")] None
                         (Browser.fresh Examples.monday))) result w' Hrun).
Defined.

(* ===================================================================== *)
(** ** What a save leaves behind *)
(* ===================================================================== *)

Lemma saveRecords_Return_size (h : Host.t) (fuel : nat) (items : list JSON)
  (w w' : World) (u : unit) :
  saveRecords h fuel (JArr items) w = Return u w' ->
  (MAX_STORAGE_SIZE <? Z.of_nat (text_length (Doc (JArr items))))%Z = false.
Proof.
  destruct fuel as [|fuel]; [discriminate|]. cbn [saveRecords]. intros Hr.
  apply try_catch_Return_inv in Hr as [Hr|(e & w1 & _ & Hh)].
  2:{ apply bind_Return_inv in Hh as (a & w2 & _ & Hh). discriminate. }
  destruct (checkStorageQuota h w) as [quota w1].
  apply bind_Return_inv in Hr as (a & w2 & _ & Hr).
  destruct (_ <? _)%Z; [discriminate|reflexivity].
Qed.

(** X18. When [saveRecords] returns, its argument was an array whose
    text is within the size limit, the record payload is that array, the
    stored fingerprint is the array's, and the live set is its valid
    entries. It never returns on anything else: a value that is not an
    array, or an array whose text exceeds the limit, ends in an error. *)
Theorem saveRecords_postcondition (h : Host.t) (fuel : nat) (records : JSON) (w w' : World) :
  saveRecords h fuel records w = Return tt w' ->
  exists items hash,
    records = JArr items
    /\ (Z.of_nat (text_length (Doc records)) <= MAX_STORAGE_SIZE)%Z
    /\ localStorage w' !! ATTENDANCE_RECORDS = Some (Doc (JArr items))
    /\ generateDataHash h items = Some hash
    /\ localStorage w' !! DATA_INTEGRITY_HASH = Some (Plain hash)
    /\ live w' = List.filter validRecord items.
Proof.
  intros Hs.
  destruct (saveRecords_Return h _ _ _ _ _ Hs) as (items & -> & Hp).
  destruct (saveRecords_Return_hash h _ _ _ _ _ Hs) as (hash & Hhash & Hstored).
  pose proof (saveRecords_Return_size h _ _ _ _ _ Hs) as Hsize.
  pose proof (saveRecords_Return_live _ _ _ _ _ _ Hs) as Hl.
  exists items, hash. split; [reflexivity|].
  split; [now apply Z.ltb_ge|]. split; [exact Hp|]. split; [exact Hhash|].
  split; [exact Hstored|exact Hl].
Qed.

Lemma saveRecords_postcondition_witness :
  exists items hash,
    JArr [Examples.day1; Examples.day2] = JArr items
    /\ (Z.of_nat (text_length (Doc (JArr [Examples.day1; Examples.day2])))
        <= MAX_STORAGE_SIZE)%Z
    /\ localStorage Examples.twoDays !! ATTENDANCE_RECORDS = Some (Doc (JArr items))
    /\ generateDataHash Browser.roomy items = Some hash
    /\ localStorage Examples.twoDays !! DATA_INTEGRITY_HASH = Some (Plain hash)
    /\ live Examples.twoDays = List.filter validRecord items.
Proof.
  exact (saveRecords_postcondition Browser.roomy 4 (JArr [Examples.day1; Examples.day2])
           (Browser.fresh Examples.monday) Examples.twoDays twoDays_saved).
Defined.

(** X19. [addRecord] writes the live records followed by the new one:
    when it returns, the payload is that list, so entries of the old
    payload that were not valid records are no longer stored, and the new
    record is live if it is valid. It returns when that list can be
    saved: the browser takes the writes, the payload can be read and
    holds at most 1000 live records, and the list is within the size
    limit and has strings for ids. *)
Theorem addRecord_appends (h : Host.t) (fuel : nat) (record : JSON) (w : World) :
  (forall w', addRecord h fuel record w = Return tt w' ->
     localStorage w' !! ATTENDANCE_RECORDS = Some (Doc (JArr (live w ++ [record])))
     /\ live w' = live w ++ List.filter validRecord [record])
  /\ (savable h w (live w ++ [record]) ->
      exists w', addRecord h (S (S (S (S fuel)))) record w = Return tt w').
Proof.
  split.
  - intros w' Ha. unfold addRecord in Ha.
    apply bind_Return_inv in Ha as (records & w0 & Hget & Hs).
    apply getRecords_Return_live in Hget as ->.
    pose proof (saveRecords_Return_live _ _ _ _ _ _ Hs) as Hl.
    apply saveRecords_Return in Hs as (items & [= <-] & Hp).
    split; [exact Hp|]. rewrite Hl, List.filter_app.
    now rewrite (filter_all _ _ (live_valid w)).
  - intros Hs. destruct (savable_saves h fuel w _ Hs) as (w' & Hsave & _).
    exists w'. unfold addRecord. destruct Hs as (_ & Hread & _).
    rewrite getRecords_readable by exact Hread. cbn [bind]. exact Hsave.
Qed.

Lemma addRecord_appends_witness :
  exists w',
    addRecord Browser.roomy 4 Examples.prefect7 Examples.twoDays = Return tt w'
    /\ live w' = [Examples.day1; Examples.day2; Examples.prefect7].
Proof.
  destruct (proj2 (addRecord_appends Browser.roomy 0 Examples.prefect7 Examples.twoDays))
    as [w' Ha].
  - savable_by_computation.
  - exists w'. split; [exact Ha|].
    rewrite (proj2 (proj1 (addRecord_appends Browser.roomy 4 Examples.prefect7
                             Examples.twoDays) w' Ha)).
    now rewrite twoDays_live.
Defined.

(* ===================================================================== *)
(** ** Eviction under quota pressure *)
(* ===================================================================== *)

Lemma cleanOldBackups_clock (h : Host.t) (w : World) : clock (cleanOldBackups h w) = clock w.
Proof.
  unfold cleanOldBackups. generalize (slice_from 5 (sortedBackups h w)). intros l.
  revert w. induction l as [|b l IH]; intros w; cbn [fold_left]; [reflexivity|].
  now rewrite IH.
Qed.

Lemma cleanOldBackups_live (h : Host.t) (w : World) : live (cleanOldBackups h w) = live w.
Proof. unfold live. now rewrite cleanOldBackups_lookup by reflexivity. Qed.

(** *** The first elements of a sorted list *)

Lemma sortedBy_split {A : Type} (R : A -> A -> Prop) (l1 l2 : list A) :
  sortedBy R (l1 ++ l2) ->
  sortedBy R l1 /\ forall a b, In a l1 -> In b l2 -> R a b.
Proof.
  induction l1 as [|x l1 IH]; cbn [app sortedBy]; [now split|].
  intros [Hx Hs]. destruct (IH Hs) as [H1 H12].
  apply List.Forall_app in Hx as [Hx1 Hx2]. split; [now split|].
  intros a b [<-|Ha] Hb; [|now apply H12].
  rewrite List.Forall_forall in Hx2. now apply Hx2.
Qed.

(** The valid dates of a given list, by a run over the list. *)
Lemma dates_are_valid (h : Host.t) (l : list JSON) :
  forallb (fun r => match Date_getTime h (prop "timestamp" r) with
                    | Some _ => true
                    | None => false
                    end) l = true ->
  List.Forall (timed h) l.
Proof.
  intros H. apply List.Forall_forall. intros r Hr.
  rewrite forallb_forall in H. specialize (H r Hr). unfold timed.
  destruct (Date_getTime h (prop "timestamp" r)) as [t|]; [now exists t|discriminate].
Qed.

Section QuotaHandler.
Variable h : Host.t.

Lemma cleanOldBackups_readable (w : World) :
  readable (localStorage w !! ATTENDANCE_RECORDS) ->
  readable (localStorage (cleanOldBackups h w) !! ATTENDANCE_RECORDS).
Proof. intros Hr. now rewrite cleanOldBackups_lookup by reflexivity. Qed.

Lemma handleQuotaExceeded_few (fuel : nat) (w : World) :
  readable (localStorage w !! ATTENDANCE_RECORDS) ->
  (List.length (live w) <=? 1000)%nat = true ->
  exists w',
    handleQuotaExceeded h (S (S fuel)) w = Return tt w'
    /\ localStorage w' !! ATTENDANCE_RECORDS = localStorage w !! ATTENDANCE_RECORDS
    /\ (accepting h ->
        getItem STORAGE_QUOTA_WARNING w' = Some (Doc (JNum (clock w)))).
Proof.
  intros Hread Hlen. rewrite handleQuotaExceeded_S. cbv zeta.
  rewrite getRecords_readable by (apply cleanOldBackups_readable; exact Hread). cbn [bind].
  rewrite cleanOldBackups_live.
  rewrite Nat.ltb_antisym, Hlen. cbn [negb bind].
  unfold setItem.
  destruct (Host.fits h _) eqn:F; cbn [try_catch].
  + eexists. split; [reflexivity|]. split.
    * unfold with_storage. cbn [localStorage].
      rewrite lookup_insert_ne by discriminate.
      now rewrite cleanOldBackups_lookup by reflexivity.
    * intros _. unfold getItem, with_storage. cbn [localStorage].
      rewrite cleanOldBackups_clock. apply lookup_insert_eq.
  + eexists. split; [reflexivity|]. split.
    * now rewrite cleanOldBackups_lookup by reflexivity.
    * intros Ha. rewrite Ha in F. discriminate F.
Qed.

Lemma handleQuotaExceeded_many (fuel : nat) (w w1 : World) :
  readable (localStorage w !! ATTENDANCE_RECORDS) ->
  (1000 <? List.length (live w))%nat = true ->
  accepting h ->
  saveRecords h (S fuel)
    (JArr (slice0 800 (Array_sort (byTimestampDesc h) (live w)))) (cleanOldBackups h w)
  = Return tt w1 ->
  exists w',
    handleQuotaExceeded h (S (S fuel)) w = Return tt w'
    /\ live w' = slice0 800 (Array_sort (byTimestampDesc h) (live w)).
Proof.
  intros Hread Hlen Ha Hsave. rewrite handleQuotaExceeded_S. cbv zeta.
  rewrite getRecords_readable by (apply cleanOldBackups_readable; exact Hread). cbn [bind].
  rewrite cleanOldBackups_live.
  rewrite Hlen. rewrite Hsave. cbn [bind].
  unfold setItem. rewrite Ha. cbn [try_catch].
  eexists. split; [reflexivity|].
  unfold live, with_storage. cbn [localStorage].
  rewrite lookup_insert_ne by discriminate.
  apply saveRecords_Return_live in Hsave. unfold live in Hsave. rewrite Hsave.
  apply filter_all. apply List.Forall_forall. intros r Hr.
  unfold slice0 in Hr.
  assert (Hin : In r (Array_sort (byTimestampDesc h) (live w))).
  { rewrite <- (firstn_skipn 800 (Array_sort _ _)). apply in_or_app. now left. }
  apply Array_sort_In in Hin.
  pose proof (live_valid w) as Hv. rewrite List.Forall_forall in Hv. now apply Hv.
Qed.

Lemma newest_800 (l : list JSON) :
  (1000 <? List.length l)%nat = true ->
  List.length (slice0 800 (Array_sort (byTimestampDesc h) l)) = 800%nat.
Proof.
  intros Hlen. unfold slice0.
  rewrite List.length_firstn, (Permutation_length (Array_sort_perm _ _)).
  apply Nat.min_l. apply Nat.ltb_lt in Hlen.
  apply Nat.lt_le_incl, (Nat.le_lt_trans _ 1000); [|exact Hlen].
  apply Nat.leb_le. vm_compute. reflexivity.
Qed.

(** What is kept is newest first, and nothing that is dropped is newer
    than anything kept. *)
Lemma newest_first_kept (n : nat) (l : list JSON) :
  List.Forall (timed h) l ->
  Permutation (slice0 n (Array_sort (byTimestampDesc h) l)
               ++ slice_from n (Array_sort (byTimestampDesc h) l)) l
  /\ sortedBy (notOlder h) (slice0 n (Array_sort (byTimestampDesc h) l))
  /\ (forall a b, In a (slice0 n (Array_sort (byTimestampDesc h) l)) ->
                  In b (slice_from n (Array_sort (byTimestampDesc h) l)) ->
                  notOlder h a b).
Proof.
  intros Ht. unfold slice0, slice_from. split.
  - rewrite firstn_skipn. apply Array_sort_perm.
  - apply sortedBy_split. rewrite firstn_skipn. now apply Array_sort_newest_first.
Qed.

End QuotaHandler.

(** X20. [handleQuotaExceeded] never throws: wherever the call stack
    has room for one more call, it returns. On a store whose record
    payload can be read and holds at most 1000 live records it leaves
    the records alone and, where the browser takes the write, notes the
    time of the warning. On a readable store with more than 1000 live
    records, all with valid dates, and a browser that takes the writes,
    it saves the 800 newest: when that save returns, exactly 800 records
    are live, newest first, all of them live before, and no record that
    was dropped is newer than one that was kept. *)
Theorem quota_handler_keeps_the_newest (h : Host.t) (fuel : nat) (w : World) :
  (exists w', handleQuotaExceeded h (S fuel) w = Return tt w')
  /\ (readable (localStorage w !! ATTENDANCE_RECORDS) ->
      (List.length (live w) <=? 1000)%nat = true ->
      exists w',
        handleQuotaExceeded h (S (S fuel)) w = Return tt w'
        /\ localStorage w' !! ATTENDANCE_RECORDS = localStorage w !! ATTENDANCE_RECORDS
        /\ (accepting h ->
            getItem STORAGE_QUOTA_WARNING w' = Some (Doc (JNum (clock w)))))
  /\ (readable (localStorage w !! ATTENDANCE_RECORDS) ->
      (1000 <? List.length (live w))%nat = true ->
      accepting h ->
      List.Forall (timed h) (live w) ->
      forall w1,
        saveRecords h (S fuel)
          (JArr (slice0 800 (Array_sort (byTimestampDesc h) (live w)))) (cleanOldBackups h w)
        = Return tt w1 ->
        exists w' dropped,
          handleQuotaExceeded h (S (S fuel)) w = Return tt w'
          /\ List.length (live w') = 800%nat
          /\ Permutation (live w' ++ dropped) (live w)
          /\ sortedBy (notOlder h) (live w')
          /\ (forall kept gone, In kept (live w') -> In gone dropped -> notOlder h kept gone)).
Proof.
  split; [|split].
  - apply handleQuotaExceeded_returns.
  - apply handleQuotaExceeded_few.
  - intros Hread Hlen Ha Ht w1 Hsave.
    destruct (handleQuotaExceeded_many h fuel w w1 Hread Hlen Ha Hsave) as (w' & Hrun & Hl).
    destruct (newest_first_kept h 800 (live w) Ht) as (Hp & Hs & Hd).
    exists w', (slice_from 800 (Array_sort (byTimestampDesc h) (live w))).
    rewrite Hl. split; [exact Hrun|]. split; [now apply newest_800|].
    split; [exact Hp|]. split; [exact Hs|exact Hd].
Qed.

Lemma crowded_live : live Examples.crowded = Examples.records1200.
Proof. vm_cast_no_check (eq_refl Examples.records1200). Qed.

Lemma crowded_readable : readable (localStorage Examples.crowded !! ATTENDANCE_RECORDS).
Proof. vm_compute. exact I. Qed.

Lemma crowded_many : (1000 <? List.length (live Examples.crowded))%nat = true.
Proof. vm_cast_no_check (eq_refl true). Qed.

Lemma crowded_timed : List.Forall (timed Browser.roomy) (live Examples.crowded).
Proof. apply dates_are_valid. vm_cast_no_check (eq_refl true). Qed.

Lemma crowded_save :
  match saveRecords Browser.roomy 3
          (JArr (slice0 800 (Array_sort (byTimestampDesc Browser.roomy)
                                        (live Examples.crowded))))
          (cleanOldBackups Browser.roomy Examples.crowded) with
  | Return _ _ => true
  | Throw _ _ => false
  end = true.
Proof. vm_cast_no_check (eq_refl true). Qed.

(** 1200 live records in a browser with room: 800 stay. *)
Lemma quota_handler_keeps_the_newest_witness :
  List.length (live Examples.crowded) = 1200%nat
  /\ exists w',
       handleQuotaExceeded Browser.roomy 4 Examples.crowded = Return tt w'
       /\ List.length (live w') = 800%nat
       /\ sortedBy (notOlder Browser.roomy) (live w').
Proof.
  split; [rewrite crowded_live; vm_compute; reflexivity|].
  pose proof crowded_save as Hsave.
  destruct (saveRecords Browser.roomy 3 _ (cleanOldBackups Browser.roomy Examples.crowded))
    as [[] w1|e w1] eqn:Es; [|discriminate Hsave].
  destruct (proj2 (proj2 (quota_handler_keeps_the_newest Browser.roomy 2 Examples.crowded))
              crowded_readable crowded_many roomy_accepting crowded_timed w1 Es)
    as (w' & dropped & Hrun & Hlen & _ & Hsorted & _).
  exists w'. split; [exact Hrun|]. split; [exact Hlen|exact Hsorted].
Defined.

(* ===================================================================== *)
(** ** A number that is not a string *)
(* ===================================================================== *)

Lemma filter_try_throws (q : string) (l : list JSON) :
  List.Exists (fun r => matchesQuery q r = None) l ->
  filter_try (matchesQuery q) l = None.
Proof.
  induction 1 as [r l Hr|r l Hl IH]; cbn [filter_try].
  - now rewrite Hr.
  - rewrite IH. now destruct (matchesQuery q r).
Qed.

(** X21. [getRecords] accepts any truthy [prefectNumber], but a search
    calls [toLowerCase] on it: one live record whose number is not a
    string makes [searchPrefectRecords], and with it [getPrefectStats]
    and [exportPrefectReport], throw a [TypeError] for every query;
    nothing is written. *)
Theorem search_needs_string_numbers (h : Host.t) (fuel : nat) (q : string) (w : World)
  (r : JSON) :
  readable (localStorage w !! ATTENDANCE_RECORDS) ->
  In r (live w) ->
  (forall s, prop "prefectNumber" r <> Some (JStr s)) ->
  searchPrefectRecords h (S fuel) q w = Throw TypeError w
  /\ getPrefectStats h (S fuel) q w = Throw TypeError w
  /\ prefectReportLines h (S fuel) q w = Throw TypeError w.
Proof.
  intros Hread Hin Hnot.
  assert (Hs : searchPrefectRecords h (S fuel) q w = Throw TypeError w).
  { unfold searchPrefectRecords. rewrite getRecords_readable by exact Hread. cbn [bind].
    rewrite filter_try_throws; [reflexivity|].
    apply List.Exists_exists. exists r. split; [exact Hin|].
    unfold matchesQuery. destruct (prop "prefectNumber" r) as [[]|]; try reflexivity.
    now destruct (Hnot s). }
  split; [exact Hs|]. unfold getPrefectStats, prefectReportLines. now rewrite Hs.
Qed.

Lemma withNumeric_live :
  live Examples.withNumeric = [Examples.day1; Examples.numeric42].
Proof. vm_compute. reflexivity. Qed.

Lemma withNumeric_readable :
  readable (localStorage Examples.withNumeric !! ATTENDANCE_RECORDS).
Proof. vm_compute. exact I. Qed.

Lemma search_needs_string_numbers_witness :
  searchPrefectRecords Browser.roomy 1 "7" Examples.withNumeric
  = Throw TypeError Examples.withNumeric.
Proof.
  apply (search_needs_string_numbers Browser.roomy 0 "7" Examples.withNumeric
           Examples.numeric42 withNumeric_readable).
  - rewrite withNumeric_live. right. now left.
  - intros s. discriminate.
Defined.

(* ===================================================================== *)
(** ** The lines of the daily export *)
(* ===================================================================== *)

Lemma Array_sort_oldest_first (h : Host.t) (l : list JSON) :
  List.Forall (timed h) l ->
  sortedBy (fun a b => notOlder h b a) (Array_sort (byTimestampAsc h) l).
Proof.
  intros Ht. rewrite List.Forall_forall in Ht.
  assert (Hcmp : forall a b ta tb,
            Date_getTime h (prop "timestamp" a) = Some ta ->
            Date_getTime h (prop "timestamp" b) = Some tb ->
            byTimestampAsc h a b = (ta - tb)%Z).
  { intros a b ta tb Hta Htb. unfold byTimestampAsc. now apply byTimestampDesc_timed. }
  apply (sortedBy_impl (fun a b => (0 <= byTimestampAsc h b a)%Z)).
  - intros a b Ha Hb Hle. apply Array_sort_In in Ha, Hb.
    destruct (Ht a Ha) as [ta Hta], (Ht b Hb) as [tb Htb].
    rewrite (Hcmp b a tb ta Htb Hta) in Hle.
    exists tb, ta. split; [exact Htb|]. split; [exact Hta|]. lia.
  - apply (Array_sort_sorted (byTimestampAsc h) l l).
    + intros a b Ha Hb.
      destruct (Ht a Ha) as [ta Hta], (Ht b Hb) as [tb Htb].
      rewrite (Hcmp b a tb ta Htb Hta), (Hcmp a b ta tb Hta Htb). lia.
    + intros a b c Ha Hb Hc.
      destruct (Ht a Ha) as [ta Hta], (Ht b Hb) as [tb Htb], (Ht c Hc) as [tc Htc].
      rewrite (Hcmp b a tb ta Htb Hta), (Hcmp c b tc tb Htc Htb),
              (Hcmp c a tc ta Htc Hta). lia.
    + intros x Hx. exact Hx.
Qed.

Lemma report_columns (h : Host.t) (r : JSON) (t : Z) :
  Date_getTime h (prop "timestamp" r) = Some t ->
  (isOnTime h r = true
   /\ statusOf h r = "On Time" /\ notesOf h r = "Regular attendance")
  \/ (isOnTime h r = false
      /\ (7 <= getHours h t)%Z
      /\ statusOf h r = "Late"
      /\ notesOf h r
         = ("Arrived " +:+ string_of_Z (getHours h t - 7) +:+ "h "
            +:+ string_of_Z (getMinutes h t) +:+ "m late")%string).
Proof.
  intros Ht. unfold notesOf, statusOf.
  destruct (isOnTime h r) eqn:E; [left; now repeat split|right].
  split; [reflexivity|]. rewrite Ht. cbn [option_map show_number String.eqb].
  split; [|split; reflexivity].
  unfold isOnTime in E. rewrite Ht in E.
  apply orb_false_elim in E as [E _]. now apply Z.ltb_ge in E.
Qed.

(** X22. [exportAttendance date] lists the live records of the date, each
    once, oldest first when their timestamps are valid dates. A record on
    time is printed "On Time" with the note "Regular attendance"; a late
    one is printed "Late" with the hours past seven (never negative) and
    the minutes. *)
Theorem export_is_chronological (h : Host.t) (fuel : nat) (date : string) (w : World) :
  readable (localStorage w !! ATTENDANCE_RECORDS) ->
  List.Forall (timed h) (live w) ->
  exists records,
    dailyReportLines h (S fuel) date w
    = Return (List.map (reportLine h "prefectNumber") records) w
    /\ Permutation (ofDate date (live w)) records
    /\ sortedBy (fun a b => notOlder h b a) records
    /\ (forall r, In r records ->
          exists t,
            Date_getTime h (prop "timestamp" r) = Some t
            /\ ((isOnTime h r = true
                 /\ statusOf h r = "On Time" /\ notesOf h r = "Regular attendance")
                \/ (isOnTime h r = false
                    /\ (7 <= getHours h t)%Z
                    /\ statusOf h r = "Late"
                    /\ notesOf h r
                       = ("Arrived " +:+ string_of_Z (getHours h t - 7) +:+ "h "
                          +:+ string_of_Z (getMinutes h t) +:+ "m late")%string))).
Proof.
  intros Hread Htimed.
  assert (Hday : List.Forall (timed h) (ofDate date (live w))).
  { apply List.Forall_forall. intros r Hr. apply filter_In in Hr as [Hr _].
    rewrite List.Forall_forall in Htimed. now apply Htimed. }
  exists (Array_sort (byTimestampAsc h) (ofDate date (live w))).
  split; [|split; [|split]].
  - unfold dailyReportLines. now rewrite getRecords_readable by exact Hread.
  - symmetry. apply Array_sort_perm.
  - now apply Array_sort_oldest_first.
  - intros r Hr. apply Array_sort_In in Hr.
    rewrite List.Forall_forall in Hday. destruct (Hday r Hr) as [t Ht].
    exists t. split; [exact Ht|]. now apply report_columns.
Qed.

Lemma twoDays_timed : List.Forall (timed Browser.roomy) (live Examples.twoDays).
Proof.
  rewrite twoDays_live. repeat constructor; eexists; vm_compute; reflexivity.
Qed.

Lemma export_is_chronological_witness :
  exists records,
    dailyReportLines Browser.roomy 1 "3/4/2024" Examples.twoDays
    = Return (List.map (reportLine Browser.roomy "prefectNumber") records) Examples.twoDays
    /\ Permutation (ofDate "3/4/2024" (live Examples.twoDays)) records.
Proof.
  destruct (export_is_chronological Browser.roomy 0 "3/4/2024" Examples.twoDays
              twoDays_readable twoDays_timed) as (records & Hrun & Hperm & _).
  exists records. split; [exact Hrun|exact Hperm].
Defined.
